(** * ctop: the telemetry/delta engine and the layout engine of [ctop.c]

    A shallow embedding of the parts of [ctop.c] that turn the cumulative
    kernel counters into percentages, rates and history rings
    ([parse_cpu_stats], [parse_meminfo], [parse_net_stats],
    [parse_disk_stats], [parse_processes], [compare_processes],
    [update_stats]) and of the parts that place the panes on the terminal
    ([draw_graph], [draw_cpu_section], [calculate_minimum_size],
    [draw_screen]).

    Conventions of the embedding.
    - [unsigned long long] and [unsigned long] values are integers in [Z]
      reduced modulo [2^64] after every arithmetic operation ([u64]; both
      types are 64 bits wide on the LP64 platforms the program targets).
    - [int] and [long] values are integers in [Z]; the quantities stored in
      them (terminal sizes, cursor positions, tick counts, pids) stay far
      from the bounds of the C types, so no wrap-around is written for them.
      C's [/] and [%] on them are [Z.quot] and [Z.rem] (truncation).
    - [float] values are exact rationals in [Q]: every floating expression
      is given its real-number value, and the binary32 rounding of the C
      program is not represented.
    - Files under /proc are the already tokenised lines that the [sscanf]
      calls of the program extract; a file that cannot be opened is [None].
    - An array access outside the bounds of a table that the program
      indexes with a running counter makes the operation return [None]. *)

From Stdlib Require Import ZArith QArith Qround Qfield Lia Ascii.
From stdpp Require Import base option list strings.

Local Open Scope Z_scope.

(** ** Constants *)

Definition MAX_PROCESSES : Z := 512.
Definition MAX_CPU_CORES : Z := 256.
Definition HISTORY_SIZE : Z := 120.
Definition MAX_DISKS : Z := 32.

Definition SORT_CPU_LAZY : Z := 0.
Definition SORT_CPU_DIRECT : Z := 1.
Definition SORT_MEM : Z := 2.
Definition SORT_PID : Z := 3.
Definition SORT_NAME : Z := 4.
Definition SORT_MAX : Z := 5.

(** ** Numeric model *)

(** Wrap-around of the 64-bit unsigned types. *)
Definition u64 (z : Z) : Z := z mod 2 ^ 64.

(** The conversion [(int)f] of a float: truncation toward zero. *)
Definition int_of_float (q : Q) : Z := Qnum q `quot` Zpos (Qden q).

(** [a > b] on floats. *)
Definition Qgtb (a b : Q) : bool := negb (Qle_bool a b).

(** [table[i] = v] for a table of [cap] slots indexed by a running counter. *)
Definition store {A : Type} (cap i : Z) (v : A) (table : list A) : option (list A) :=
  if (0 <=? i) && (i <? cap) then Some (<[Z.to_nat i := v]> table) else None.

(** ** Data model *)

(** The eight tick counters that [parse_cpu_stats] reads from one "cpu" line
    of /proc/stat, in the order of the line. *)
Record cpu_ticks : Type := mkTicks {
  user : Z; nice : Z; system : Z; idle : Z;
  iowait : Z; irq : Z; softirq : Z; steal : Z
}.

(** [CoreStat]. The eight tick fields of the C struct are never written nor
    read by the program (the parser works on locals) and are left out. *)
Record CoreStat : Type := mkCore {
  prev_total : Z;
  prev_idle : Z;
  percent : Q;
  history : list Q;
  history_idx : Z
}.

Module DiskInfo.
(** [DiskInfo], with the fields the program uses. *)
Record t : Type := mk {
  name : string;
  read_sectors : Z;
  write_sectors : Z;
  read_speed : Q;
  write_speed : Q;
  history_rx : list Z;
  history_tx : list Z
}.

(** [memset(disk, 0, sizeof(DiskInfo))]. *)
Definition zero : t :=
  {| name := ""; read_sectors := 0; write_sectors := 0;
     read_speed := 0; write_speed := 0;
     history_rx := replicate (Z.to_nat HISTORY_SIZE) 0;
     history_tx := replicate (Z.to_nat HISTORY_SIZE) 0 |}.
End DiskInfo.

Module ProcessInfo.
(** [ProcessInfo]. [utime] and [stime] of the C struct are never written
    (the parser keeps them in locals) and are left out. *)
Record t : Type := mk {
  pid : Z;
  name : string;
  cmdline : string;
  user : string;
  state : ascii;
  prev_utime : Z;
  prev_stime : Z;
  mem_rss : Z;
  cpu_percent : Q;
  cpu_percent_lazy : Q;
  mem_percent : Q
}.

(** [memset(proc, 0, sizeof(ProcessInfo))]. *)
Definition zero : t :=
  {| pid := 0; name := ""; cmdline := ""; user := ""; state := "000"%char;
     prev_utime := 0; prev_stime := 0; mem_rss := 0;
     cpu_percent := 0; cpu_percent_lazy := 0; mem_percent := 0 |}.
End ProcessInfo.

(** [SystemStats] without the battery fields, which only [parse_battery] and
    the top bar touch, and without [net_rx_bytes]/[net_tx_bytes], which the
    program never uses. *)
Record SystemStats : Type := mkStats {
  num_cores : Z;
  cores : list CoreStat;
  overall : CoreStat;
  total_mem : Z;
  free_mem : Z;
  available_mem : Z;
  buffers : Z;
  cached : Z;
  swap_total : Z;
  swap_free : Z;
  mem_percent : Q;
  swap_percent : Q;
  process_count : Z;
  running_count : Z;
  processes : list ProcessInfo.t;
  cpu_history : list Z;
  mem_history : list Z;
  history_index : Z;
  prev_net_rx : Z;
  prev_net_tx : Z;
  net_rx_speed : Q;
  net_tx_speed : Q;
  net_history_rx : list Z;
  net_history_tx : list Z;
  disks : list DiskInfo.t;
  num_disks : Z
}.

(** The globals of the program that the engines read besides [g_stats]. *)
Record Globals : Type := mkGlobals {
  g_stats : SystemStats;
  g_sort_mode : Z;
  g_elapsed_seconds : Q;
  g_clk_tck : Z
}.

(** [static SystemStats g_stats = {0}]. *)
Definition zero_core : CoreStat :=
  {| prev_total := 0; prev_idle := 0; percent := 0;
     history := replicate (Z.to_nat HISTORY_SIZE) 0%Q; history_idx := 0 |}.

Definition zero_stats : SystemStats :=
  {| num_cores := 0;
     cores := replicate (Z.to_nat MAX_CPU_CORES) zero_core;
     overall := zero_core;
     total_mem := 0; free_mem := 0; available_mem := 0; buffers := 0;
     cached := 0; swap_total := 0; swap_free := 0;
     mem_percent := 0; swap_percent := 0;
     process_count := 0; running_count := 0;
     processes := replicate (Z.to_nat MAX_PROCESSES) ProcessInfo.zero;
     cpu_history := replicate (Z.to_nat HISTORY_SIZE) 0;
     mem_history := replicate (Z.to_nat HISTORY_SIZE) 0;
     history_index := 0;
     prev_net_rx := 0; prev_net_tx := 0; net_rx_speed := 0; net_tx_speed := 0;
     net_history_rx := replicate (Z.to_nat HISTORY_SIZE) 0;
     net_history_tx := replicate (Z.to_nat HISTORY_SIZE) 0;
     disks := replicate (Z.to_nat MAX_DISKS) DiskInfo.zero;
     num_disks := 0 |}.

(** The globals at program start: [g_sort_mode = SORT_CPU_LAZY],
    [g_elapsed_seconds = 1.0f], [g_clk_tck = 0]. *)
Definition initial_globals : Globals :=
  {| g_stats := zero_stats; g_sort_mode := SORT_CPU_LAZY;
     g_elapsed_seconds := 1; g_clk_tck := 0 |}.

(** ** History rings *)

(** The write that every series performs: [buf[cursor] = v], then
    [cursor = (cursor + 1) % N]. In the program [N] is [HISTORY_SIZE]. *)
Definition ring_write {A : Type} (N : Z) (ring : list A * Z) (v : A) : list A * Z :=
  (<[Z.to_nat (ring.2) := v]> (ring.1), (ring.2 + 1) `rem` N).

(** The cells that the column loop of [draw_graph] (and of
    [draw_sparkline_horizontal]) reads, left to right:
    [idx_start = (idx - w + N) % N], then [data[(idx_start + col) % N]] for
    [col = 0 .. min(w, N) - 1]. *)
Definition graph_index (N w idx col : Z) : Z :=
  ((idx - w + N) `rem` N + col) `rem` N.

Definition ring_read {A : Type} (N w : Z) (data : list A) (idx : Z) : list (option A) :=
  (λ col, data !! Z.to_nat (graph_index N w idx col)) <$> seqZ 0 (Z.min w N).

Definition draw_graph_reads {A : Type} (w : Z) (data : list A) (idx : Z) : list (option A) :=
  ring_read HISTORY_SIZE w data idx.

(** ** [parse_cpu_stats] *)

(** [total] and [idle_time] of a line: the sum of the eight tick categories
    and the sum of idle and iowait. *)
Definition total_of (t : cpu_ticks) : Z :=
  u64 (user t + nice t + system t + idle t + iowait t + irq t + softirq t + steal t).

Definition idle_time_of (t : cpu_ticks) : Z := u64 (idle t + iowait t).

(** The body of the line loop once [core] is chosen: from the computation of
    [total] and [idle_time] to the assignment of [core->prev_idle]. *)
Definition update_core (t : cpu_ticks) (core : CoreStat) : CoreStat :=
  let total := total_of t in
  let idle_time := idle_time_of t in
  let percent' :=
    if 0 <? prev_total core then
      let total_diff := u64 (total - prev_total core) in
      let idle_diff := u64 (idle_time - prev_idle core) in
      if 0 <? total_diff then
        (inject_Z (u64 (total_diff - idle_diff)) * 100 / inject_Z total_diff)%Q
      else percent core
    else percent core in
  let ring := ring_write HISTORY_SIZE (history core, history_idx core) percent' in
  {| prev_total := total; prev_idle := idle_time; percent := percent';
     history := ring.1; history_idx := ring.2 |}.

(** The percents that a core computes over a sequence of samples, oldest
    first. *)
Fixpoint percent_trace (ts : list cpu_ticks) (core : CoreStat) : list Q :=
  match ts with
  | [] => []
  | t :: ts' => percent (update_core t core) :: percent_trace ts' (update_core t core)
  end.

(** A line of /proc/stat as the loop sees it. The core number is what
    [sscanf] reads with "cpu%d"; the kernel writes it without a sign. *)
Inductive stat_line : Type :=
| LineOverall (t : cpu_ticks)          (* "cpu  ...": line[3] == ' ' *)
| LineCore (n : nat) (t : cpu_ticks)   (* "cpuN ..." *)
| LineOther.                           (* any other line *)

Definition cpu_line_step (st : Z * list CoreStat * CoreStat) (l : stat_line)
  : Z * list CoreStat * CoreStat :=
  let '(nc, cs, ov) := st in
  match l with
  | LineOverall t => (nc, cs, update_core t ov)
  | LineCore n t =>
      if Z.of_nat n <? MAX_CPU_CORES then
        (if nc <=? Z.of_nat n then Z.of_nat n + 1 else nc,
         alter (update_core t) n cs, ov)
      else st
  | LineOther => st
  end.

Definition parse_cpu_stats (file : option (list stat_line)) (s : SystemStats) : SystemStats :=
  match file with
  | None => s
  | Some lines =>
      let st := fold_left cpu_line_step lines (num_cores s, cores s, overall s) in
      let ov := st.2 in
      {| num_cores := st.1.1; cores := st.1.2; overall := ov;
         total_mem := total_mem s; free_mem := free_mem s;
         available_mem := available_mem s; buffers := buffers s;
         cached := cached s; swap_total := swap_total s; swap_free := swap_free s;
         mem_percent := mem_percent s; swap_percent := swap_percent s;
         process_count := process_count s; running_count := running_count s;
         processes := processes s;
         cpu_history :=
           <[Z.to_nat (history_index s) := int_of_float (percent ov)]> (cpu_history s);
         mem_history := mem_history s; history_index := history_index s;
         prev_net_rx := prev_net_rx s; prev_net_tx := prev_net_tx s;
         net_rx_speed := net_rx_speed s; net_tx_speed := net_tx_speed s;
         net_history_rx := net_history_rx s; net_history_tx := net_history_tx s;
         disks := disks s; num_disks := num_disks s |}
  end.

(** ** [parse_meminfo] *)

Inductive meminfo_line : Type :=
| MemTotal (v : Z) | MemFree (v : Z) | MemAvailable (v : Z) | Buffers (v : Z)
| Cached (v : Z) | SwapTotal (v : Z) | SwapFree (v : Z) | MemOther.

Record meminfo_vals : Type := mkMem {
  m_total : Z; m_free : Z; m_available : Z; m_buffers : Z;
  m_cached : Z; m_swap_total : Z; m_swap_free : Z
}.

Definition meminfo_step (m : meminfo_vals) (l : meminfo_line) : meminfo_vals :=
  match l with
  | MemTotal v => mkMem v (m_free m) (m_available m) (m_buffers m) (m_cached m) (m_swap_total m) (m_swap_free m)
  | MemFree v => mkMem (m_total m) v (m_available m) (m_buffers m) (m_cached m) (m_swap_total m) (m_swap_free m)
  | MemAvailable v => mkMem (m_total m) (m_free m) v (m_buffers m) (m_cached m) (m_swap_total m) (m_swap_free m)
  | Buffers v => mkMem (m_total m) (m_free m) (m_available m) v (m_cached m) (m_swap_total m) (m_swap_free m)
  | Cached v => mkMem (m_total m) (m_free m) (m_available m) (m_buffers m) v (m_swap_total m) (m_swap_free m)
  | SwapTotal v => mkMem (m_total m) (m_free m) (m_available m) (m_buffers m) (m_cached m) v (m_swap_free m)
  | SwapFree v => mkMem (m_total m) (m_free m) (m_available m) (m_buffers m) (m_cached m) (m_swap_total m) v
  | MemOther => m
  end.

Definition parse_meminfo (file : option (list meminfo_line)) (s : SystemStats) : SystemStats :=
  match file with
  | None => s
  | Some lines =>
      let m := fold_left meminfo_step lines
                 (mkMem (total_mem s) (free_mem s) (available_mem s) (buffers s)
                        (cached s) (swap_total s) (swap_free s)) in
      let mem_percent' :=
        if 0 <? m_total m then
          (inject_Z (u64 (m_total m - m_available m)) * 100 / inject_Z (m_total m))%Q
        else mem_percent s in
      let swap_percent' :=
        if 0 <? m_swap_total m then
          (inject_Z (u64 (m_swap_total m - m_swap_free m)) * 100 / inject_Z (m_swap_total m))%Q
        else swap_percent s in
      {| num_cores := num_cores s; cores := cores s; overall := overall s;
         total_mem := m_total m; free_mem := m_free m;
         available_mem := m_available m; buffers := m_buffers m;
         cached := m_cached m; swap_total := m_swap_total m;
         swap_free := m_swap_free m;
         mem_percent := mem_percent'; swap_percent := swap_percent';
         process_count := process_count s; running_count := running_count s;
         processes := processes s;
         cpu_history := cpu_history s;
         mem_history :=
           <[Z.to_nat (history_index s) := int_of_float mem_percent']> (mem_history s);
         history_index := history_index s;
         prev_net_rx := prev_net_rx s; prev_net_tx := prev_net_tx s;
         net_rx_speed := net_rx_speed s; net_tx_speed := net_tx_speed s;
         net_history_rx := net_history_rx s; net_history_tx := net_history_tx s;
         disks := disks s; num_disks := num_disks s |}
  end.

(** ** [parse_net_stats] *)

(** One interface line of /proc/net/dev (the two header lines are skipped by
    the program before the loop). *)
Record net_line : Type := mkNet { iface : string; rx_bytes : Z; tx_bytes : Z }.

(** The accumulation loop: [total_rx] and [total_tx] over every interface
    but "lo:". *)
Definition net_totals (lines : list net_line) : Z * Z :=
  fold_left
    (λ (acc : Z * Z) (l : net_line),
       if String.eqb (iface l) "lo:" then acc
       else (u64 (acc.1 + rx_bytes l), u64 (acc.2 + tx_bytes l)))
    lines (0, 0).

Definition parse_net_stats (file : option (list net_line)) (s : SystemStats) : SystemStats :=
  match file with
  | None => s
  | Some lines =>
      let total_rx := (net_totals lines).1 in
      let total_tx := (net_totals lines).2 in
      let rx_speed :=
        if 0 <? prev_net_rx s
        then (inject_Z (u64 (total_rx - prev_net_rx s)) / 1024)%Q
        else net_rx_speed s in
      let tx_speed :=
        if 0 <? prev_net_rx s
        then (inject_Z (u64 (total_tx - prev_net_tx s)) / 1024)%Q
        else net_tx_speed s in
      {| num_cores := num_cores s; cores := cores s; overall := overall s;
         total_mem := total_mem s; free_mem := free_mem s;
         available_mem := available_mem s; buffers := buffers s;
         cached := cached s; swap_total := swap_total s; swap_free := swap_free s;
         mem_percent := mem_percent s; swap_percent := swap_percent s;
         process_count := process_count s; running_count := running_count s;
         processes := processes s;
         cpu_history := cpu_history s; mem_history := mem_history s;
         history_index := history_index s;
         prev_net_rx := total_rx; prev_net_tx := total_tx;
         net_rx_speed := rx_speed; net_tx_speed := tx_speed;
         net_history_rx :=
           <[Z.to_nat (history_index s) := int_of_float (rx_speed / 100)]> (net_history_rx s);
         net_history_tx :=
           <[Z.to_nat (history_index s) := int_of_float (tx_speed / 100)]> (net_history_tx s);
         disks := disks s; num_disks := num_disks s |}
  end.

(** ** [parse_disk_stats] *)

(** A line of /proc/diskstats as the loop sees it; [sector_size] is what
    [get_sector_size] returns for the device. *)
Inductive diskstats_line : Type :=
| DiskUnparsed                       (* sscanf does not return 3 *)
| DiskLine (name : string) (read_sectors write_sectors sector_size : Z).

Definition is_virtual_disk (name : string) : bool :=
  String.prefix "loop" name || String.prefix "ram" name || String.prefix "dm-" name.

(** The body of the loop for a device that is kept: the zeroed entry, the
    search of the device in the previous table by name, the speeds, the copy
    of its history and the write of both series at [history_index]. *)
Definition disk_entry (old : list DiskInfo.t) (history_index : Z)
    (name : string) (read_sectors write_sectors sector_size : Z) : DiskInfo.t :=
  let found := List.find (λ d, String.eqb (DiskInfo.name d) name) old in
  let read_speed :=
    match found with
    | Some d => (inject_Z (u64 (u64 (read_sectors - DiskInfo.read_sectors d) * sector_size)) / 1024)%Q
    | None => DiskInfo.read_speed DiskInfo.zero
    end in
  let write_speed :=
    match found with
    | Some d => (inject_Z (u64 (u64 (write_sectors - DiskInfo.write_sectors d) * sector_size)) / 1024)%Q
    | None => DiskInfo.write_speed DiskInfo.zero
    end in
  let history_rx :=
    match found with
    | Some d => DiskInfo.history_rx d
    | None => DiskInfo.history_rx DiskInfo.zero
    end in
  let history_tx :=
    match found with
    | Some d => DiskInfo.history_tx d
    | None => DiskInfo.history_tx DiskInfo.zero
    end in
  {| DiskInfo.name := name;
     DiskInfo.read_sectors := read_sectors;
     DiskInfo.write_sectors := write_sectors;
     DiskInfo.read_speed := read_speed;
     DiskInfo.write_speed := write_speed;
     DiskInfo.history_rx :=
       <[Z.to_nat history_index := int_of_float (read_speed / 100)]> history_rx;
     DiskInfo.history_tx :=
       <[Z.to_nat history_index := int_of_float (write_speed / 100)]> history_tx |}.

(** The line loop; [new_disks] holds the [new_disk_count] entries built so
    far. *)
Fixpoint disk_loop (old : list DiskInfo.t) (history_index : Z)
    (lines : list diskstats_line) (new_disks : list DiskInfo.t) : list DiskInfo.t :=
  match lines with
  | [] => new_disks
  | l :: rest =>
      if Z.of_nat (length new_disks) <? MAX_DISKS then
        match l with
        | DiskUnparsed => disk_loop old history_index rest new_disks
        | DiskLine name rs ws ss =>
            if is_virtual_disk name then disk_loop old history_index rest new_disks
            else disk_loop old history_index rest
                   (new_disks ++ [disk_entry old history_index name rs ws ss])
        end
      else new_disks
  end.

Definition parse_disk_stats (file : option (list diskstats_line)) (s : SystemStats) : SystemStats :=
  match file with
  | None => s
  | Some lines =>
      let old := take (Z.to_nat (num_disks s)) (disks s) in
      let new_disks := disk_loop old (history_index s) lines [] in
      {| num_cores := num_cores s; cores := cores s; overall := overall s;
         total_mem := total_mem s; free_mem := free_mem s;
         available_mem := available_mem s; buffers := buffers s;
         cached := cached s; swap_total := swap_total s; swap_free := swap_free s;
         mem_percent := mem_percent s; swap_percent := swap_percent s;
         process_count := process_count s; running_count := running_count s;
         processes := processes s;
         cpu_history := cpu_history s; mem_history := mem_history s;
         history_index := history_index s;
         prev_net_rx := prev_net_rx s; prev_net_tx := prev_net_tx s;
         net_rx_speed := net_rx_speed s; net_tx_speed := net_tx_speed s;
         net_history_rx := net_history_rx s; net_history_tx := net_history_tx s;
         disks := new_disks ++ drop (length new_disks) (disks s);
         num_disks := Z.of_nat (length new_disks) |}
  end.

(** ** [compare_processes] *)

(** [tolower] of the C locale on an unsigned char. *)
Definition tolower (c : ascii) : Z :=
  let n := Z.of_N (N_of_ascii c) in
  if (65 <=? n) && (n <=? 90) then n + 32 else n.

(** [strcasecmp]: the difference of the first pair of lowered characters
    that differ, the end of a string counting as the character 0. *)
Fixpoint strcasecmp (a b : string) : Z :=
  match a, b with
  | EmptyString, EmptyString => 0
  | EmptyString, String c _ => 0 - tolower c
  | String c _, EmptyString => tolower c
  | String c1 a', String c2 b' =>
      if tolower c1 =? tolower c2 then strcasecmp a' b' else tolower c1 - tolower c2
  end.

(** The code after the switch of [compare_processes]: "Secondary sort by
    PID for stable ordering". *)
Definition pid_order (pa pb : ProcessInfo.t) : Z :=
  if ProcessInfo.pid pa >? ProcessInfo.pid pb then 1
  else if ProcessInfo.pid pa <? ProcessInfo.pid pb then -1
  else 0.

Definition compare_processes (g_sort_mode : Z) (pa pb : ProcessInfo.t) : Z :=
  let secondary := pid_order pa pb in
  if g_sort_mode =? SORT_CPU_DIRECT then
    if Qgtb (ProcessInfo.cpu_percent pb) (ProcessInfo.cpu_percent pa) then 1
    else if Qgtb (ProcessInfo.cpu_percent pa) (ProcessInfo.cpu_percent pb) then -1
    else secondary
  else if g_sort_mode =? SORT_CPU_LAZY then
    if Qgtb (ProcessInfo.cpu_percent_lazy pb) (ProcessInfo.cpu_percent_lazy pa) then 1
    else if Qgtb (ProcessInfo.cpu_percent_lazy pa) (ProcessInfo.cpu_percent_lazy pb) then -1
    else secondary
  else if g_sort_mode =? SORT_MEM then
    if ProcessInfo.mem_rss pb >? ProcessInfo.mem_rss pa then 1
    else if ProcessInfo.mem_rss pb <? ProcessInfo.mem_rss pa then -1
    else secondary
  else if g_sort_mode =? SORT_PID then
    if ProcessInfo.pid pa >? ProcessInfo.pid pb then 1
    else if ProcessInfo.pid pa <? ProcessInfo.pid pb then -1
    else secondary
  else if g_sort_mode =? SORT_NAME then
    strcasecmp (ProcessInfo.name pa) (ProcessInfo.name pb)
  else secondary.

(** ** [parse_processes] *)

(** What the reads of /proc/PID/stat, /proc/PID/status and /proc/PID/cmdline
    and [get_username] deliver for one process. *)
Record stat_record : Type := mkStat {
  st_pid : Z;
  st_comm : string;       (* the text between the first '(' and the last ')' *)
  st_state : ascii;
  st_utime : Z;
  st_stime : Z;
  st_vm_rss : Z;          (* VmRSS of the status file, 0 when absent *)
  st_user : string;
  st_cmdline : string     (* the bytes of cmdline, NULs turned into spaces *)
}.

(** A directory entry of /proc as the scan loop sees it. *)
Inductive dirent : Type :=
| EntryNotNumeric                 (* is_number fails *)
| EntryUnreadable                 (* fopen fails or fgets reads nothing *)
| EntryNoOpenParen                (* no '(' in the line *)
| EntryNoCloseParen (pid : Z)     (* a '(' but no ')' *)
| EntryStat (r : stat_record).

(** The libc routine [qsort] applied to a table of [ProcessInfo] with a
    comparator. *)
Definition sorter : Type :=
  (ProcessInfo.t → ProcessInfo.t → Z) → list ProcessInfo.t → list ProcessInfo.t.

Definition with_processes (s : SystemStats) (count running : Z)
    (table : list ProcessInfo.t) : SystemStats :=
  {| num_cores := num_cores s; cores := cores s; overall := overall s;
     total_mem := total_mem s; free_mem := free_mem s;
     available_mem := available_mem s; buffers := buffers s;
     cached := cached s; swap_total := swap_total s; swap_free := swap_free s;
     mem_percent := mem_percent s; swap_percent := swap_percent s;
     process_count := count; running_count := running;
     processes := table;
     cpu_history := cpu_history s; mem_history := mem_history s;
     history_index := history_index s;
     prev_net_rx := prev_net_rx s; prev_net_tx := prev_net_tx s;
     net_rx_speed := net_rx_speed s; net_tx_speed := net_tx_speed s;
     net_history_rx := net_history_rx s; net_history_tx := net_history_tx s;
     disks := disks s; num_disks := num_disks s |}.

(** The instant CPU% of a process found in the previous table. *)
Definition cpu_raw_of (num_cores : Z) (elapsed : Q) (clk_tck delta_total : Z) : Q :=
  if (0 <? num_cores) && Qgtb elapsed 0
  then (inject_Z delta_total * 100 / (inject_Z clk_tck * elapsed * inject_Z num_cores))%Q
  else 0%Q.

(** [g_clk_tck] after the two guards of the found branch. *)
Definition clk_tck_of (sysconf_clk_tck clk : Z) : Z :=
  let clk1 := if clk <=? 0 then sysconf_clk_tck else clk in
  if clk1 <=? 0 then 100 else clk1.

(** The part of the loop body from "Store current CPU times" to the end of
    the search loop: [proc] is the slot being filled, [utime], [stime] the
    ticks just read. Returns the slot and [g_clk_tck]. *)
Definition process_cpu (sysconf_clk_tck : Z) (prev_procs : list ProcessInfo.t)
    (num_cores : Z) (elapsed : Q) (clk : Z) (utime stime : Z)
    (proc : ProcessInfo.t) : ProcessInfo.t * Z :=
  match List.find (λ q, ProcessInfo.pid q =? ProcessInfo.pid proc) prev_procs with
  | Some prev =>
      let delta_utime := utime - ProcessInfo.prev_utime prev in
      let delta_stime := stime - ProcessInfo.prev_stime prev in
      let delta_total := delta_utime + delta_stime in
      let clk' := clk_tck_of sysconf_clk_tck clk in
      let cpu_raw := cpu_raw_of num_cores elapsed clk' delta_total in
      let lazy :=
        if Qgtb (ProcessInfo.cpu_percent_lazy proc) 0 || Qgtb cpu_raw 0
        then (ProcessInfo.cpu_percent_lazy proc * (7 # 10) + cpu_raw * (3 # 10))%Q
        else cpu_raw in
      ({| ProcessInfo.pid := ProcessInfo.pid proc;
          ProcessInfo.name := ProcessInfo.name proc;
          ProcessInfo.cmdline := ProcessInfo.cmdline proc;
          ProcessInfo.user := ProcessInfo.user proc;
          ProcessInfo.state := ProcessInfo.state proc;
          ProcessInfo.prev_utime := utime;
          ProcessInfo.prev_stime := stime;
          ProcessInfo.mem_rss := ProcessInfo.mem_rss proc;
          ProcessInfo.cpu_percent := cpu_raw;
          ProcessInfo.cpu_percent_lazy := lazy;
          ProcessInfo.mem_percent := ProcessInfo.mem_percent proc |}, clk')
  | None =>
      ({| ProcessInfo.pid := ProcessInfo.pid proc;
          ProcessInfo.name := ProcessInfo.name proc;
          ProcessInfo.cmdline := ProcessInfo.cmdline proc;
          ProcessInfo.user := ProcessInfo.user proc;
          ProcessInfo.state := ProcessInfo.state proc;
          ProcessInfo.prev_utime := utime;
          ProcessInfo.prev_stime := stime;
          ProcessInfo.mem_rss := ProcessInfo.mem_rss proc;
          ProcessInfo.cpu_percent := 0;
          ProcessInfo.cpu_percent_lazy := ProcessInfo.cpu_percent_lazy proc;
          ProcessInfo.mem_percent := ProcessInfo.mem_percent proc |}, clk)
  end.

(** The slot after the reads of the three files: the zeroed slot with pid,
    name, state, resident memory, user, command line and memory percent. *)
Definition fill_slot (total_mem : Z) (r : stat_record) : ProcessInfo.t :=
  let zero := ProcessInfo.zero in
  let name := String.substring 0 255 (st_comm r) in
  {| ProcessInfo.pid := st_pid r;
     ProcessInfo.name := name;
     ProcessInfo.cmdline := if String.eqb (st_cmdline r) "" then name else st_cmdline r;
     ProcessInfo.user := st_user r;
     ProcessInfo.state := st_state r;
     ProcessInfo.prev_utime := ProcessInfo.prev_utime zero;
     ProcessInfo.prev_stime := ProcessInfo.prev_stime zero;
     ProcessInfo.mem_rss := st_vm_rss r;
     ProcessInfo.cpu_percent := ProcessInfo.cpu_percent zero;
     ProcessInfo.cpu_percent_lazy := ProcessInfo.cpu_percent_lazy zero;
     ProcessInfo.mem_percent :=
       if 0 <? total_mem
       then (inject_Z (st_vm_rss r) * 100 / inject_Z total_mem)%Q
       else 0%Q |}.

(** One iteration of the scan loop on a directory entry. *)
Definition scan_entry (sysconf_clk_tck : Z) (prev_procs : list ProcessInfo.t)
    (e : dirent) (g : Globals) : option Globals :=
  let s := g_stats g in
  match e with
  | EntryNotNumeric | EntryUnreadable => Some g
  | EntryNoOpenParen =>
      table ← store MAX_PROCESSES (process_count s) ProcessInfo.zero (processes s);
      Some (mkGlobals (with_processes s (process_count s) (running_count s) table)
              (g_sort_mode g) (g_elapsed_seconds g) (g_clk_tck g))
  | EntryNoCloseParen pid =>
      table ← store MAX_PROCESSES (process_count s)
                (ProcessInfo.mk pid "" "" "" "000"%char 0 0 0 0 0 0) (processes s);
      Some (mkGlobals (with_processes s (process_count s) (running_count s) table)
              (g_sort_mode g) (g_elapsed_seconds g) (g_clk_tck g))
  | EntryStat r =>
      let '(proc, clk') :=
        process_cpu sysconf_clk_tck prev_procs (num_cores s) (g_elapsed_seconds g)
          (g_clk_tck g) (st_utime r) (st_stime r) (fill_slot (total_mem s) r) in
      table ← store MAX_PROCESSES (process_count s) proc (processes s);
      Some (mkGlobals
              (with_processes s (process_count s + 1)
                 (if Ascii.eqb (ProcessInfo.state proc) "R" then running_count s + 1
                  else running_count s)
                 table)
              (g_sort_mode g) (g_elapsed_seconds g) clk')
  end.

(** The scan loop: it stops at the end of the directory or as soon as
    [process_count] reaches [MAX_PROCESSES]. *)
Fixpoint scan_loop (sysconf_clk_tck : Z) (prev_procs : list ProcessInfo.t)
    (entries : list dirent) (g : Globals) : option Globals :=
  match entries with
  | [] => Some g
  | e :: rest =>
      if process_count (g_stats g) <? MAX_PROCESSES then
        g' ← scan_entry sysconf_clk_tck prev_procs e g;
        scan_loop sysconf_clk_tck prev_procs rest g'
      else Some g
  end.

Definition parse_processes (qsort : sorter) (sysconf_clk_tck : Z)
    (dir : option (list dirent)) (g : Globals) : option Globals :=
  match dir with
  | None => Some g
  | Some entries =>
      let s := g_stats g in
      let prev_count := process_count s in
      (* memcpy(prev_procs, g_stats.processes, sizeof(ProcessInfo) * prev_count) *)
      if (0 <=? prev_count) && (prev_count <=? MAX_PROCESSES) then
        let prev_procs := take (Z.to_nat prev_count) (processes s) in
        g' ← scan_loop sysconf_clk_tck prev_procs entries
               (mkGlobals (with_processes s 0 0 (processes s))
                  (g_sort_mode g) (g_elapsed_seconds g) (g_clk_tck g));
        let s' := g_stats g' in
        let n := Z.to_nat (process_count s') in
        Some (mkGlobals
                (with_processes s' (process_count s') (running_count s')
                   (qsort (compare_processes (g_sort_mode g')) (take n (processes s'))
                    ++ drop n (processes s')))
                (g_sort_mode g') (g_elapsed_seconds g') (g_clk_tck g'))
      else None
  end.

(** An insertion sort driven by the comparator: one admissible behaviour of
    [qsort], used where a concrete sorting routine is needed. *)
Fixpoint insert_sorted (cmp : ProcessInfo.t → ProcessInfo.t → Z)
    (p : ProcessInfo.t) (l : list ProcessInfo.t) : list ProcessInfo.t :=
  match l with
  | [] => [p]
  | q :: l' => if cmp p q <=? 0 then p :: l else q :: insert_sorted cmp p l'
  end.

Definition insertion_qsort : sorter :=
  λ cmp l, foldr (insert_sorted cmp) [] l.

(** ** [update_stats] *)

(** What one poll reads from the system. *)
Record Snapshot : Type := mkSnapshot {
  proc_stat : option (list stat_line);
  proc_meminfo : option (list meminfo_line);
  proc_net_dev : option (list net_line);
  proc_diskstats : option (list diskstats_line);
  proc_dir : option (list dirent);
  sysconf_clk_tck : Z
}.

Definition advance_history_index (s : SystemStats) : SystemStats :=
  {| num_cores := num_cores s; cores := cores s; overall := overall s;
     total_mem := total_mem s; free_mem := free_mem s;
     available_mem := available_mem s; buffers := buffers s;
     cached := cached s; swap_total := swap_total s; swap_free := swap_free s;
     mem_percent := mem_percent s; swap_percent := swap_percent s;
     process_count := process_count s; running_count := running_count s;
     processes := processes s;
     cpu_history := cpu_history s; mem_history := mem_history s;
     history_index := (history_index s + 1) `rem` HISTORY_SIZE;
     prev_net_rx := prev_net_rx s; prev_net_tx := prev_net_tx s;
     net_rx_speed := net_rx_speed s; net_tx_speed := net_tx_speed s;
     net_history_rx := net_history_rx s; net_history_tx := net_history_tx s;
     disks := disks s; num_disks := num_disks s |}.

(** The telemetry part of [update_stats], before the process scan:
    [parse_cpu_stats], [parse_meminfo], [parse_net_stats],
    [parse_disk_stats] ([parse_battery] writes battery fields only). *)
Definition poll_counters (snap : Snapshot) (s : SystemStats) : SystemStats :=
  parse_disk_stats (proc_diskstats snap)
    (parse_net_stats (proc_net_dev snap)
       (parse_meminfo (proc_meminfo snap)
          (parse_cpu_stats (proc_stat snap) s))).

Definition update_stats (qsort : sorter) (snap : Snapshot) (g : Globals) : option Globals :=
  g' ← parse_processes qsort (sysconf_clk_tck snap) (proc_dir snap)
         (mkGlobals (poll_counters snap (g_stats g))
            (g_sort_mode g) (g_elapsed_seconds g) (g_clk_tck g));
  Some (mkGlobals (advance_history_index (g_stats g'))
          (g_sort_mode g') (g_elapsed_seconds g') (g_clk_tck g')).

(** A refresh tick of the main loop: [g_elapsed_seconds] is set to the
    measured time since the previous poll, then [update_stats] runs. *)
Definition poll (qsort : sorter) (elapsed : Q) (snap : Snapshot) (g : Globals)
  : option Globals :=
  update_stats qsort snap
    (mkGlobals (g_stats g) (g_sort_mode g) elapsed (g_clk_tck g)).

(** A snapshot in which only /proc/net/dev can be read. *)
Definition net_only (lines : list net_line) : Snapshot :=
  mkSnapshot None None (Some lines) None None 100.

(** A snapshot of a machine with one core in which /proc/stat and the
    process directory can be read. *)
Definition proc_snapshot (t : cpu_ticks) (entries : list dirent) : Snapshot :=
  mkSnapshot (Some [LineOverall t; LineCore 0 t]) None None None (Some entries) 100.

(** The states the program can be in after any number of polls. *)
Inductive reachable (qsort : sorter) : Globals → Prop :=
| reachable_start sort_mode :
    reachable qsort (mkGlobals zero_stats sort_mode 1 0)
| reachable_poll g snap elapsed sort_mode g' :
    reachable qsort g →
    update_stats qsort snap
      (mkGlobals (g_stats g) sort_mode elapsed (g_clk_tck g)) = Some g' →
    reachable qsort g'.

(** ** [draw_cpu_section]: the per-core grid *)

(** The rectangle of the grid given to one core: [c_w] columns from column
    [c_x] and [c_h] rows from row [c_y]. In two-line mode the label, bar and
    percentage are printed on the first row and the sparkline on the second,
    all between [c_x] and [c_x + c_w]; in one-line mode label, bar and
    percentage are printed on the single row, where a percentage of three
    digits ends one column past the rectangle. *)
Record cell : Type := mkCell { c_core : Z; c_x : Z; c_y : Z; c_w : Z; c_h : Z }.

Definition core_label_width (num_cores : Z) : Z :=
  if num_cores >=? 100 then 4 else if num_cores >=? 10 then 3 else 2.

Definition two_line_item_width (num_cores : Z) : Z := core_label_width num_cores + 12.
Definition single_line_item_width (num_cores : Z) : Z := core_label_width num_cores + 6.

Definition max_cores_per_row (w num_cores : Z) : Z :=
  let m := (w - 2) `quot` two_line_item_width num_cores in
  if m <? 1 then 1 else m.

(** [cores_per_row] of the one-line mode. *)
Definition single_line_cores_per_row (w num_cores : Z) : Z :=
  let m := (w - 2) `quot` single_line_item_width num_cores in
  if m <? 1 then 1 else m.

Definition min_rows_needed (w num_cores : Z) : Z :=
  (num_cores + max_cores_per_row w num_cores - 1) `quot` max_cores_per_row w num_cores.

Definition use_two_line (w num_cores available_core_rows : Z) : bool :=
  available_core_rows >=? min_rows_needed w num_cores * 2.

(** The search loop of the two-line mode, [test] counting down from
    [max_cores_per_row] to 1; returns [best_cores_per_row] and [best_rows]. *)
Fixpoint best_distribution (num_cores available_core_rows : Z) (test : nat)
    (best_cores_per_row best_rows : Z) : Z * Z :=
  match test with
  | O => (best_cores_per_row, best_rows)
  | S test' =>
      let test_cores_per_row := Z.of_nat test in
      let rows_needed := (num_cores + test_cores_per_row - 1) `quot` test_cores_per_row in
      if rows_needed * 2 >? available_core_rows then (best_cores_per_row, best_rows)
      else
        let cores_in_last_row := num_cores - (rows_needed - 1) * test_cores_per_row in
        let cores_in_full_rows := test_cores_per_row in
        if (cores_in_last_row =? cores_in_full_rows)
           || (negb (best_rows =? rows_needed)
               && (rows_needed <=? available_core_rows `quot` 2))
        then
          if cores_in_last_row =? cores_in_full_rows
          then (test_cores_per_row, rows_needed)
          else best_distribution num_cores available_core_rows test'
                 test_cores_per_row rows_needed
        else best_distribution num_cores available_core_rows test'
               best_cores_per_row best_rows
  end.

(** The drawing loop of the two-line mode over the core numbers [ids], with
    its [break] when the second row of a core would reach the last row of
    the pane. *)
Fixpoint two_line_cells (x y h core_start_y cores_per_row actual_item_width : Z)
    (ids : list Z) : list cell :=
  match ids with
  | [] => []
  | i :: rest =>
      let col := i `rem` cores_per_row in
      let row_group := i `quot` cores_per_row in
      let cx := x + col * actual_item_width in
      let cy1 := core_start_y + row_group * 2 in
      let cy2 := cy1 + 1 in
      if cy2 >=? y + h - 1 then []
      else mkCell i cx cy1 actual_item_width 2
           :: two_line_cells x y h core_start_y cores_per_row actual_item_width rest
  end.

(** The drawing loop of the one-line mode. *)
Fixpoint one_line_cells (x y h core_start_y cores_per_row single_line_item_width : Z)
    (ids : list Z) : list cell :=
  match ids with
  | [] => []
  | i :: rest =>
      let cx := x + (i `rem` cores_per_row) * single_line_item_width in
      let cy := core_start_y + i `quot` cores_per_row in
      if cy >=? y + h - 1 then []
      else mkCell i cx cy single_line_item_width 1
           :: one_line_cells x y h core_start_y cores_per_row single_line_item_width rest
  end.

(** The first row of the per-core grid and the number of rows left for it. *)
Definition graph_h_of (h : Z) : Z := if h >? 8 then 2 else 1.
Definition core_start_y_of (y h : Z) : Z := y + 1 + graph_h_of h.
Definition available_core_rows_of (y h : Z) : Z := (y + h - 1) - core_start_y_of y h.

(** [draw_cpu_section(x, y, w, h)] with [g_stats.num_cores = num_cores]: the
    cells of the per-core grid that are drawn. *)
Definition draw_cpu_section (num_cores x y w h : Z) : list cell :=
  if h <? 3 then []
  else if h <? 4 then []
  else
    let core_start_y := core_start_y_of y h in
    if core_start_y >=? y + h - 1 then []
    else
      let available_core_rows := available_core_rows_of y h in
      if use_two_line w num_cores available_core_rows then
        let cores_per_row :=
          (best_distribution num_cores available_core_rows
             (Z.to_nat (max_cores_per_row w num_cores))
             (max_cores_per_row w num_cores) (min_rows_needed w num_cores)).1 in
        let usable_width := w - 2 in
        let actual_item_width :=
          if usable_width `quot` cores_per_row <? two_line_item_width num_cores
          then two_line_item_width num_cores
          else usable_width `quot` cores_per_row in
        two_line_cells x y h core_start_y cores_per_row actual_item_width
          (seqZ 0 (Z.min num_cores MAX_CPU_CORES))
      else
        let cores_per_row := single_line_cores_per_row w num_cores in
        let max_cores_display :=
          if cores_per_row * available_core_rows >? num_cores then num_cores
          else cores_per_row * available_core_rows in
        one_line_cells x y h core_start_y cores_per_row
          (single_line_item_width num_cores)
          (seqZ 0 (Z.min max_cores_display MAX_CPU_CORES)).

(** The cell of core [i] in a grid of [cores_per_row] columns of
    [item_width] characters with [lines] rows for each core, the first cell
    being at [(x0, y0)]: the position that both drawing loops compute. *)
Definition grid_cell (x0 y0 cores_per_row item_width lines i : Z) : cell :=
  mkCell i (x0 + (i `rem` cores_per_row) * item_width)
           (y0 + (i `quot` cores_per_row) * lines) item_width lines.

(** What the search loop of the two-line mode keeps true of
    [best_cores_per_row] and [best_rows]: a number of cores per row that the
    width allows, the rows that it needs, and these rows fitting at two
    lines each. *)
Definition fits (num_cores available_core_rows max_per_row : Z)
    (best_cores_per_row best_rows : Z) : Prop :=
  1 ≤ best_cores_per_row ≤ max_per_row
  ∧ best_rows = (num_cores + best_cores_per_row - 1) `quot` best_cores_per_row
  ∧ best_rows * 2 ≤ available_core_rows.

(** The number of cores that [draw_cpu_section] is to display: none in a
    pane of fewer than four rows, all of them in two-line mode, and as many
    as the rows can take in one-line mode. *)
Definition displayed_cores (num_cores w y h : Z) : Z :=
  if h <? 4 then 0
  else if use_two_line w num_cores (available_core_rows_of y h) then num_cores
  else Z.min num_cores
         (single_line_cores_per_row w num_cores * available_core_rows_of y h).

(** Two cells share a character position. *)
Definition cells_overlap (a b : cell) : Prop :=
  c_x a < c_x b + c_w b ∧ c_x b < c_x a + c_w a ∧
  c_y a < c_y b + c_h b ∧ c_y b < c_y a + c_h a.

(** A cell lies inside the pane drawn at [(x, y)] with [w] columns and [h]
    rows. *)
Definition cell_in_pane (x y w h : Z) (c : cell) : Prop :=
  x ≤ c_x c ∧ c_x c + c_w c ≤ x + w ∧ y ≤ c_y c ∧ c_y c + c_h c ≤ y + h.

(** ** [calculate_minimum_size] and [draw_screen] *)

(** The pane visibility flags [g_show_cpu] ... [g_show_proc] (C [int]s, a
    pane being shown when its flag is not zero). *)
Record Panes : Type := mkPanes {
  g_show_cpu : Z; g_show_mem : Z; g_show_disks : Z; g_show_net : Z; g_show_proc : Z
}.

(** The truth value of a C [int]. *)
Definition truthy (z : Z) : bool := negb (z =? 0).

Definition calculate_minimum_size (p : Panes) : Z * Z :=
  let num_left_panes := g_show_mem p + g_show_disks p + g_show_net p in
  let base_h := 2 in
  let content_h0 := if truthy (g_show_cpu p) then 5 else 0 in
  let bottom := (num_left_panes >? 0) || truthy (g_show_proc p) in
  let left_panes_h := num_left_panes * 4 in
  let proc_h := if truthy (g_show_proc p) then 6 else 0 in
  let bottom_h0 := if left_panes_h >? proc_h then left_panes_h else proc_h in
  let bottom_h := if bottom_h0 <? 6 then 6 else bottom_h0 in
  let content_h := if bottom then content_h0 + bottom_h else content_h0 in
  let min_proc_width := if truthy (g_show_proc p) then 45 else 0 in
  let min_left_width := if num_left_panes >? 0 then 20 else 0 in
  let required_width := min_left_width + min_proc_width + 4 in
  let min_w := if bottom && (required_width >? 80) then required_width else 80 in
  let min_h0 := base_h + content_h in
  let min_h := if min_h0 <? 10 then 10 else min_h0 in
  (min_w, min_h).

Inductive pane : Type := PaneCpu | PaneMem | PaneDisk | PaneNet | PaneProc.

(** A call [draw_*_section(x, y, w, h)] of [draw_screen]. *)
Record region : Type := mkRegion {
  r_pane : pane; r_x : Z; r_y : Z; r_w : Z; r_h : Z
}.

(** What [draw_screen] puts on the terminal: the diagnostic screen of
    [draw_error_screen], which prints the current size and the required
    size, or the panes. *)
Inductive screen : Type :=
| TooSmall (w h min_w min_h : Z)
| Layout (regions : list region).

Definition draw_error_screen (p : Panes) (w h : Z) : screen :=
  let '(min_w, min_h) := calculate_minimum_size p in
  TooSmall w h min_w min_h.

(** The height given to the CPU pane before the check of the bottom
    section. *)
Definition cpu_height_of (p : Panes) (available_height : Z) : Z :=
  if truthy (g_show_cpu p) then
    let cpu_height := 5 in
    let min_proc_rows := 10 in
    let other_panes :=
      if truthy (g_show_mem p) || truthy (g_show_disks p) || truthy (g_show_net p)
      then 3 else 0 in
    let needed_for_bottom := min_proc_rows + other_panes in
    if available_height >? cpu_height + needed_for_bottom then
      let extra := available_height - cpu_height - needed_for_bottom in
      let cpu_height' := cpu_height + extra `quot` 4 in
      if cpu_height' >? available_height `quot` 3 then available_height `quot` 3
      else cpu_height'
    else cpu_height
  else 0.

(** [cpu_height] and [bottom_height] after the check of the bottom section. *)
Definition split_heights (p : Panes) (available_height : Z) : Z * Z :=
  let cpu_height := cpu_height_of p available_height in
  let bottom_height := available_height - cpu_height in
  if (bottom_height <? 6)
     && (truthy (g_show_mem p) || truthy (g_show_disks p)
         || truthy (g_show_net p) || truthy (g_show_proc p))
  then
    let cpu_height' :=
      if truthy (g_show_cpu p) then
        if available_height - 6 <? 3 then 0 else available_height - 6
      else cpu_height in
    (cpu_height', available_height - cpu_height')
  else (cpu_height, bottom_height).

(** [left_width] and [proc_width]. *)
Definition split_widths (p : Panes) (w : Z) : Z * Z :=
  let num_left_panes := g_show_mem p + g_show_disks p + g_show_net p in
  if truthy (g_show_proc p) && (num_left_panes =? 0) then (0, w - 2)
  else if negb (truthy (g_show_proc p)) && (num_left_panes >? 0) then (w - 2, 0)
  else if truthy (g_show_proc p) && (num_left_panes >? 0) then
    let left_width0 := ((w - 3) * 35) `quot` 100 in
    let left_width := if left_width0 <? 18 then 18 else left_width0 in
    let proc_width := (w - 3) - left_width in
    if proc_width <? 40 then ((w - 3) - 40, 40) else (left_width, proc_width)
  else (0, 0).

(** The stacked left panes: memory, disk, network. *)
Definition left_regions (p : Panes) (bottom_y bottom_height left_width : Z) : list region :=
  let num_left_panes := g_show_mem p + g_show_disks p + g_show_net p in
  if (num_left_panes >? 0) && (left_width >? 0) then
    let base_pane_height := bottom_height `quot` num_left_panes in
    let pane_h_of (remaining_height : Z) :=
      let pane_h := if base_pane_height <? 4 then remaining_height else base_pane_height in
      if pane_h >? remaining_height then remaining_height else pane_h in
    let left_y0 := bottom_y in
    let remaining0 := bottom_height in
    let mem_drawn := truthy (g_show_mem p) && (remaining0 >? 0) in
    let mem_h := pane_h_of remaining0 in
    let left_y1 := if mem_drawn then left_y0 + mem_h else left_y0 in
    let remaining1 := if mem_drawn then remaining0 - mem_h else remaining0 in
    let disk_drawn := truthy (g_show_disks p) && (remaining1 >? 0) in
    let disk_h := pane_h_of remaining1 in
    let left_y2 := if disk_drawn then left_y1 + disk_h else left_y1 in
    let remaining2 := if disk_drawn then remaining1 - disk_h else remaining1 in
    let net_drawn := truthy (g_show_net p) && (remaining2 >? 0) in
    (if mem_drawn then [mkRegion PaneMem 1 left_y0 left_width mem_h] else [])
    ++ (if disk_drawn then [mkRegion PaneDisk 1 left_y1 left_width disk_h] else [])
    ++ (if net_drawn then [mkRegion PaneNet 1 left_y2 left_width remaining2] else [])
  else [].

Definition draw_screen (p : Panes) (w h : Z) : screen :=
  let '(min_w, min_h) := calculate_minimum_size p in
  if (w <? min_w) || (h <? min_h) then draw_error_screen p w h
  else
    let top_margin := 1 in
    let bottom_margin := 1 in
    let available_height := h - top_margin - bottom_margin in
    let '(cpu_height, bottom_height) := split_heights p available_height in
    let cpu_drawn := truthy (g_show_cpu p) && (cpu_height >? 0) in
    let current_y := if cpu_drawn then top_margin + cpu_height else top_margin in
    let bottom_y := current_y in
    let num_left_panes := g_show_mem p + g_show_disks p + g_show_net p in
    let '(left_width, proc_width) := split_widths p w in
    Layout
      ((if cpu_drawn then [mkRegion PaneCpu 1 top_margin (w - 2) cpu_height] else [])
       ++ left_regions p bottom_y bottom_height left_width
       ++ (if truthy (g_show_proc p) && (proc_width >? 0)
           then [mkRegion PaneProc (if num_left_panes >? 0 then left_width + 2 else 1)
                   bottom_y proc_width bottom_height]
           else [])).

(** A region lies on a terminal of [w] columns and [h] rows, below the top
    bar and above the help bar. *)
Definition region_on_screen (w h : Z) (r : region) : Prop :=
  0 ≤ r_x r ∧ r_x r + r_w r ≤ w ∧ 1 ≤ r_y r ∧ r_y r + r_h r ≤ h - 1 ∧
  0 < r_w r ∧ 0 < r_h r.

(** The number of lines of /proc/stat for core [n], and for the overall
    counters. *)
Fixpoint core_line_count (n : nat) (lines : list stat_line) : nat :=
  match lines with
  | [] => O
  | LineCore m _ :: rest =>
      if Nat.eqb m n then S (core_line_count n rest) else core_line_count n rest
  | _ :: rest => core_line_count n rest
  end.

Fixpoint overall_line_count (lines : list stat_line) : nat :=
  match lines with
  | [] => O
  | LineOverall _ :: rest => S (overall_line_count rest)
  | _ :: rest => overall_line_count rest
  end.

(** One advance of a history cursor. *)
Definition advance (cursor : Z) : Z := (cursor + 1) `rem` HISTORY_SIZE.

(** [s'] is [s] but for the process table and its two counters. *)
Definition processes_only (s s' : SystemStats) : Prop :=
  s' = with_processes s (process_count s') (running_count s') (processes s').

(** The shape of the state that every poll preserves: cursors in range,
    history arrays of [HISTORY_SIZE] cells, process count within the
    table. *)
Definition core_inv (c : CoreStat) : Prop :=
  0 ≤ history_idx c < HISTORY_SIZE ∧ length (history c) = Z.to_nat HISTORY_SIZE.

Definition disk_inv (d : DiskInfo.t) : Prop :=
  length (DiskInfo.history_rx d) = Z.to_nat HISTORY_SIZE
  ∧ length (DiskInfo.history_tx d) = Z.to_nat HISTORY_SIZE.

Record stats_inv (s : SystemStats) : Prop := mkInv {
  inv_index : 0 ≤ history_index s < HISTORY_SIZE;
  inv_overall : core_inv (overall s);
  inv_cores : Forall core_inv (cores s);
  inv_cpu_history : length (cpu_history s) = Z.to_nat HISTORY_SIZE;
  inv_mem_history : length (mem_history s) = Z.to_nat HISTORY_SIZE;
  inv_net_history_rx : length (net_history_rx s) = Z.to_nat HISTORY_SIZE;
  inv_net_history_tx : length (net_history_tx s) = Z.to_nat HISTORY_SIZE;
  inv_disks : Forall disk_inv (take (Z.to_nat (num_disks s)) (disks s));
  inv_process_count : 0 ≤ process_count s ≤ MAX_PROCESSES
}.

(** The flags as the key handler keeps them ([g_show_x = !g_show_x]) and as
    the settings file writes them: 0 or 1. *)
Definition flag (z : Z) : Prop := z = 0 ∨ z = 1.

Definition valid_panes (p : Panes) : Prop :=
  flag (g_show_cpu p) ∧ flag (g_show_mem p) ∧ flag (g_show_disks p)
  ∧ flag (g_show_net p) ∧ flag (g_show_proc p).

(** The panes that are switched on, in drawing order. *)
Definition shown_panes (p : Panes) : list pane :=
  (if truthy (g_show_cpu p) then [PaneCpu] else [])
  ++ (if truthy (g_show_mem p) then [PaneMem] else [])
  ++ (if truthy (g_show_disks p) then [PaneDisk] else [])
  ++ (if truthy (g_show_net p) then [PaneNet] else [])
  ++ (if truthy (g_show_proc p) then [PaneProc] else []).

(** ** Further notions used to state properties of the engines *)

(** A C string: no character of the string is the terminating NUL. *)
Fixpoint c_string (s : string) : bool :=
  match s with
  | EmptyString => true
  | String c s' => negb (Ascii.eqb c "000") && c_string s'
  end.

(** The bytes received and sent over the interfaces other than "lo:", as
    plain sums. *)
Fixpoint sum_rx (lines : list net_line) : Z :=
  match lines with
  | [] => 0
  | l :: rest => (if String.eqb (iface l) "lo:" then 0 else rx_bytes l) + sum_rx rest
  end.

Fixpoint sum_tx (lines : list net_line) : Z :=
  match lines with
  | [] => 0
  | l :: rest => (if String.eqb (iface l) "lo:" then 0 else tx_bytes l) + sum_tx rest
  end.

(** The names of the devices of /proc/diskstats that the loop of
    [parse_disk_stats] keeps: parsed lines whose name is not that of a loop,
    ram or device-mapper device. *)
Fixpoint kept_disk_names (lines : list diskstats_line) : list string :=
  match lines with
  | [] => []
  | DiskUnparsed :: rest => kept_disk_names rest
  | DiskLine name _ _ _ :: rest =>
      if is_virtual_disk name then kept_disk_names rest
      else name :: kept_disk_names rest
  end.

(** The devices that [parse_disk_stats] tracks: the first [num_disks]
    entries of the table. *)
Definition tracked_disks (s : SystemStats) : list DiskInfo.t :=
  take (Z.to_nat (num_disks s)) (disks s).

(** A file of /proc/meminfo with no "MemAvailable:" line. *)
Fixpoint no_mem_available (lines : list meminfo_line) : bool :=
  match lines with
  | [] => true
  | MemAvailable _ :: _ => false
  | _ :: rest => no_mem_available rest
  end.

(** The largest core number below [MAX_CPU_CORES] of a /proc/stat file, plus
    one; 0 when the file names no core. *)
Fixpoint cores_listed (lines : list stat_line) : Z :=
  match lines with
  | [] => 0
  | LineCore n _ :: rest =>
      if Z.of_nat n <? MAX_CPU_CORES
      then Z.max (Z.of_nat n + 1) (cores_listed rest)
      else cores_listed rest
  | _ :: rest => cores_listed rest
  end.

(** The records of the directory entries that the scan of [parse_processes]
    admits into the table, in directory order. *)
Fixpoint stat_records (entries : list dirent) : list stat_record :=
  match entries with
  | [] => []
  | EntryStat r :: rest => r :: stat_records rest
  | _ :: rest => stat_records rest
  end.

(** The number of records whose state is 'R'. *)
Fixpoint count_running (recs : list stat_record) : Z :=
  match recs with
  | [] => 0
  | r :: rest => (if Ascii.eqb (st_state r) "R" then 1 else 0) + count_running rest
  end.

(** The table slot that the scan fills for a record, in the state [g] in
    which [parse_processes] is entered. *)
Definition scanned_slot (sysconf_clk_tck : Z) (prev_procs : list ProcessInfo.t)
    (g : Globals) (r : stat_record) : ProcessInfo.t :=
  (process_cpu sysconf_clk_tck prev_procs (num_cores (g_stats g)) (g_elapsed_seconds g)
     (g_clk_tck g) (st_utime r) (st_stime r) (fill_slot (total_mem (g_stats g)) r)).1.

(** The scan that started in [g0] is in progress in [g]: the fields that the
    loop body reads are those of [g0], but for [g_clk_tck], which the first
    process found in the previous table may have set. *)
Definition scanning (sysconf_clk_tck : Z) (g0 g : Globals) : Prop :=
  num_cores (g_stats g) = num_cores (g_stats g0)
  ∧ total_mem (g_stats g) = total_mem (g_stats g0)
  ∧ g_elapsed_seconds g = g_elapsed_seconds g0
  ∧ (g_clk_tck g = g_clk_tck g0
     ∨ g_clk_tck g = clk_tck_of sysconf_clk_tck (g_clk_tck g0))
  ∧ length (processes (g_stats g)) = Z.to_nat MAX_PROCESSES.

(** Two regions share a cell of the terminal. *)
Definition regions_overlap (a b : region) : Prop :=
  r_x a < r_x b + r_w b ∧ r_x b < r_x a + r_w a
  ∧ r_y a < r_y b + r_h b ∧ r_y b < r_y a + r_h a.

(** ** [draw_process_list] *)

Definition PROC_PID_WIDTH : Z := 8.
Definition PROC_CPU_WIDTH : Z := 6.
Definition PROC_MEM_WIDTH : Z := 8.
Definition PROC_PROG_MIN_WIDTH : Z := 8.
Definition PROC_CMD_MIN_WIDTH : Z := 8.
Definition PROC_USER_MIN_WIDTH : Z := 6.
Definition PROC_COLUMN_SPACING : Z := 4.
Definition PROC_NARROW_OFFSET : Z := 1.

(** The columns of the process list. The program leaves [cmd_width] and
    [user_width] uninitialised in the branches that hide the column, where
    they are never read; they are 0 here. *)
Record proc_columns : Type := mkColumns {
  show_user : bool; show_cmd : bool;
  prog_width : Z; cmd_width : Z; user_width : Z
}.

Definition process_columns (w : Z) : proc_columns :=
  let fixed_width :=
    PROC_PID_WIDTH + PROC_MEM_WIDTH + PROC_CPU_WIDTH + PROC_COLUMN_SPACING in
  let var_width := w - fixed_width in
  if var_width <? PROC_PROG_MIN_WIDTH + PROC_USER_MIN_WIDTH then
    let prog_width := var_width - PROC_NARROW_OFFSET in
    mkColumns false false (if prog_width <? 6 then 6 else prog_width) 0 0
  else if var_width <? PROC_PROG_MIN_WIDTH + PROC_CMD_MIN_WIDTH + PROC_USER_MIN_WIDTH then
    let prog_width0 := (var_width * 60) `quot` 100 in
    let prog_width :=
      if prog_width0 <? PROC_PROG_MIN_WIDTH then PROC_PROG_MIN_WIDTH else prog_width0 in
    let user_width := var_width - prog_width - 1 in
    mkColumns true false prog_width 0
      (if user_width <? PROC_USER_MIN_WIDTH then PROC_USER_MIN_WIDTH else user_width)
  else
    let prog_width := (var_width * 30) `quot` 100 in
    let cmd_width := (var_width * 40) `quot` 100 in
    let user_width := var_width - prog_width - cmd_width - 2 in
    mkColumns true true
      (if prog_width <? PROC_PROG_MIN_WIDTH then PROC_PROG_MIN_WIDTH else prog_width)
      (if cmd_width <? PROC_CMD_MIN_WIDTH then PROC_CMD_MIN_WIDTH else cmd_width)
      (if user_width <? PROC_USER_MIN_WIDTH then PROC_USER_MIN_WIDTH else user_width).

(** The fields of the header row: the column, relative to [x], at which
    each field is printed and the width it is padded to, in printing order.
    The fields of a process row start at the same columns, with the same
    widths but for the last one, which is one character narrower. *)
Definition row_fields (w : Z) : list (Z * Z) :=
  let c := process_columns w in
  let cx0 := 0 in
  let cx1 := cx0 + PROC_PID_WIDTH + 1 in
  let cx2 := cx1 + prog_width c + 1 in
  let cx3 := if show_cmd c then cx2 + cmd_width c + 1 else cx2 in
  let cx4 := if show_user c then cx3 + user_width c + 1 else cx3 in
  let cx5 := cx4 + PROC_MEM_WIDTH + 1 in
  [(cx0, PROC_PID_WIDTH); (cx1, prog_width c)]
  ++ (if show_cmd c then [(cx2, cmd_width c)] else [])
  ++ (if show_user c then [(cx3, user_width c)] else [])
  ++ [(cx4, PROC_MEM_WIDTH); (cx5, PROC_CPU_WIDTH)].

(** "Scroll handling": the new [g_scroll_offset]. *)
Definition scroll_offset (selected offset list_height : Z) : Z :=
  if selected <? offset then selected
  else if selected >=? offset + list_height then selected - list_height + 1
  else offset.

(** The loop "Process rows" from iteration [i] on: the terminal row and the
    table index of every row that is drawn. The loop runs while
    [i < list_height], so [list_height] iterations are enough fuel. *)
Fixpoint process_rows_from (fuel : nat) (i list_start list_height max_line
    offset process_count : Z) : list (Z * Z) :=
  match fuel with
  | O => []
  | S fuel' =>
      if (i <? list_height) && (offset + i <? process_count) then
        let idx := offset + i in
        let row := list_start + i in
        if row >=? max_line then []
        else (row, idx)
             :: process_rows_from fuel' (i + 1) list_start list_height max_line
                  offset process_count
      else []
  end.

(** The rows of [draw_process_list(x, y, w, h)] with the new scroll offset. *)
Definition process_rows (y h selected offset process_count : Z) : list (Z * Z) * Z :=
  if h <? 5 then ([], offset)
  else
    let list_start := y + 2 in
    let list_height := h - 3 in
    let max_line := y + h - 1 in
    let offset' := scroll_offset selected offset list_height in
    (process_rows_from (Z.to_nat list_height) 0 list_start list_height max_line
       offset' process_count,
     offset').

(** ** [draw_mini_bar] *)

(** What a cell of a bar receives: the full block, the glyph [blocks[k]],
    or a space. *)
Inductive bar_cell : Type := BarFull | BarBlock (k : Z) | BarBlank.

Definition draw_mini_bar (w : Z) (percent : Q) : list bar_cell :=
  let filled := int_of_float ((percent / 100) * inject_Z w) in
  let frac := ((percent / 100) * inject_Z w - inject_Z filled)%Q in
  let frac_idx := int_of_float (frac * 7) in
  (λ i, if i <? filled then BarFull
        else if (i =? filled) && (frac_idx >=? 0) then BarBlock frac_idx
        else BarBlank) <$> seqZ 0 w.

(** ** [format_bytes] *)

(** The loop [while (val >= 1024 && unit < 4)]; it runs at most four times. *)
Fixpoint format_bytes_loop (fuel : nat) (val : Q) (unit : Z) : Q * Z :=
  match fuel with
  | O => (val, unit)
  | S fuel' =>
      if Qle_bool 1024 val && (unit <? 4)
      then format_bytes_loop fuel' (val / 1024) (unit + 1)
      else (val, unit)
  end.

(** The value and the index of the unit that [format_bytes] prints. *)
Definition format_bytes (bytes : Z) : Q * Z :=
  format_bytes_loop 4 (inject_Z bytes) 0.

(** ** [parse_battery] *)

(** The battery fields of [SystemStats]. *)
Record Battery : Type := mkBattery {
  battery_percent : Z; battery_present : Z; battery_status : string
}.

(** An entry of /sys/class/power_supply: its name, what the read of its
    capacity file gives ([None] when the file cannot be opened, [Some None]
    when [fscanf] reads no number) and what [fgets] into the 16 bytes of
    [battery_status] and the removal of the newline leave of its status
    file ([None] when the file cannot be opened). *)
Record supply : Type := mkSupply {
  d_name : string; capacity : option (option Z); status : option string
}.

Definition read_battery (e : supply) (b : Battery) : Battery :=
  let b1 :=
    match capacity e with
    | Some v =>
        mkBattery (match v with Some n => n | None => battery_percent b end) 1
          (battery_status b)
    | None => b
    end in
  match status e with
  | Some st => mkBattery (battery_percent b1) (battery_present b1) st
  | None => b1
  end.

Fixpoint battery_loop (entries : list supply) (b : Battery) : Battery :=
  match entries with
  | [] => b
  | e :: rest =>
      if negb (String.prefix "BAT" (d_name e)) then battery_loop rest b
      else read_battery e b
  end.

Definition parse_battery (dir : option (list supply)) (b : Battery) : Battery :=
  match dir with
  | None => mkBattery (battery_percent b) 0 (battery_status b)
  | Some entries => battery_loop entries b
  end.

(** ** The key handler of [main] *)

(** The constants of termbox2.h that [main] compares an event with. The
    header is not part of the program text; the handler is modelled for any
    values of the constants. *)
Record Termbox : Type := mkTermbox {
  TB_EVENT_KEY : Z; TB_EVENT_RESIZE : Z; TB_MOD_ALT : Z;
  TB_KEY_CTRL_A : Z; TB_KEY_CTRL_B : Z; TB_KEY_CTRL_C : Z; TB_KEY_CTRL_E : Z;
  TB_KEY_CTRL_F : Z; TB_KEY_CTRL_N : Z; TB_KEY_CTRL_P : Z; TB_KEY_CTRL_V : Z;
  TB_KEY_ESC : Z; TB_KEY_ARROW_UP : Z; TB_KEY_ARROW_DOWN : Z;
  TB_KEY_PGUP : Z; TB_KEY_PGDN : Z; TB_KEY_HOME : Z; TB_KEY_END : Z
}.

(** The values that termbox2 gives to these constants. *)
Definition termbox2 : Termbox :=
  {| TB_EVENT_KEY := 1; TB_EVENT_RESIZE := 2; TB_MOD_ALT := 1;
     TB_KEY_CTRL_A := 1; TB_KEY_CTRL_B := 2; TB_KEY_CTRL_C := 3; TB_KEY_CTRL_E := 5;
     TB_KEY_CTRL_F := 6; TB_KEY_CTRL_N := 14; TB_KEY_CTRL_P := 16; TB_KEY_CTRL_V := 22;
     TB_KEY_ESC := 27; TB_KEY_ARROW_UP := 65535 - 18; TB_KEY_ARROW_DOWN := 65535 - 19;
     TB_KEY_PGUP := 65535 - 16; TB_KEY_PGDN := 65535 - 17;
     TB_KEY_HOME := 65535 - 14; TB_KEY_END := 65535 - 15 |}.

(** [struct tb_event], with the fields that [main] reads. *)
Record tb_event : Type := mkEvent { ev_type : Z; ev_mod : Z; ev_key : Z; ev_ch : Z }.

(** The globals that the key handler writes: the five pane flags,
    [g_sort_mode], [g_selected_process] and [g_running]. *)
Record Ui : Type := mkUi {
  ui_panes : Panes; ui_sort_mode : Z; g_selected_process : Z; g_running : Z
}.

(** The locals [need_redraw], [pane_toggled] and [sort_changed] of an
    iteration of the main loop. *)
Record Redraw : Type := mkRedraw { need_redraw : Z; pane_toggled : Z; sort_changed : Z }.

(** C's [!] on an [int]. *)
Definition lnot (z : Z) : Z := if z =? 0 then 1 else 0.

(** The code of a character constant. *)
Definition char_code (c : ascii) : Z := Z.of_N (N_of_ascii c).

(** The body of [if (ret == TB_OK)] in the main loop, for a terminal of [w]
    columns and [h] rows: the event handler. *)
Definition handle_event (tb : Termbox) (w h process_count : Z) (ev : tb_event) (u : Ui)
  : Ui * Redraw :=
  let p := ui_panes u in
  let '(min_w, min_h) := calculate_minimum_size p in
  let in_error_mode := (w <? min_w) || (h <? min_h) in
  let nav := negb in_error_mode && truthy (g_show_proc p) in
  let sel := g_selected_process u in
  let select (s : Z) := (mkUi p (ui_sort_mode u) s (g_running u), mkRedraw 1 0 0) in
  let toggle (p' : Panes) := (mkUi p' (ui_sort_mode u) sel (g_running u), mkRedraw 1 1 0) in
  let sort (m : Z) := (mkUi p m sel (g_running u), mkRedraw 1 0 1) in
  if ev_type ev =? TB_EVENT_KEY tb then
    if ev_ch ev =? char_code "1" then
      toggle (mkPanes (lnot (g_show_cpu p)) (g_show_mem p) (g_show_disks p)
                (g_show_net p) (g_show_proc p))
    else if ev_ch ev =? char_code "2" then
      toggle (mkPanes (g_show_cpu p) (lnot (g_show_mem p)) (g_show_disks p)
                (g_show_net p) (g_show_proc p))
    else if ev_ch ev =? char_code "3" then
      toggle (mkPanes (g_show_cpu p) (g_show_mem p) (lnot (g_show_disks p))
                (g_show_net p) (g_show_proc p))
    else if ev_ch ev =? char_code "4" then
      toggle (mkPanes (g_show_cpu p) (g_show_mem p) (g_show_disks p)
                (lnot (g_show_net p)) (g_show_proc p))
    else if ev_ch ev =? char_code "5" then
      toggle (mkPanes (g_show_cpu p) (g_show_mem p) (g_show_disks p)
                (g_show_net p) (lnot (g_show_proc p)))
    else if ev_key ev =? TB_KEY_CTRL_F tb then
      sort ((ui_sort_mode u + 1) `rem` SORT_MAX)
    else if ev_key ev =? TB_KEY_CTRL_B tb then
      sort ((ui_sort_mode u - 1 + SORT_MAX) `rem` SORT_MAX)
    else if (ev_ch ev =? char_code "q") || (ev_ch ev =? char_code "Q")
            || (ev_key ev =? TB_KEY_ESC tb) || (ev_key ev =? TB_KEY_CTRL_C tb) then
      (mkUi p (ui_sort_mode u) sel 0, mkRedraw 0 0 0)
    else if nav && ((ev_key ev =? TB_KEY_CTRL_N tb) || (ev_key ev =? TB_KEY_ARROW_DOWN tb)) then
      select (if sel <? process_count - 1 then sel + 1 else sel)
    else if nav && ((ev_key ev =? TB_KEY_CTRL_P tb) || (ev_key ev =? TB_KEY_ARROW_UP tb)) then
      select (if sel >? 0 then sel - 1 else sel)
    else if nav && ((ev_key ev =? TB_KEY_CTRL_V tb) || (ev_key ev =? TB_KEY_PGDN tb)) then
      select (if sel + 10 >=? process_count then process_count - 1 else sel + 10)
    else if nav && (((ev_key ev =? char_code "v")
                     && negb (Z.land (ev_mod ev) (TB_MOD_ALT tb) =? 0))
                    || (ev_key ev =? TB_KEY_PGUP tb)) then
      select (if sel - 10 <? 0 then 0 else sel - 10)
    else if nav && ((ev_key ev =? TB_KEY_CTRL_A tb) || (ev_key ev =? TB_KEY_HOME tb)) then
      select 0
    else if nav && ((ev_key ev =? TB_KEY_CTRL_E tb) || (ev_key ev =? TB_KEY_END tb)) then
      select (process_count - 1)
    else (u, mkRedraw 0 0 0)
  else if ev_type ev =? TB_EVENT_RESIZE tb then (u, mkRedraw 1 0 0)
  else (u, mkRedraw 0 0 0).

(** A key event that carries a key code and no character. *)
Definition key_press (tb : Termbox) (key : Z) : tb_event :=
  mkEvent (TB_EVENT_KEY tb) 0 key 0.

(** The interface is in a state that the handler keeps: flags that are 0 or
    1, a sort mode among the five modes. *)
Definition ui_inv (u : Ui) : Prop :=
  valid_panes (ui_panes u) ∧ 0 ≤ ui_sort_mode u < SORT_MAX.

(** ** [save_settings] and [load_settings] *)

(** The settings that the configuration file holds: the five pane flags,
    [g_sort_mode] and [g_refresh_rate_ms]. *)
Record Settings : Type := mkSettings {
  s_panes : Panes; s_sort_mode : Z; g_refresh_rate_ms : Z
}.

Definition newline : ascii := "010"%char.

(** [printf("%d")]: the decimal digits of a number that is not negative,
    most significant first, in front of [acc]. A number has no more decimal
    digits than binary digits, which is the fuel that [print_int] gives. *)
Fixpoint print_digits (fuel : nat) (n : Z) (acc : string) : string :=
  match fuel with
  | O => acc
  | S fuel' =>
      let acc' := String (ascii_of_N (Z.to_N (48 + n mod 10))) acc in
      if n <? 10 then acc' else print_digits fuel' (n / 10) acc'
  end.

Definition print_int (z : Z) : string :=
  if z <? 0 then String "-" (print_digits (S (Z.to_nat (Z.log2 (- z)))) (- z) "")
  else print_digits (S (Z.to_nat (Z.log2 z))) z "".

(** The lines that [save_settings] writes when the file can be opened. *)
Definition save_settings (s : Settings) : list string :=
  let line (key : string) (value : Z) :=
    (key ++ "=" ++ print_int value ++ String newline "")%string in
  [("# ctop configuration file" ++ String newline "")%string;
   line "show_cpu" (g_show_cpu (s_panes s));
   line "show_mem" (g_show_mem (s_panes s));
   line "show_disks" (g_show_disks (s_panes s));
   line "show_net" (g_show_net (s_panes s));
   line "show_proc" (g_show_proc (s_panes s));
   line "sort_mode" (s_sort_mode s);
   line "refresh_rate" (g_refresh_rate_ms s)].

(** [isspace] and [isdigit] of the C locale. *)
Definition is_space (c : ascii) : bool :=
  let n := Z.of_N (N_of_ascii c) in (n =? 32) || ((9 <=? n) && (n <=? 13)).

Definition is_digit (c : ascii) : bool :=
  let n := Z.of_N (N_of_ascii c) in (48 <=? n) && (n <=? 57).

Fixpoint skip_space (s : string) : string :=
  match s with
  | String c s' => if is_space c then skip_space s' else s
  | EmptyString => s
  end.

(** The digits at the head of [s], accumulated in base ten. *)
Fixpoint scan_digits (s : string) (acc : Z) : Z :=
  match s with
  | String c s' =>
      if is_digit c then scan_digits s' (acc * 10 + (Z.of_N (N_of_ascii c) - 48))
      else acc
  | EmptyString => acc
  end.

(** The directive [%d] of [sscanf]: white space, an optional sign, one
    digit or more. [None] when no number can be read. *)
Definition scan_int (s : string) : option Z :=
  let s1 := skip_space s in
  let '(negative, s2) :=
    match s1 with
    | String c rest =>
        if Ascii.eqb c "-" then (true, rest)
        else if Ascii.eqb c "+" then (false, rest)
        else (false, s1)
    | EmptyString => (false, s1)
    end in
  match s2 with
  | String c _ =>
      if is_digit c then
        let v := scan_digits s2 0 in Some (if negative then - v else v)
      else None
  | EmptyString => None
  end.

(** The directive [%63[^=]]: the characters before the first '=', 63 of
    them at most, and what follows them. *)
Fixpoint scan_key (fuel : nat) (s : string) : string * string :=
  match fuel, s with
  | S fuel', String c s' =>
      if Ascii.eqb c "=" then (EmptyString, s)
      else let '(key, rest) := scan_key fuel' s' in (String c key, rest)
  | _, _ => (EmptyString, s)
  end.

(** [sscanf(line, "%63[^=]=%d", key, &value) == 2]. *)
Definition scan_setting (line : string) : option (string * Z) :=
  let '(key, rest) := scan_key 63 line in
  match key, rest with
  | String _ _, String c rest' =>
      if Ascii.eqb c "=" then
        match scan_int rest' with
        | Some value => Some (key, value)
        | None => None
        end
      else None
  | _, _ => None
  end.

(** The chain of [strcmp] of the line loop of [load_settings]: the
    assignment that a key and a value lead to. *)
Definition apply_setting (s : Settings) (key : string) (value : Z) : Settings :=
  let p := s_panes s in
  if String.eqb key "show_cpu" then
    mkSettings (mkPanes value (g_show_mem p) (g_show_disks p) (g_show_net p)
                  (g_show_proc p)) (s_sort_mode s) (g_refresh_rate_ms s)
  else if String.eqb key "show_mem" then
    mkSettings (mkPanes (g_show_cpu p) value (g_show_disks p) (g_show_net p)
                  (g_show_proc p)) (s_sort_mode s) (g_refresh_rate_ms s)
  else if String.eqb key "show_disks" then
    mkSettings (mkPanes (g_show_cpu p) (g_show_mem p) value (g_show_net p)
                  (g_show_proc p)) (s_sort_mode s) (g_refresh_rate_ms s)
  else if String.eqb key "show_net" then
    mkSettings (mkPanes (g_show_cpu p) (g_show_mem p) (g_show_disks p) value
                  (g_show_proc p)) (s_sort_mode s) (g_refresh_rate_ms s)
  else if String.eqb key "show_proc" then
    mkSettings (mkPanes (g_show_cpu p) (g_show_mem p) (g_show_disks p)
                  (g_show_net p) value) (s_sort_mode s) (g_refresh_rate_ms s)
  else if String.eqb key "sort_mode" then
    if (value >=? 0) && (value <? SORT_MAX)
    then mkSettings p value (g_refresh_rate_ms s) else s
  else if String.eqb key "refresh_rate" then
    if (value >=? 100) && (value <=? 10000)
    then mkSettings p (s_sort_mode s) value else s
  else s.

(** The body of the line loop of [load_settings]. *)
Definition load_line (s : Settings) (line : string) : Settings :=
  match line with
  | String c _ =>
      if Ascii.eqb c "#" || Ascii.eqb c newline then s
      else
        match scan_setting line with
        | Some (key, value) => apply_setting s key value
        | None => s
        end
  | EmptyString => s
  end.

(** [load_settings] on the lines that [fgets] delivers; a file that cannot
    be opened is [None]. *)
Definition load_settings (file : option (list string)) (s : Settings) : Settings :=
  match file with
  | None => s
  | Some lines => fold_left load_line lines s
  end.

(** The settings at program start. *)
Definition default_settings : Settings :=
  mkSettings (mkPanes 1 1 1 1 1) SORT_CPU_LAZY 1000.

(** ** Widths of the graphs *)

(** The width that [draw_cpu_section(x, y, w, h)] passes to [draw_graph]
    for the history of the overall CPU. *)
Definition cpu_graph_w (w : Z) : Z :=
  let graph_w := w - 2 in
  if graph_w >? 60 then 60 else graph_w.

(** The width that [draw_disk_section(x, y, w, h)] passes to [draw_graph]
    for the I/O history of a disk. *)
Definition disk_graph_w (w : Z) : Z :=
  let disks_per_row := if w >? 60 then 2 else 1 in
  let disk_width := (w - 2) `quot` disks_per_row in
  let graph_w := disk_width - 2 in
  if graph_w >? 30 then 30 else graph_w.

(** The width that [draw_memory_section(x, y, w, h)] and
    [draw_net_section(x, y, w, h)] pass to [draw_graph]. *)
Definition left_graph_w (w : Z) : Z := w - 2.

(** ** Proof automation *)

(** Case analysis on the integer comparisons of the goal whose operands hold
    no conditional, reducing the conditionals that they decide. *)
Ltac split_comparisons :=
  repeat (cbn [orb andb negb fst snd];
          match goal with
          | |- context [?a >? ?b] => rewrite (Z.gtb_ltb a b)
          | |- context [?a <? ?b] =>
              lazymatch a with
              | context [if _ then _ else _] => fail
              | _ => lazymatch b with
                     | context [if _ then _ else _] => fail
                     | _ => destruct (Z.ltb_spec a b)
                     end
              end
          end);
  cbn [orb andb negb fst snd].

(** Replace the minimum size of a concrete flag combination by its value. *)
Ltac compute_minimum H :=
  match type of H with
  | context [calculate_minimum_size ?q] =>
      let v := eval vm_compute in (calculate_minimum_size q) in
      change (calculate_minimum_size q) with v in H
  end; cbn [fst snd] in H.

(** Evaluate the number of left panes of a concrete flag combination. *)
Ltac is_flag a := lazymatch a with 0 => idtac | 1 => idtac end.

Ltac count_left_panes :=
  repeat match goal with
    | |- context [?a + ?b + ?c] =>
        is_flag a; is_flag b; is_flag c;
        let v := eval vm_compute in (a + b + c) in
        change (a + b + c) with v
    end.

(** The 32 combinations of flags that are 0 or 1. *)
Ltac flags_cases Hv :=
  let Hc := fresh in let Hm := fresh in let Hd := fresh in
  let Hn := fresh in let Hp := fresh in
  destruct Hv as (Hc & Hm & Hd & Hn & Hp);
  destruct Hc as [-> | ->], Hm as [-> | ->], Hd as [-> | ->],
    Hn as [-> | ->], Hp as [-> | ->].

(** Projections of a state built by one of the parsers. *)
Ltac stats_fields :=
  cbn [num_cores cores overall process_count cpu_history mem_history history_index
       net_history_rx net_history_tx disks num_disks].

(** Case analysis on the files that [poll_counters] could read. *)
Ltac open_counters :=
  unfold poll_counters;
  repeat match goal with
    | |- context [parse_cpu_stats ?f] => is_var f; destruct f
    | |- context [parse_meminfo ?f] => is_var f; destruct f
    | |- context [parse_net_stats ?f] => is_var f; destruct f
    | |- context [parse_disk_stats ?f] => is_var f; destruct f
    end;
  cbn [parse_cpu_stats parse_meminfo parse_net_stats parse_disk_stats
       num_cores cores overall mem_percent net_rx_speed net_tx_speed
       cpu_history mem_history history_index net_history_rx net_history_tx
       disks num_disks].

(** * Properties *)

(** ** Arithmetic of the numeric model *)

Lemma u64_range (z : Z) : 0 ≤ u64 z < 2 ^ 64.
Proof. unfold u64. apply Z.mod_pos_bound. lia. Qed.

Lemma u64_small (z : Z) : 0 ≤ z < 2 ^ 64 → u64 z = z.
Proof. intros H. unfold u64. apply Z.mod_small. exact H. Qed.

Lemma Qgtb_true (a b : Q) : Qgtb a b = true ↔ (b < a)%Q.
Proof.
  unfold Qgtb. rewrite negb_true_iff. split.
  - intros H. apply Qnot_le_lt. intros Hle.
    apply Qle_bool_iff in Hle. congruence.
  - intros H. destruct (Qle_bool a b) eqn:E; [|reflexivity].
    apply Qle_bool_iff in E. exfalso. exact (Qlt_not_le _ _ H E).
Qed.

Lemma Qgtb_false (a b : Q) : Qgtb a b = false ↔ (a <= b)%Q.
Proof.
  unfold Qgtb. rewrite negb_false_iff. apply Qle_bool_iff.
Qed.

Lemma inject_Z_pos (z : Z) : 0 < z → (0 < inject_Z z)%Q.
Proof. intros H. change (inject_Z 0 < inject_Z z)%Q. rewrite <- Zlt_Qlt. exact H. Qed.

Lemma inject_Z_nonneg (z : Z) : 0 ≤ z → (0 <= inject_Z z)%Q.
Proof. intros H. change (inject_Z 0 <= inject_Z z)%Q. rewrite <- Zle_Qle. exact H. Qed.

(** ** CPU percent ([parse_cpu_stats]) *)

Section CpuPercent.
Variables (t : cpu_ticks) (core : CoreStat).

Lemma total_of_range : 0 ≤ total_of t < 2 ^ 64.
Proof. apply u64_range. Qed.

(** The percent that [update_core] stores, as a function of the wrapped
    differences. *)
Lemma update_core_percent :
  percent (update_core t core) =
    if 0 <? prev_total core then
      if 0 <? u64 (total_of t - prev_total core) then
        (inject_Z (u64 (u64 (total_of t - prev_total core)
                        - u64 (idle_time_of t - prev_idle core)))
         * 100 / inject_Z (u64 (total_of t - prev_total core)))%Q
      else percent core
    else percent core.
Proof. reflexivity. Qed.


(** C2, as amended. When the tick total of the new sample equals the
    recorded one ([total_diff = 0]), or no previous sample is recorded
    ([prev_total = 0]), the percent is held unchanged. *)
Theorem cpu_percent_hold :
  prev_total core = 0 ∨ total_of t = prev_total core →
  percent (update_core t core) = percent core.
Proof.
  intros H. rewrite update_core_percent.
  destruct (0 <? prev_total core) eqn:Hp; [|reflexivity].
  apply Z.ltb_lt in Hp.
  destruct H as [H|H]; [lia|].
  rewrite H, Z.sub_diag. reflexivity.
Qed.
End CpuPercent.



(** Witness of C2: two samples with the same tick total. *)
Lemma cpu_percent_hold_witness :
  percent (update_core (mkTicks 600 0 0 400 0 0 0 0)
             (mkCore 1000 400 (25 # 1) (history zero_core) 0)) = (25 # 1)%Q.
Proof.
  apply (cpu_percent_hold (mkTicks 600 0 0 400 0 0 0 0)
           (mkCore 1000 400 (25 # 1) (history zero_core) 0)).
  right. vm_compute. reflexivity.
Defined.

(** Counterexample of C2 as stated: after a counter reset the total went
    down from 1000 to 100 ([total_diff <= 0]); the unsigned difference wraps
    to a positive value and the percent, 20 before, is computed anew. *)
Lemma cpu_percent_not_held_on_reset :
  total_of (mkTicks 20 0 0 80 0 0 0 0) - 1000 ≤ 0
  ∧ ¬ (percent (update_core (mkTicks 20 0 0 80 0 0 0 0)
                  (mkCore 1000 800 (20 # 1) (history zero_core) 0)) == 20 # 1)%Q.
Proof.
  split; [vm_compute; discriminate|].
  intros H. vm_compute in H. discriminate H.
Qed.

(** ** Network rate ([parse_net_stats]) *)

Section NetRate.
Lemma net_totals_acc_range (lines : list net_line) (acc : Z * Z) :
  0 ≤ acc.1 < 2 ^ 64 → 0 ≤ acc.2 < 2 ^ 64 →
  let r := fold_left
             (λ (acc : Z * Z) (l : net_line),
                if String.eqb (iface l) "lo:" then acc
                else (u64 (acc.1 + rx_bytes l), u64 (acc.2 + tx_bytes l)))
             lines acc in
  0 ≤ r.1 < 2 ^ 64 ∧ 0 ≤ r.2 < 2 ^ 64.
Proof.
  revert acc. induction lines as [|l lines IH]; intros acc H1 H2; simpl.
  - split; assumption.
  - destruct (String.eqb (iface l) "lo:").
    + apply IH; assumption.
    + apply IH; simpl; apply u64_range.
Qed.

Lemma net_totals_range (lines : list net_line) :
  0 ≤ (net_totals lines).1 < 2 ^ 64 ∧ 0 ≤ (net_totals lines).2 < 2 ^ 64.
Proof. apply net_totals_acc_range; simpl; lia. Qed.

End NetRate.



(** ** Smoothed CPU% of a process ([parse_processes]) *)

Section SmoothedCpu.
Variables (sysconf_clk : Z) (prev_procs : list ProcessInfo.t).
Variables (cores_n : Z) (elapsed : Q) (clk total : Z) (r : stat_record).

(** The slot that the scan fills starts from [memset]: its smoothed value
    is zero when the blend reads it. *)
Lemma fill_slot_lazy_zero :
  ProcessInfo.cpu_percent_lazy (fill_slot total r) = 0%Q.
Proof. reflexivity. Qed.

(** Whatever the previous table holds for the pid, the smoothed value
    written for a process that is found is [0 * 0.7 + instant * 0.3] when
    the instant value is positive and the instant value otherwise: the
    smoothed value of the previous poll is not read. *)
Lemma process_cpu_lazy_found (prev : ProcessInfo.t) :
  List.find (λ q, ProcessInfo.pid q =? st_pid r) prev_procs = Some prev →
  let delta_total := (st_utime r - ProcessInfo.prev_utime prev)
                     + (st_stime r - ProcessInfo.prev_stime prev) in
  let cpu_raw := cpu_raw_of cores_n elapsed (clk_tck_of sysconf_clk clk) delta_total in
  ProcessInfo.cpu_percent_lazy
    (process_cpu sysconf_clk prev_procs cores_n elapsed clk
       (st_utime r) (st_stime r) (fill_slot total r)).1
  = if Qgtb cpu_raw 0 then (0 * (7 # 10) + cpu_raw * (3 # 10))%Q else cpu_raw.
Proof.
  intros Hfind. unfold process_cpu.
  change (ProcessInfo.pid (fill_slot total r)) with (st_pid r).
  rewrite Hfind. cbn [fst ProcessInfo.cpu_percent_lazy].
  rewrite fill_slot_lazy_zero.
  change (Qgtb 0 0) with false. rewrite orb_false_l. reflexivity.
Qed.
End SmoothedCpu.

(** C4, on the code. A process with pid 42 on a one-core machine, polled
    three times one second apart with 0, 100 and 200 cumulative ticks
    (100 ticks per second): the instant CPU% of the second and third polls
    is 100. The smoothed value is 30 after the second poll and 30 again
    after the third, not 0.7 * 30 + 0.3 * 100 = 51: the smoothed value of
    the previous poll does not enter the blend. *)
Theorem smoothed_cpu_not_carried :
  ∃ g1 g2 g3 p2 p3,
    poll insertion_qsort 1
      (proc_snapshot (mkTicks 10 0 0 90 0 0 0 0)
         [EntryStat (mkStat 42 "job" "R" 0 0 1000 "root" "job")])
      initial_globals = Some g1
    ∧ poll insertion_qsort 1
        (proc_snapshot (mkTicks 110 0 0 90 0 0 0 0)
           [EntryStat (mkStat 42 "job" "R" 100 0 1000 "root" "job")])
        g1 = Some g2
    ∧ poll insertion_qsort 1
        (proc_snapshot (mkTicks 210 0 0 90 0 0 0 0)
           [EntryStat (mkStat 42 "job" "R" 200 0 1000 "root" "job")])
        g2 = Some g3
    ∧ processes (g_stats g2) !! 0%nat = Some p2
    ∧ processes (g_stats g3) !! 0%nat = Some p3
    ∧ ProcessInfo.pid p2 = 42 ∧ ProcessInfo.pid p3 = 42
    ∧ (ProcessInfo.cpu_percent p2 == 100)%Q
    ∧ (ProcessInfo.cpu_percent_lazy p2 == 30)%Q
    ∧ (ProcessInfo.cpu_percent p3 == 100)%Q
    ∧ (ProcessInfo.cpu_percent_lazy p3 == 30)%Q
    ∧ ¬ (ProcessInfo.cpu_percent_lazy p3 ==
           ProcessInfo.cpu_percent_lazy p2 * (7 # 10)
           + ProcessInfo.cpu_percent p3 * (3 # 10))%Q.
Proof.
  do 5 eexists.
  split; [vm_compute; reflexivity|].
  split; [vm_compute; reflexivity|].
  split; [vm_compute; reflexivity|].
  split; [vm_compute; reflexivity|].
  split; [vm_compute; reflexivity|].
  repeat split; try (vm_compute; reflexivity).
  intros H. vm_compute in H. discriminate H.
Qed.

(** ** Ordering of processes ([compare_processes]) *)

Section Comparator.
Variables (mode : Z) (pa pb : ProcessInfo.t).

(** In the four modes other than the name mode, two processes whose
    primary keys are equal are ordered by ascending pid. *)
Lemma compare_processes_tie_cpu_direct :
  mode = SORT_CPU_DIRECT →
  (ProcessInfo.cpu_percent pa == ProcessInfo.cpu_percent pb)%Q →
  compare_processes mode pa pb = pid_order pa pb.
Proof.
  intros -> Heq. unfold compare_processes. cbn [Z.eqb SORT_CPU_DIRECT Pos.eqb].
  replace (Qgtb (ProcessInfo.cpu_percent pb) (ProcessInfo.cpu_percent pa)) with false
    by (symmetry; apply Qgtb_false; rewrite Heq; apply Qle_refl).
  replace (Qgtb (ProcessInfo.cpu_percent pa) (ProcessInfo.cpu_percent pb)) with false
    by (symmetry; apply Qgtb_false; rewrite Heq; apply Qle_refl).
  reflexivity.
Qed.

Lemma compare_processes_tie_cpu_lazy :
  mode = SORT_CPU_LAZY →
  (ProcessInfo.cpu_percent_lazy pa == ProcessInfo.cpu_percent_lazy pb)%Q →
  compare_processes mode pa pb = pid_order pa pb.
Proof.
  intros -> Heq. unfold compare_processes. cbn [Z.eqb SORT_CPU_DIRECT SORT_CPU_LAZY].
  replace (Qgtb (ProcessInfo.cpu_percent_lazy pb) (ProcessInfo.cpu_percent_lazy pa))
    with false by (symmetry; apply Qgtb_false; rewrite Heq; apply Qle_refl).
  replace (Qgtb (ProcessInfo.cpu_percent_lazy pa) (ProcessInfo.cpu_percent_lazy pb))
    with false by (symmetry; apply Qgtb_false; rewrite Heq; apply Qle_refl).
  reflexivity.
Qed.

Lemma compare_processes_tie_mem :
  mode = SORT_MEM →
  ProcessInfo.mem_rss pa = ProcessInfo.mem_rss pb →
  compare_processes mode pa pb = pid_order pa pb.
Proof.
  intros -> Heq. unfold compare_processes. cbn [Z.eqb SORT_CPU_DIRECT SORT_CPU_LAZY SORT_MEM Pos.eqb].
  rewrite Heq.
  rewrite Z.gtb_ltb, Z.ltb_irrefl. reflexivity.
Qed.

Lemma compare_processes_pid :
  mode = SORT_PID → compare_processes mode pa pb = pid_order pa pb.
Proof.
  intros ->. unfold compare_processes, pid_order.
  cbn [Z.eqb SORT_CPU_DIRECT SORT_CPU_LAZY SORT_MEM SORT_PID Pos.eqb].
  destruct (ProcessInfo.pid pa >? ProcessInfo.pid pb); [reflexivity|].
  destruct (ProcessInfo.pid pa <? ProcessInfo.pid pb); reflexivity.
Qed.

(** In the name mode the result is that of [strcasecmp] alone: the code
    after the switch is not reached. *)
Lemma compare_processes_name :
  mode = SORT_NAME →
  compare_processes mode pa pb = strcasecmp (ProcessInfo.name pa) (ProcessInfo.name pb).
Proof. intros ->. reflexivity. Qed.
End Comparator.

(** C5, on the code. In the name mode two processes named "bash" and "Bash"
    (equal keys for a case-insensitive comparison) with pids 2 and 1 compare
    as equal in both directions; an ascending-pid tie-break gives 1 and -1
    (what the code after the switch computes). A sort that keeps equal
    elements in their input order leaves pid 2 before pid 1. *)
Theorem name_mode_has_no_pid_tie_break :
  compare_processes SORT_NAME
    (ProcessInfo.mk 2 "bash" "" "" "S" 0 0 0 0 0 0)
    (ProcessInfo.mk 1 "Bash" "" "" "S" 0 0 0 0 0 0) = 0
  ∧ compare_processes SORT_NAME
      (ProcessInfo.mk 1 "Bash" "" "" "S" 0 0 0 0 0 0)
      (ProcessInfo.mk 2 "bash" "" "" "S" 0 0 0 0 0 0) = 0
  ∧ pid_order
      (ProcessInfo.mk 2 "bash" "" "" "S" 0 0 0 0 0 0)
      (ProcessInfo.mk 1 "Bash" "" "" "S" 0 0 0 0 0 0) = 1
  ∧ ProcessInfo.pid <$>
      insertion_qsort (compare_processes SORT_NAME)
        [ProcessInfo.mk 2 "bash" "" "" "S" 0 0 0 0 0 0;
         ProcessInfo.mk 1 "Bash" "" "" "S" 0 0 0 0 0 0] = [2; 1].
Proof. repeat split; vm_compute; reflexivity. Qed.

(** ** History rings ([ring_write], [draw_graph]) *)

Section Ring.
Context {A : Type}.
Variable N : Z.
Hypothesis N_pos : 0 < N.

Lemma ring_cursor_distinct (a j : Z) :
  1 ≤ j < N → (a - j) mod N ≠ a mod N.
Proof.
  intros Hj Heq.
  assert (H0 : (a - (a - j)) mod N = 0).
  { rewrite Zminus_mod, Heq, Z.sub_diag. apply Z.mod_0_l. lia. }
  replace (a - (a - j)) with j in H0 by lia.
  rewrite Z.mod_small in H0; lia.
Qed.

(** The ring after a sequence of writes: the cursor has advanced by the
    number of writes modulo [N], and the [j]-th cell behind the cursor
    holds the [j]-th most recent value, for every [j] below [N] and below
    the number of writes. *)
Lemma ring_writes_state (vs : list A) (buf : list A) (cursor : Z) :
  length buf = Z.to_nat N → 0 ≤ cursor < N →
  let ring' := fold_left (ring_write N) vs (buf, cursor) in
  ring'.2 = (cursor + Z.of_nat (length vs)) mod N
  ∧ length ring'.1 = Z.to_nat N
  ∧ ∀ j : nat, (j < length vs)%nat → Z.of_nat j < N →
      ring'.1 !! Z.to_nat ((cursor + Z.of_nat (length vs) - 1 - Z.of_nat j) mod N)
      = vs !! (length vs - 1 - j)%nat.
Proof.
  intros Hlen Hc. induction vs as [|v vs' IH] using rev_ind.
  - simpl. split; [|split].
    + rewrite Z.add_0_r, Z.mod_small; lia.
    + exact Hlen.
    + intros j Hj. simpl in Hj. lia.
  - rewrite fold_left_app. simpl.
    destruct IH as (IHc & IHl & IHv).
    set (ring1 := fold_left (ring_write N) vs' (buf, cursor)) in *.
    pose proof (Z.mod_pos_bound (cursor + Z.of_nat (length vs')) N N_pos) as Hb.
    rewrite length_app. simpl length.
    unfold ring_write. simpl fst. simpl snd.
    split; [|split].
    + rewrite IHc. rewrite Z.rem_mod_nonneg by lia.
      rewrite Zplus_mod_idemp_l. f_equal. lia.
    + rewrite length_insert. exact IHl.
    + intros j Hj HjN.
      destruct j as [|j'].
      * replace (cursor + Z.of_nat (length vs' + 1) - 1 - Z.of_nat 0)
          with (cursor + Z.of_nat (length vs')) by lia.
        rewrite <- IHc.
        rewrite list_lookup_insert_eq by (rewrite IHl; lia).
        replace (length vs' + 1 - 1 - 0)%nat with (length vs') by lia.
        symmetry. apply list_lookup_middle. reflexivity.
      * rewrite list_lookup_insert_ne.
        2:{ rewrite IHc. intros E. apply Z2Nat.inj in E.
            - symmetry in E. revert E.
              replace (cursor + Z.of_nat (length vs' + 1) - 1 - Z.of_nat (S j'))
                with (cursor + Z.of_nat (length vs') - Z.of_nat (S j')) by lia.
              apply ring_cursor_distinct. lia.
            - lia.
            - apply Z.mod_pos_bound. lia. }
        replace (cursor + Z.of_nat (length vs' + 1) - 1 - Z.of_nat (S j'))
          with (cursor + Z.of_nat (length vs') - 1 - Z.of_nat j') by lia.
        rewrite IHv by lia.
        replace (length vs' + 1 - 1 - S j')%nat with (length vs' - 1 - j')%nat by lia.
        symmetry. apply lookup_app_l. lia.
Qed.

(** The index that the column loop reads, for a cursor in range and a
    width of at most [N]. *)
Lemma graph_index_mod (w idx col : Z) :
  0 ≤ idx < N → 0 ≤ w ≤ N → 0 ≤ col →
  graph_index N w idx col = (idx - w + col) mod N.
Proof.
  intros Hi Hw Hc. unfold graph_index.
  rewrite (Z.rem_mod_nonneg (idx - w + N)) by lia.
  pose proof (Z.mod_pos_bound (idx - w + N) N N_pos).
  rewrite Z.rem_mod_nonneg by lia.
  rewrite Zplus_mod_idemp_l.
  replace (idx - w + N + col) with (idx - w + col + 1 * N) by lia.
  apply Z.mod_add. lia.
Qed.

(** C6. For a ring of capacity [N], after [N + k] writes ([k >= 0]) the
    forward read of [W <= N] cells from the offset
    [(cursor - W + N) mod N], with wrap-around, yields the last [W]
    written values, oldest first. *)
Theorem ring_read_last_writes (buf vs : list A) (cursor W : Z) :
  length buf = Z.to_nat N → 0 ≤ cursor < N →
  N ≤ Z.of_nat (length vs) →
  0 ≤ W ≤ N →
  ring_read N W (fold_left (ring_write N) vs (buf, cursor)).1
                (fold_left (ring_write N) vs (buf, cursor)).2
  = Some <$> drop (length vs - Z.to_nat W) vs.
Proof.
  intros Hlen Hc Hvs HW.
  destruct (ring_writes_state vs buf cursor Hlen Hc) as (Ec & El & Ev).
  set (ring' := fold_left (ring_write N) vs (buf, cursor)) in *.
  pose proof (Z.mod_pos_bound (cursor + Z.of_nat (length vs)) N N_pos) as Hb.
  apply list_eq. intros i.
  unfold ring_read. rewrite !list_lookup_fmap, lookup_drop.
  replace (Z.min W N) with W by lia.
  destruct (decide (Z.of_nat i < W)) as [Hi|Hi].
  - rewrite lookup_seqZ_lt by exact Hi. simpl.
    rewrite graph_index_mod by lia.
    rewrite Ec.
    replace ((cursor + Z.of_nat (length vs)) mod N - W + (0 + Z.of_nat i))
      with ((cursor + Z.of_nat (length vs)) mod N + (Z.of_nat i - W)) by lia.
    rewrite Zplus_mod_idemp_l.
    replace (cursor + Z.of_nat (length vs) + (Z.of_nat i - W))
      with (cursor + Z.of_nat (length vs) - W + (0 + Z.of_nat i)) by lia.
    replace (cursor + Z.of_nat (length vs) - W + (0 + Z.of_nat i))
      with (cursor + Z.of_nat (length vs) - 1 - Z.of_nat (Z.to_nat W - 1 - i)) by lia.
    rewrite Ev by lia.
    replace (length vs - 1 - (Z.to_nat W - 1 - i))%nat
      with (length vs - Z.to_nat W + i)%nat by lia.
    destruct (lookup_lt_is_Some_2 vs (length vs - Z.to_nat W + i)%nat) as [x Hx]; [lia|].
    rewrite Hx. reflexivity.
  - rewrite lookup_seqZ_ge by lia. simpl.
    rewrite lookup_ge_None_2 by lia. reflexivity.
Qed.
End Ring.

(** Witness of C6: a ring of three cells written five times from cursor 1
    and read back with width 2. *)
Lemma ring_read_last_writes_witness :
  ring_read 3 2 (fold_left (ring_write 3) [10; 20; 30; 40; 50] ([0; 0; 0], 1)).1
                (fold_left (ring_write 3) [10; 20; 30; 40; 50] ([0; 0; 0], 1)).2
  = [Some 40; Some 50].
Proof.
  apply (ring_read_last_writes 3 ltac:(lia) [0; 0; 0] [10; 20; 30; 40; 50] 1 2);
    simpl; lia.
Defined.

(** The history of a core: [update_core] is a write into the ring of
    capacity [HISTORY_SIZE] of the core, and [draw_graph] called with that
    history and its cursor reads the last [w] percents. *)
Lemma update_core_ring (t : cpu_ticks) (core : CoreStat) :
  (history (update_core t core), history_idx (update_core t core))
  = ring_write HISTORY_SIZE (history core, history_idx core)
      (percent (update_core t core)).
Proof. reflexivity. Qed.

Lemma update_core_trace (ts : list cpu_ticks) (core : CoreStat) :
  (history (fold_left (λ c t, update_core t c) ts core),
   history_idx (fold_left (λ c t, update_core t c) ts core))
  = fold_left (ring_write HISTORY_SIZE) (percent_trace ts core)
      (history core, history_idx core).
Proof.
  revert core. induction ts as [|t ts IH]; intros core; [reflexivity|].
  cbn [fold_left percent_trace]. rewrite IH, update_core_ring. reflexivity.
Qed.

Lemma length_percent_trace (ts : list cpu_ticks) (core : CoreStat) :
  length (percent_trace ts core) = length ts.
Proof.
  revert core. induction ts as [|t ts IH]; intros core; [reflexivity|].
  cbn [percent_trace length]. rewrite IH. reflexivity.
Qed.

(** What the graph of a core shows: after at least [HISTORY_SIZE] samples,
    [draw_graph] called with the history of the core, its cursor and a
    width [w] of at most [HISTORY_SIZE] reads the last [w] percents, oldest
    first. *)
Corollary draw_graph_last_percents (ts : list cpu_ticks) (core : CoreStat) (w : Z) :
  length (history core) = Z.to_nat HISTORY_SIZE →
  0 ≤ history_idx core < HISTORY_SIZE →
  HISTORY_SIZE ≤ Z.of_nat (length ts) →
  0 ≤ w ≤ HISTORY_SIZE →
  draw_graph_reads w (history (fold_left (λ c t, update_core t c) ts core))
                     (history_idx (fold_left (λ c t, update_core t c) ts core))
  = Some <$> drop (length ts - Z.to_nat w) (percent_trace ts core).
Proof.
  intros Hlen Hidx Hts Hw. unfold draw_graph_reads.
  pose proof (update_core_trace ts core) as E.
  apply (f_equal fst) in E as E1. apply (f_equal snd) in E as E2.
  cbn [fst snd] in E1, E2. rewrite E1, E2.
  rewrite <- (length_percent_trace ts core).
  apply ring_read_last_writes; try assumption.
  - reflexivity.
  - rewrite length_percent_trace. exact Hts.
Qed.

(** ** Minimum size of the terminal ([calculate_minimum_size], [draw_screen]) *)

Section MinimumSize.
Variable p : Panes.

(** Below the minimum in a dimension, [draw_screen] draws the diagnostic
    screen with the computed minimum, and no pane. *)
Lemma draw_screen_small (w h : Z) :
  w < (calculate_minimum_size p).1 ∨ h < (calculate_minimum_size p).2 →
  draw_screen p w h =
    TooSmall w h (calculate_minimum_size p).1 (calculate_minimum_size p).2.
Proof.
  intros H. unfold draw_screen, draw_error_screen.
  destruct (calculate_minimum_size p) as [mw mh]. simpl in *.
  destruct (orb_true_iff (w <? mw) (h <? mh)) as [_ Hor].
  rewrite Hor; [reflexivity|].
  destruct H as [H|H]; [left|right]; apply Z.ltb_lt; exact H.
Qed.

(** At or above the minimum in both dimensions, [draw_screen] draws
    panes. *)
Lemma draw_screen_large (w h : Z) :
  (calculate_minimum_size p).1 ≤ w → (calculate_minimum_size p).2 ≤ h →
  ∃ regions, draw_screen p w h = Layout regions.
Proof.
  intros Hw Hh. unfold draw_screen.
  destruct (calculate_minimum_size p) as [mw mh]. simpl in *.
  replace (w <? mw) with false by (symmetry; apply Z.ltb_ge; exact Hw).
  replace (h <? mh) with false by (symmetry; apply Z.ltb_ge; exact Hh).
  simpl.
  destruct (split_heights p (h - 1 - 1)) as [ch bh].
  destruct (split_widths p w) as [lw pw].
  eexists. reflexivity.
Qed.

(** The minimum is at least 80 columns and 10 rows. *)
Lemma calculate_minimum_size_floor :
  80 ≤ (calculate_minimum_size p).1 ∧ 10 ≤ (calculate_minimum_size p).2.
Proof.
  unfold calculate_minimum_size. cbn [fst snd]. split.
  - destruct (_ && (_ >? 80)) eqn:E; [|lia].
    apply andb_true_iff in E. destruct E as [_ E].
    apply Z.gtb_lt in E. lia.
  - match goal with |- context [if ?c <? 10 then _ else _] =>
      destruct (Z.ltb_spec c 10) end; lia.
Qed.
End MinimumSize.

Section Regions.
Variables (p : Panes) (w h : Z).
Hypothesis Hvalid : valid_panes p.
Hypothesis Hw : (calculate_minimum_size p).1 ≤ w.
Hypothesis Hh : (calculate_minimum_size p).2 ≤ h.

(** The vertical split: the two heights add up to the rows between the
    bars; a CPU pane that is on gets at least five rows; the bottom
    section gets at least four rows for each left pane that is on and at
    least six rows when any bottom pane is on. *)
Lemma split_heights_spec :
  (split_heights p (h - 1 - 1)).1 + (split_heights p (h - 1 - 1)).2 = h - 2
  ∧ (if truthy (g_show_cpu p) then 5 ≤ (split_heights p (h - 1 - 1)).1
     else (split_heights p (h - 1 - 1)).1 = 0)
  ∧ 4 * (g_show_mem p + g_show_disks p + g_show_net p) ≤ (split_heights p (h - 1 - 1)).2
  ∧ 3 ≤ (split_heights p (h - 1 - 1)).2.
Proof.
  clear Hw. revert Hh Hvalid. destruct p as [c m d n pr].
  unfold valid_panes, flag. cbn [g_show_cpu g_show_mem g_show_disks g_show_net g_show_proc].
  intros Hh Hv. flags_cases Hv; compute_minimum Hh;
    unfold split_heights, cpu_height_of;
    cbn [g_show_cpu g_show_mem g_show_disks g_show_net g_show_proc truthy Z.eqb
         negb orb andb Z.add Pos.add Pos.succ];
    split_comparisons;
    cbn [fst snd]; try (Z.to_euclidean_division_equations; lia).
Qed.

(** The horizontal split. *)
Lemma split_widths_spec :
  (0 < g_show_mem p + g_show_disks p + g_show_net p → 18 ≤ (split_widths p w).1)
  ∧ (truthy (g_show_proc p) = true → 40 ≤ (split_widths p w).2)
  ∧ (0 < g_show_mem p + g_show_disks p + g_show_net p →
     truthy (g_show_proc p) = true →
     (split_widths p w).1 + 2 + (split_widths p w).2 = w - 1)
  ∧ (split_widths p w).1 ≤ w - 2 ∧ (split_widths p w).2 ≤ w - 2.
Proof.
  clear Hh. revert Hw Hvalid. destruct p as [c m d n pr].
  unfold valid_panes, flag. cbn [g_show_cpu g_show_mem g_show_disks g_show_net g_show_proc].
  intros Hw Hv. flags_cases Hv; compute_minimum Hw;
    unfold split_widths;
    cbn [g_show_cpu g_show_mem g_show_disks g_show_net g_show_proc];
    count_left_panes;
    cbn [truthy Z.eqb negb orb andb Z.gtb Z.compare];
    split_comparisons;
    repeat split; intros;
    try discriminate; try (Z.to_euclidean_division_equations; lia).
Qed.
End Regions.

(** The stacked left panes, for a bottom section with at least four rows for
    each left pane that is on: each of them is drawn, memory first, then
    disk, then network, and the regions stay inside the bottom section. *)
Lemma left_regions_spec (p : Panes) (bottom_y bottom_height left_width : Z) :
  valid_panes p →
  0 < left_width → 0 < bottom_height →
  4 * (g_show_mem p + g_show_disks p + g_show_net p) ≤ bottom_height →
  r_pane <$> left_regions p bottom_y bottom_height left_width
  = (if truthy (g_show_mem p) then [PaneMem] else [])
    ++ (if truthy (g_show_disks p) then [PaneDisk] else [])
    ++ (if truthy (g_show_net p) then [PaneNet] else [])
  ∧ Forall (λ r, r_x r = 1 ∧ r_w r = left_width ∧ bottom_y ≤ r_y r
                 ∧ r_y r + r_h r ≤ bottom_y + bottom_height ∧ 0 < r_h r)
      (left_regions p bottom_y bottom_height left_width).
Proof.
  destruct p as [c m d n pr].
  unfold valid_panes, flag.
  cbn [g_show_cpu g_show_mem g_show_disks g_show_net g_show_proc].
  intros Hv Hlw Hbh Hfit. unfold left_regions.
  cbn [g_show_cpu g_show_mem g_show_disks g_show_net g_show_proc].
  flags_cases Hv; revert Hfit; count_left_panes; intros Hfit;
    cbn [truthy Z.eqb negb orb andb Z.gtb Z.compare app];
    split_comparisons; cbn [app fmap list_fmap r_pane];
    try (exfalso; Z.to_euclidean_division_equations; lia);
    (split; [reflexivity|]);
    repeat constructor; cbn [r_x r_y r_w r_h];
    try (Z.to_euclidean_division_equations; lia).
Qed.

(** On a terminal at or above the minimum, with flags that are 0 or 1,
    every pane that is switched on is drawn once, in the order CPU, memory,
    disk, network, processes, and every region lies on the terminal between
    the top bar and the help bar. *)
Lemma draw_screen_regions (p : Panes) (w h : Z) :
  valid_panes p →
  (calculate_minimum_size p).1 ≤ w → (calculate_minimum_size p).2 ≤ h →
  ∃ regions,
    draw_screen p w h = Layout regions
    ∧ r_pane <$> regions = shown_panes p
    ∧ Forall (region_on_screen w h) regions.
Proof.
  intros Hv Hw Hh.
  pose proof (split_heights_spec p h Hv Hh) as (Hsum & Hcpu & Hleft & Hbot).
  pose proof (split_widths_spec p w Hv Hw) as (Hlw & Hpw & Hrow & Hlw2 & Hpw2).
  pose proof (calculate_minimum_size_floor p) as [F1 F2].
  unfold draw_screen.
  destruct (calculate_minimum_size p) as [mw mh]. cbn [fst snd] in Hw, Hh.
  replace (w <? mw) with false by (symmetry; apply Z.ltb_ge; exact Hw).
  replace (h <? mh) with false by (symmetry; apply Z.ltb_ge; exact Hh).
  cbn [orb].
  destruct (split_heights p (h - 1 - 1)) as [ch bh].
  destruct (split_widths p w) as [lw pw].
  cbn [fst snd] in *.
  eexists. split; [reflexivity|].
  assert (Hby : (if truthy (g_show_cpu p) && (ch >? 0) then 1 + ch else 1) = 1 + ch).
  { destruct (truthy (g_show_cpu p)); cbn [andb]; [|lia].
    destruct (Z.gtb_spec ch 0); [reflexivity|lia]. }
  rewrite Hby.
  assert (Hleft_regions :
    r_pane <$> left_regions p (1 + ch) bh lw
    = (if truthy (g_show_mem p) then [PaneMem] else [])
      ++ (if truthy (g_show_disks p) then [PaneDisk] else [])
      ++ (if truthy (g_show_net p) then [PaneNet] else [])
    ∧ Forall (region_on_screen w h) (left_regions p (1 + ch) bh lw)).
  { destruct (Z.ltb_spec 0 (g_show_mem p + g_show_disks p + g_show_net p)) as [Hpos|Hnone].
    - destruct (left_regions_spec p (1 + ch) bh lw Hv) as [E F]; [lia..|].
      split; [exact E|].
      eapply Forall_impl; [exact F|].
      intros r (Hx & Hrw & Hy & Hyh & Hrh). unfold region_on_screen.
      destruct (truthy (g_show_cpu p)); lia.
    - destruct p as [c m d n pr]. unfold valid_panes, flag in Hv.
      cbn [g_show_cpu g_show_mem g_show_disks g_show_net g_show_proc] in *.
      destruct Hv as (_ & [-> | ->] & [-> | ->] & [-> | ->] & _);
        try (exfalso; lia).
      split; [reflexivity|]. constructor. }
  destruct Hleft_regions as [Eleft Fleft].
  split.
  - rewrite !fmap_app, Eleft. unfold shown_panes.
    f_equal.
    { destruct (truthy (g_show_cpu p)); cbn [andb]; [|reflexivity].
      replace (ch >? 0) with true by (symmetry; apply Z.gtb_lt; lia). reflexivity. }
    rewrite <- !app_assoc. do 3 f_equal.
    destruct (truthy (g_show_proc p)); cbn [andb]; [|reflexivity].
    replace (pw >? 0) with true by (symmetry; apply Z.gtb_lt; lia). reflexivity.
  - rewrite !Forall_app. split; [|split].
    + destruct (truthy (g_show_cpu p) && (ch >? 0)) eqn:E; [|constructor].
      apply andb_true_iff in E. destruct E as [E1 E2]. rewrite E1 in Hcpu.
      repeat constructor; cbn [r_x r_y r_w r_h]; lia.
    + exact Fleft.
    + destruct (truthy (g_show_proc p) && (pw >? 0)) eqn:E; [|constructor].
      apply andb_true_iff in E. destruct E as [E1 E2].
      specialize (Hpw E1).
      destruct (Z.ltb_spec 0 (g_show_mem p + g_show_disks p + g_show_net p)) as [Hpos|Hnone].
      * specialize (Hlw Hpos). specialize (Hrow Hpos E1).
        replace (g_show_mem p + g_show_disks p + g_show_net p >? 0) with true
          by (symmetry; apply Z.gtb_lt; lia).
        repeat constructor; cbn [r_x r_y r_w r_h];
          destruct (truthy (g_show_cpu p)); lia.
      * replace (g_show_mem p + g_show_disks p + g_show_net p >? 0) with false
          by (symmetry; rewrite Z.gtb_ltb; apply Z.ltb_ge; lia).
        repeat constructor; cbn [r_x r_y r_w r_h];
          destruct (truthy (g_show_cpu p)); lia.
Qed.

(** C7. For every terminal size and every combination of the five pane
    flags: [draw_screen] draws the diagnostic screen with the computed
    minimum, and no pane, exactly when the terminal is smaller than the
    computed minimum in one dimension at least; on a terminal of exactly
    the minimum size it draws one region for each pane that is on, all of
    them on the terminal; with one column or one row less it draws the
    diagnostic screen. *)
Theorem layout_minimum_size (p : Panes) (w h : Z) :
  valid_panes p →
  (draw_screen p w h
   = TooSmall w h (calculate_minimum_size p).1 (calculate_minimum_size p).2
   ↔ w < (calculate_minimum_size p).1 ∨ h < (calculate_minimum_size p).2)
  ∧ ((calculate_minimum_size p).1 ≤ w ∧ (calculate_minimum_size p).2 ≤ h →
     ∃ regions,
       draw_screen p w h = Layout regions
       ∧ r_pane <$> regions = shown_panes p
       ∧ Forall (region_on_screen w h) regions)
  ∧ (∃ regions,
       draw_screen p (calculate_minimum_size p).1 (calculate_minimum_size p).2
       = Layout regions
       ∧ r_pane <$> regions = shown_panes p
       ∧ Forall (region_on_screen (calculate_minimum_size p).1
                                  (calculate_minimum_size p).2) regions)
  ∧ draw_screen p ((calculate_minimum_size p).1 - 1) (calculate_minimum_size p).2
    = TooSmall ((calculate_minimum_size p).1 - 1) (calculate_minimum_size p).2
        (calculate_minimum_size p).1 (calculate_minimum_size p).2
  ∧ draw_screen p (calculate_minimum_size p).1 ((calculate_minimum_size p).2 - 1)
    = TooSmall (calculate_minimum_size p).1 ((calculate_minimum_size p).2 - 1)
        (calculate_minimum_size p).1 (calculate_minimum_size p).2.
Proof.
  intros Hv. split; [|split; [|split; [|split]]].
  - split.
    + intros E.
      destruct (Z.lt_ge_cases w (calculate_minimum_size p).1) as [Hw|Hw]; [left; exact Hw|].
      destruct (Z.lt_ge_cases h (calculate_minimum_size p).2) as [Hh|Hh]; [right; exact Hh|].
      destruct (draw_screen_large p w h Hw Hh) as [rs Hrs].
      rewrite Hrs in E. discriminate E.
    + apply draw_screen_small.
  - intros [Hw Hh]. apply draw_screen_regions; assumption.
  - apply draw_screen_regions; [exact Hv|lia|lia].
  - apply draw_screen_small. left. lia.
  - apply draw_screen_small. right. lia.
Qed.

(** Witness of C7: the five panes on. The computed minimum is 80 columns by
    19 rows. *)
Lemma layout_minimum_size_witness :
  calculate_minimum_size (mkPanes 1 1 1 1 1) = (80, 19)
  ∧ draw_screen (mkPanes 1 1 1 1 1) 80 19
    = Layout [mkRegion PaneCpu 1 1 78 5; mkRegion PaneMem 1 6 26 4;
              mkRegion PaneDisk 1 10 26 4; mkRegion PaneNet 1 14 26 4;
              mkRegion PaneProc 28 6 51 12]
  ∧ draw_screen (mkPanes 1 1 1 1 1) 79 19 = TooSmall 79 19 80 19
  ∧ draw_screen (mkPanes 1 1 1 1 1) 80 18 = TooSmall 80 18 80 19.
Proof.
  destruct (layout_minimum_size (mkPanes 1 1 1 1 1) 80 19) as (_ & _ & _ & H1 & H2).
  - unfold valid_panes, flag. simpl. intuition lia.
  - change (draw_screen (mkPanes 1 1 1 1 1) 79 19 = TooSmall 79 19 80 19) in H1.
    change (draw_screen (mkPanes 1 1 1 1 1) 80 18 = TooSmall 80 18 80 19) in H2.
    split; [reflexivity|]. split; [reflexivity|]. split; [exact H1|exact H2].
Defined.

(** ** The process table ([parse_processes]) *)

Lemma processes_only_refl (s : SystemStats) : processes_only s s.
Proof. destruct s. reflexivity. Qed.

Lemma processes_only_trans (s1 s2 s3 : SystemStats) :
  processes_only s1 s2 → processes_only s2 s3 → processes_only s1 s3.
Proof.
  unfold processes_only. intros H12 H23. rewrite H23 at 1. rewrite H12. reflexivity.
Qed.

Lemma processes_only_with (s : SystemStats) (c r : Z) (t : list ProcessInfo.t) :
  processes_only s (with_processes s c r t).
Proof. reflexivity. Qed.

Lemma store_in_bounds {A : Type} (cap i : Z) (v : A) (table : list A) :
  0 ≤ i < cap → store cap i v table = Some (<[Z.to_nat i := v]> table).
Proof.
  intros H. unfold store.
  replace (0 <=? i) with true by (symmetry; apply Z.leb_le; lia).
  replace (i <? cap) with true by (symmetry; apply Z.ltb_lt; lia).
  reflexivity.
Qed.

Section Scan.
Variables (clk : Z) (prev_procs : list ProcessInfo.t).

(** One iteration of the scan on a table that is not full: the slot
    written is inside the table, and the count goes up by one at most. *)
Lemma scan_entry_ok (e : dirent) (g : Globals) :
  0 ≤ process_count (g_stats g) < MAX_PROCESSES →
  ∃ g', scan_entry clk prev_procs e g = Some g'
        ∧ processes_only (g_stats g) (g_stats g')
        ∧ process_count (g_stats g) ≤ process_count (g_stats g')
          ≤ process_count (g_stats g) + 1
        ∧ g_sort_mode g' = g_sort_mode g
        ∧ g_elapsed_seconds g' = g_elapsed_seconds g.
Proof.
  intros Hc. unfold scan_entry. destruct e as [| | |pid|r].
  - exists g. repeat split; try lia. apply processes_only_refl.
  - exists g. repeat split; try lia. apply processes_only_refl.
  - rewrite store_in_bounds by exact Hc. cbn [mbind option_bind].
    eexists. split; [reflexivity|]. cbn [g_stats g_sort_mode g_elapsed_seconds].
    repeat split; cbn [process_count with_processes]; lia.
  - rewrite store_in_bounds by exact Hc. cbn [mbind option_bind].
    eexists. split; [reflexivity|]. cbn [g_stats g_sort_mode g_elapsed_seconds].
    repeat split; cbn [process_count with_processes]; lia.
  - destruct (process_cpu _ _ _ _ _ _ _ _) as [proc clk'].
    rewrite store_in_bounds by exact Hc. cbn [mbind option_bind].
    eexists. split; [reflexivity|]. cbn [g_stats g_sort_mode g_elapsed_seconds].
    repeat split; cbn [process_count with_processes]; lia.
Qed.

(** The scan loop never writes outside the table and leaves at most
    [MAX_PROCESSES] entries. *)
Lemma scan_loop_ok (entries : list dirent) (g : Globals) :
  0 ≤ process_count (g_stats g) ≤ MAX_PROCESSES →
  ∃ g', scan_loop clk prev_procs entries g = Some g'
        ∧ processes_only (g_stats g) (g_stats g')
        ∧ process_count (g_stats g) ≤ process_count (g_stats g') ≤ MAX_PROCESSES
        ∧ g_sort_mode g' = g_sort_mode g
        ∧ g_elapsed_seconds g' = g_elapsed_seconds g.
Proof.
  revert g. induction entries as [|e rest IH]; intros g Hc; simpl.
  - exists g. repeat split; try lia. apply processes_only_refl.
  - destruct (Z.ltb_spec (process_count (g_stats g)) MAX_PROCESSES) as [Hlt|Hge].
    + destruct (scan_entry_ok e g) as (g1 & E1 & F1 & C1 & M1 & L1); [lia|].
      rewrite E1. cbn [mbind option_bind].
      destruct (IH g1) as (g2 & E2 & F2 & C2 & M2 & L2); [lia|].
      exists g2. split; [exact E2|].
      split; [eapply processes_only_trans; eassumption|].
      split; [lia|]. split; congruence.
    + exists g. repeat split; try lia. apply processes_only_refl.
Qed.

(** Once the table is full the scan admits nothing more: the remaining
    entries of the directory are dropped. *)
Lemma scan_loop_full (entries : list dirent) (g : Globals) :
  process_count (g_stats g) = MAX_PROCESSES →
  scan_loop clk prev_procs entries g = Some g.
Proof.
  intros Hfull. destruct entries as [|e rest]; [reflexivity|]. simpl.
  rewrite Hfull. reflexivity.
Qed.
End Scan.

Lemma parse_processes_ok (qsort : sorter) (clk : Z) (dir : option (list dirent))
    (g : Globals) :
  0 ≤ process_count (g_stats g) ≤ MAX_PROCESSES →
  ∃ g', parse_processes qsort clk dir g = Some g'
        ∧ processes_only (g_stats g) (g_stats g')
        ∧ 0 ≤ process_count (g_stats g') ≤ MAX_PROCESSES
        ∧ g_sort_mode g' = g_sort_mode g
        ∧ g_elapsed_seconds g' = g_elapsed_seconds g.
Proof.
  intros Hc. unfold parse_processes. destruct dir as [entries|].
  - replace (0 <=? process_count (g_stats g)) with true by (symmetry; apply Z.leb_le; lia).
    replace (process_count (g_stats g) <=? MAX_PROCESSES) with true
      by (symmetry; apply Z.leb_le; lia).
    cbn [andb].
    match goal with |- context [scan_loop ?c ?pp ?es ?g0] =>
      destruct (scan_loop_ok c pp es g0) as (g1 & E1 & F1 & C1 & M1 & L1)
    end.
    { cbn. unfold MAX_PROCESSES. lia. }
    rewrite E1. cbn [mbind option_bind].
    eexists. split; [reflexivity|].
    cbn [g_stats g_sort_mode g_elapsed_seconds] in *.
    split; [|split; [|split; assumption]].
    + eapply processes_only_trans; [|apply processes_only_with].
      eapply processes_only_trans; [|exact F1]. apply processes_only_with.
    + cbn [process_count with_processes] in *. lia.
  - exists g. repeat split; try lia; try reflexivity. apply processes_only_refl.
Qed.

(** ** History cursors ([update_stats], [parse_cpu_stats]) *)

Lemma advance_range (cursor : Z) :
  0 ≤ cursor < HISTORY_SIZE → 0 ≤ advance cursor < HISTORY_SIZE.
Proof.
  intros H. unfold advance. rewrite Z.rem_mod_nonneg by (unfold HISTORY_SIZE in *; lia).
  apply Z.mod_pos_bound. reflexivity.
Qed.

Lemma advance_mod (cursor : Z) :
  0 ≤ cursor → advance cursor = (cursor + 1) mod HISTORY_SIZE.
Proof.
  intros H. unfold advance. apply Z.rem_mod_nonneg; [lia|reflexivity].
Qed.

Lemma update_core_idx (t : cpu_ticks) (core : CoreStat) :
  history_idx (update_core t core) = advance (history_idx core).
Proof. reflexivity. Qed.

Lemma update_core_inv (t : cpu_ticks) (core : CoreStat) :
  core_inv core → core_inv (update_core t core).
Proof.
  intros [Hi Hl]. split.
  - rewrite update_core_idx. apply advance_range. exact Hi.
  - cbn [update_core history ring_write fst snd]. rewrite length_insert. exact Hl.
Qed.

(** The value that [update_core] leaves in the cell under the cursor it
    had before the write. *)
Lemma update_core_written (t : cpu_ticks) (core : CoreStat) :
  core_inv core →
  history (update_core t core) !! Z.to_nat (history_idx core)
  = Some (percent (update_core t core)).
Proof.
  intros [Hi Hl]. cbn [update_core history ring_write fst snd].
  apply list_lookup_insert_eq. rewrite Hl. unfold HISTORY_SIZE in *. lia.
Qed.

Section CpuLines.
(** The cursors after the line loop of [parse_cpu_stats]. *)
Lemma cpu_lines_inv (lines : list stat_line) (st : Z * list CoreStat * CoreStat) :
  Forall core_inv st.1.2 → core_inv st.2 →
  Forall core_inv (fold_left cpu_line_step lines st).1.2
  ∧ core_inv (fold_left cpu_line_step lines st).2.
Proof.
  revert st. induction lines as [|l lines IH]; intros [[nc cs] ov] Hcs Hov; simpl in *.
  - split; assumption.
  - apply IH; destruct l as [t|n t|]; simpl;
      try destruct (Z.of_nat n <? MAX_CPU_CORES); simpl; try assumption.
    + apply Forall_alter; [exact Hcs|].
      intros c _. apply update_core_inv.
    + apply update_core_inv. exact Hov.
Qed.

Lemma cpu_lines_core_cursor (n : nat) (lines : list stat_line)
    (st : Z * list CoreStat * CoreStat) :
  Z.of_nat n < MAX_CPU_CORES →
  history_idx <$> (fold_left cpu_line_step lines st).1.2 !! n
  = Nat.iter (core_line_count n lines) advance <$> (history_idx <$> st.1.2 !! n).
Proof.
  intros Hn. revert st. induction lines as [|l lines IH]; intros [[nc cs] ov].
  - cbn [fold_left core_line_count fst snd]. destruct (cs !! n); reflexivity.
  - cbn [fold_left]. rewrite IH.
    destruct l as [t|m t|]; cbn [cpu_line_step core_line_count fst snd];
      try reflexivity.
    destruct (Nat.eqb_spec m n) as [->|Hne].
    + replace (Z.of_nat n <? MAX_CPU_CORES) with true
        by (symmetry; apply Z.ltb_lt; exact Hn).
      cbn [fst snd]. rewrite list_lookup_alter, decide_True by reflexivity.
      destruct (cs !! n) as [c|]; [|reflexivity].
      cbn [fmap option_fmap option_map].
      rewrite update_core_idx, Nat.iter_succ_r. reflexivity.
    + destruct (Z.of_nat m <? MAX_CPU_CORES); cbn [fst snd]; [|reflexivity].
      rewrite list_lookup_alter_ne by exact Hne. reflexivity.
Qed.

Lemma cpu_lines_overall_cursor (lines : list stat_line)
    (st : Z * list CoreStat * CoreStat) :
  history_idx (fold_left cpu_line_step lines st).2
  = Nat.iter (overall_line_count lines) advance (history_idx st.2).
Proof.
  revert st. induction lines as [|l lines IH]; intros [[nc cs] ov].
  - reflexivity.
  - cbn [fold_left]. rewrite IH.
    destruct l as [t|m t|]; cbn [cpu_line_step overall_line_count fst snd];
      try reflexivity.
    + rewrite update_core_idx, Nat.iter_succ_r. reflexivity.
    + destruct (Z.of_nat m <? MAX_CPU_CORES); reflexivity.
Qed.
End CpuLines.

Section Disks.
Variables (old : list DiskInfo.t) (hi : Z) (P : DiskInfo.t → Prop).
Hypothesis P_entry : ∀ name rs ws ss, P (disk_entry old hi name rs ws ss).

Lemma disk_loop_Forall (lines : list diskstats_line) (acc : list DiskInfo.t) :
  Forall P acc → Forall P (disk_loop old hi lines acc).
Proof.
  revert acc. induction lines as [|l lines IH]; intros acc Hacc; simpl.
  - exact Hacc.
  - destruct (Z.of_nat (length acc) <? MAX_DISKS); [|exact Hacc].
    destruct l as [|name rs ws ss]; [apply IH; exact Hacc|].
    destruct (is_virtual_disk name); apply IH; [exact Hacc|].
    apply Forall_app; split; [exact Hacc|].
    constructor; [apply P_entry|constructor].
Qed.
End Disks.

Lemma disk_entry_histories (old : list DiskInfo.t) (hi : Z)
    (name : string) (rs ws ss : Z) :
  Forall disk_inv old → 0 ≤ hi < HISTORY_SIZE →
  disk_inv (disk_entry old hi name rs ws ss)
  ∧ DiskInfo.history_rx (disk_entry old hi name rs ws ss) !! Z.to_nat hi
    = Some (int_of_float (DiskInfo.read_speed (disk_entry old hi name rs ws ss) / 100))
  ∧ DiskInfo.history_tx (disk_entry old hi name rs ws ss) !! Z.to_nat hi
    = Some (int_of_float (DiskInfo.write_speed (disk_entry old hi name rs ws ss) / 100)).
Proof.
  intros Hold Hhi. unfold disk_entry.
  assert (Hbase :
    disk_inv (match List.find (λ d, String.eqb (DiskInfo.name d) name) old with
              | Some d => d | None => DiskInfo.zero end)).
  { destruct (List.find _ old) as [d|] eqn:E.
    - apply List.find_some in E. destruct E as [E _].
      apply list_elem_of_In in E.
      rewrite Forall_forall in Hold. apply Hold. exact E.
    - split; apply length_replicate. }
  destruct (List.find _ old) as [d|];
    destruct Hbase as [Hrx Htx]; unfold disk_inv;
    cbn [DiskInfo.history_rx DiskInfo.history_tx DiskInfo.read_speed DiskInfo.write_speed];
    (split; [split; rewrite length_insert; assumption|]);
    split; apply list_lookup_insert_eq; unfold HISTORY_SIZE in *; lia.
Qed.

(** The non-process fields of the state are those of the state before the
    process scan. *)
Lemma processes_only_fields (s s' : SystemStats) :
  processes_only s s' →
  history_index s' = history_index s
  ∧ cpu_history s' = cpu_history s ∧ mem_history s' = mem_history s
  ∧ net_history_rx s' = net_history_rx s ∧ net_history_tx s' = net_history_tx s
  ∧ overall s' = overall s ∧ cores s' = cores s
  ∧ mem_percent s' = mem_percent s
  ∧ net_rx_speed s' = net_rx_speed s ∧ net_tx_speed s' = net_tx_speed s
  ∧ disks s' = disks s ∧ num_disks s' = num_disks s.
Proof. intros H. rewrite H. repeat split. Qed.

Lemma parse_cpu_stats_inv (file : option (list stat_line)) (s : SystemStats) :
  stats_inv s →
  stats_inv (parse_cpu_stats file s)
  ∧ history_index (parse_cpu_stats file s) = history_index s
  ∧ process_count (parse_cpu_stats file s) = process_count s.
Proof.
  intros Hinv. destruct file as [lines|]; [|split; [exact Hinv|split; reflexivity]].
  destruct Hinv as [Hi Hov Hcs Hcpu Hmem Hrx Htx Hd Hp].
  destruct (cpu_lines_inv lines (num_cores s, cores s, overall s) Hcs Hov) as [Hcs' Hov'].
  split; [|split; reflexivity].
  unfold parse_cpu_stats. constructor; stats_fields.
  - exact Hi.
  - exact Hov'.
  - exact Hcs'.
  - rewrite length_insert. exact Hcpu.
  - exact Hmem.
  - exact Hrx.
  - exact Htx.
  - exact Hd.
  - exact Hp.
Qed.

Lemma parse_meminfo_inv (file : option (list meminfo_line)) (s : SystemStats) :
  stats_inv s →
  stats_inv (parse_meminfo file s)
  ∧ history_index (parse_meminfo file s) = history_index s
  ∧ process_count (parse_meminfo file s) = process_count s.
Proof.
  intros Hinv. destruct file as [lines|]; [|split; [exact Hinv|split; reflexivity]].
  destruct Hinv as [Hi Hov Hcs Hcpu Hmem Hrx Htx Hd Hp].
  split; [|split; reflexivity].
  unfold parse_meminfo. constructor; stats_fields.
  - exact Hi.
  - exact Hov.
  - exact Hcs.
  - exact Hcpu.
  - rewrite length_insert. exact Hmem.
  - exact Hrx.
  - exact Htx.
  - exact Hd.
  - exact Hp.
Qed.

Lemma parse_net_stats_inv (file : option (list net_line)) (s : SystemStats) :
  stats_inv s →
  stats_inv (parse_net_stats file s)
  ∧ history_index (parse_net_stats file s) = history_index s
  ∧ process_count (parse_net_stats file s) = process_count s.
Proof.
  intros Hinv. destruct file as [lines|]; [|split; [exact Hinv|split; reflexivity]].
  destruct Hinv as [Hi Hov Hcs Hcpu Hmem Hrx Htx Hd Hp].
  split; [|split; reflexivity].
  unfold parse_net_stats. constructor; stats_fields.
  - exact Hi.
  - exact Hov.
  - exact Hcs.
  - exact Hcpu.
  - exact Hmem.
  - rewrite length_insert. exact Hrx.
  - rewrite length_insert. exact Htx.
  - exact Hd.
  - exact Hp.
Qed.

Lemma parse_disk_stats_inv (file : option (list diskstats_line)) (s : SystemStats) :
  stats_inv s →
  stats_inv (parse_disk_stats file s)
  ∧ history_index (parse_disk_stats file s) = history_index s
  ∧ process_count (parse_disk_stats file s) = process_count s.
Proof.
  intros Hinv. destruct file as [lines|]; [|split; [exact Hinv|split; reflexivity]].
  destruct Hinv as [Hi Hov Hcs Hcpu Hmem Hrx Htx Hd Hp].
  split; [|split; reflexivity].
  unfold parse_disk_stats. constructor; stats_fields.
  - exact Hi.
  - exact Hov.
  - exact Hcs.
  - exact Hcpu.
  - exact Hmem.
  - exact Hrx.
  - exact Htx.
  - rewrite Nat2Z.id, take_app_length.
    apply disk_loop_Forall; [|constructor].
    intros name rs ws ss. apply disk_entry_histories; assumption.
  - exact Hp.
Qed.

(** The counters part of a poll keeps the shape of the state and does not
    move the shared cursor. *)
Lemma poll_counters_inv (snap : Snapshot) (s : SystemStats) :
  stats_inv s →
  stats_inv (poll_counters snap s)
  ∧ history_index (poll_counters snap s) = history_index s
  ∧ process_count (poll_counters snap s) = process_count s.
Proof.
  intros H0. unfold poll_counters.
  destruct (parse_cpu_stats_inv (proc_stat snap) s H0) as (H1 & E1 & P1).
  destruct (parse_meminfo_inv (proc_meminfo snap) _ H1) as (H2 & E2 & P2).
  destruct (parse_net_stats_inv (proc_net_dev snap) _ H2) as (H3 & E3 & P3).
  destruct (parse_disk_stats_inv (proc_diskstats snap) _ H3) as (H4 & E4 & P4).
  split; [exact H4|]. split; congruence.
Qed.

Section CountersWritten.
Variables (f1 : option (list stat_line)) (f2 : option (list meminfo_line)).
Variables (f3 : option (list net_line)) (f4 : option (list diskstats_line)).
Variables (f5 : option (list dirent)) (clk : Z) (s : SystemStats).
Hypothesis Hinv : stats_inv s.



Lemma cursor_lt_length (l : list Z) :
  length l = Z.to_nat HISTORY_SIZE → (Z.to_nat (history_index s) < length l)%nat.
Proof.
  intros ->. destruct Hinv as [Hi _ _ _ _ _ _ _ _]. unfold HISTORY_SIZE in *. lia.
Qed.

(** Each series that is read in the poll has its fresh value in the cell
    under the shared cursor. *)
Lemma poll_counters_cpu_written :
  is_Some f1 →
  cpu_history (poll_counters (mkSnapshot f1 f2 f3 f4 f5 clk) s) !! Z.to_nat (history_index s)
  = Some (int_of_float (percent (overall (poll_counters (mkSnapshot f1 f2 f3 f4 f5 clk) s)))).
Proof.
  intros [lines ->]. unfold poll_counters.
  cbn [proc_stat proc_meminfo proc_net_dev proc_diskstats].
  clear f5 clk. open_counters;
    apply list_lookup_insert_eq, cursor_lt_length, Hinv.
Qed.

Lemma poll_counters_mem_written :
  is_Some f2 →
  mem_history (poll_counters (mkSnapshot f1 f2 f3 f4 f5 clk) s) !! Z.to_nat (history_index s)
  = Some (int_of_float (mem_percent (poll_counters (mkSnapshot f1 f2 f3 f4 f5 clk) s))).
Proof.
  intros [lines ->]. unfold poll_counters.
  cbn [proc_stat proc_meminfo proc_net_dev proc_diskstats].
  clear f5 clk. open_counters;
    apply list_lookup_insert_eq, cursor_lt_length, Hinv.
Qed.

Lemma poll_counters_net_written :
  is_Some f3 →
  net_history_rx (poll_counters (mkSnapshot f1 f2 f3 f4 f5 clk) s) !! Z.to_nat (history_index s)
  = Some (int_of_float (net_rx_speed (poll_counters (mkSnapshot f1 f2 f3 f4 f5 clk) s) / 100))
  ∧ net_history_tx (poll_counters (mkSnapshot f1 f2 f3 f4 f5 clk) s) !! Z.to_nat (history_index s)
    = Some (int_of_float (net_tx_speed (poll_counters (mkSnapshot f1 f2 f3 f4 f5 clk) s) / 100)).
Proof.
  intros [lines ->]. unfold poll_counters.
  cbn [proc_stat proc_meminfo proc_net_dev proc_diskstats].
  clear f5 clk. open_counters;
    split; apply list_lookup_insert_eq, cursor_lt_length, Hinv.
Qed.

Lemma poll_counters_disk_written :
  is_Some f4 →
  Forall (λ d,
            DiskInfo.history_rx d !! Z.to_nat (history_index s)
            = Some (int_of_float (DiskInfo.read_speed d / 100))
            ∧ DiskInfo.history_tx d !! Z.to_nat (history_index s)
              = Some (int_of_float (DiskInfo.write_speed d / 100)))
    (take (Z.to_nat (num_disks (poll_counters (mkSnapshot f1 f2 f3 f4 f5 clk) s))) (disks (poll_counters (mkSnapshot f1 f2 f3 f4 f5 clk) s))).
Proof.
  intros [lines ->]. unfold poll_counters.
  cbn [proc_stat proc_meminfo proc_net_dev proc_diskstats].
  destruct (parse_cpu_stats_inv f1 s Hinv) as (H1 & E1 & _).
  destruct (parse_meminfo_inv f2 _ H1) as (H2 & E2 & _).
  destruct (parse_net_stats_inv f3 _ H2) as (H3 & E3 & _).
  set (s3 := parse_net_stats f3 _) in *.
  assert (E : history_index s3 = history_index s) by congruence.
  rewrite <- E. unfold parse_disk_stats. stats_fields.
  rewrite Nat2Z.id, take_app_length.
  apply disk_loop_Forall; [|constructor].
  intros name rs ws ss.
  apply disk_entry_histories; [apply H3|apply H3].
Qed.

(** A core that has one line in /proc/stat has its own cursor advanced by
    one; so has the overall series. *)
Lemma poll_counters_core_cursor (lines : list stat_line) (n : nat) (c : CoreStat) :
  f1 = Some lines → Z.of_nat n < MAX_CPU_CORES →
  core_line_count n lines = 1%nat →
  cores s !! n = Some c →
  ∃ c', cores (poll_counters (mkSnapshot f1 f2 f3 f4 f5 clk) s) !! n = Some c'
        ∧ history_idx c' = (history_idx c + 1) mod HISTORY_SIZE
        ∧ history c' !! Z.to_nat (history_idx c) = Some (percent c').
Proof.
  intros -> Hn Hone Hc. unfold poll_counters.
  cbn [proc_stat proc_meminfo proc_net_dev proc_diskstats].
  assert (Hcore : core_inv c).
  { destruct Hinv as [_ _ Hcs _ _ _ _ _ _]. eapply Forall_lookup_1; eassumption. }
  assert (Hfold : ∃ c',
    (fold_left cpu_line_step lines (num_cores s, cores s, overall s)).1.2 !! n = Some c'
    ∧ history_idx c' = (history_idx c + 1) mod HISTORY_SIZE
    ∧ history c' !! Z.to_nat (history_idx c) = Some (percent c')).
  { clear f2 f3 f4 f5 clk Hinv.
    generalize (num_cores s) (cores s) (overall s) Hc. clear Hc.
    induction lines as [|l rest IH]; intros nc cs ov Hc; [discriminate Hone|].
    cbn [fold_left]. destruct l as [t|m t|]; cbn [cpu_line_step core_line_count] in *.
    - apply IH; assumption.
    - destruct (Nat.eqb_spec m n) as [->|Hne].
      + replace (Z.of_nat n <? MAX_CPU_CORES) with true
          by (symmetry; apply Z.ltb_lt; exact Hn).
        injection Hone as Hzero.
        pose proof (cpu_lines_core_cursor n rest
                      (if nc <=? Z.of_nat n then Z.of_nat n + 1 else nc,
                       alter (update_core t) n cs, ov) Hn) as Hcur.
        rewrite Hzero in Hcur. cbn [fst snd Nat.iter nat_rect] in Hcur.
        rewrite list_lookup_alter, decide_True, Hc in Hcur by reflexivity.
        cbn [fmap option_fmap option_map] in Hcur.
        assert (Hkeep : ∀ (ls : list stat_line) st,
                  core_line_count n ls = O →
                  (fold_left cpu_line_step ls st).1.2 !! n = st.1.2 !! n).
        { clear. induction ls as [|l ls IHls]; intros [[nc cs] ov] Hz; [reflexivity|].
          cbn [fold_left]. destruct l as [t|m t|]; cbn [cpu_line_step core_line_count] in *.
          - rewrite IHls by exact Hz. reflexivity.
          - destruct (Nat.eqb_spec m n) as [->|Hne]; [discriminate Hz|].
            rewrite IHls by exact Hz.
            destruct (Z.of_nat m <? MAX_CPU_CORES); cbn [fst snd]; [|reflexivity].
            apply list_lookup_alter_ne. exact Hne.
          - rewrite IHls by exact Hz. reflexivity. }
        rewrite Hkeep by exact Hzero. cbn [fst snd].
        rewrite list_lookup_alter, decide_True, Hc by reflexivity.
        cbn [fmap option_fmap option_map].
        eexists. split; [reflexivity|]. split.
        * rewrite update_core_idx. apply advance_mod. apply Hcore.
        * apply update_core_written. exact Hcore.
      + destruct (Z.of_nat m <? MAX_CPU_CORES).
        * apply IH; [exact Hone|].
          rewrite list_lookup_alter_ne by exact Hne. exact Hc.
        * apply IH; assumption.
    - apply IH; assumption. }
  clear f5 clk. destruct f2, f3, f4;
    cbn [parse_cpu_stats parse_meminfo parse_net_stats parse_disk_stats cores];
    exact Hfold.
Qed.

Lemma poll_counters_overall_cursor (lines : list stat_line) :
  f1 = Some lines → overall_line_count lines = 1%nat →
  history_idx (overall (poll_counters (mkSnapshot f1 f2 f3 f4 f5 clk) s))
  = (history_idx (overall s) + 1) mod HISTORY_SIZE.
Proof.
  intros -> Hone. unfold poll_counters.
  cbn [proc_stat proc_meminfo proc_net_dev proc_diskstats].
  assert (Hfold :
    history_idx (fold_left cpu_line_step lines (num_cores s, cores s, overall s)).2
    = (history_idx (overall s) + 1) mod HISTORY_SIZE).
  { rewrite cpu_lines_overall_cursor, Hone. cbn [Nat.iter nat_rect snd].
    apply advance_mod. destruct Hinv as [_ [Hov _] _ _ _ _ _ _ _]. apply Hov. }
  clear f5 clk. destruct f2, f3, f4;
    cbn [parse_cpu_stats parse_meminfo parse_net_stats parse_disk_stats overall];
    exact Hfold.
Qed.
End CountersWritten.

(** ** A whole refresh tick ([update_stats]) *)

Lemma stats_inv_zero : stats_inv zero_stats.
Proof.
  constructor; cbn [zero_stats history_index overall cores cpu_history mem_history
                    net_history_rx net_history_tx disks num_disks process_count].
  - unfold HISTORY_SIZE. lia.
  - split; [unfold zero_core, HISTORY_SIZE; simpl; lia|apply length_replicate].
  - apply Forall_replicate.
    split; [unfold zero_core, HISTORY_SIZE; simpl; lia|apply length_replicate].
  - apply length_replicate.
  - apply length_replicate.
  - apply length_replicate.
  - apply length_replicate.
  - constructor.
  - unfold MAX_PROCESSES. lia.
Qed.

Lemma stats_inv_after (s1 s2 : SystemStats) :
  stats_inv s1 → processes_only s1 s2 →
  0 ≤ process_count s2 ≤ MAX_PROCESSES →
  stats_inv (advance_history_index s2).
Proof.
  intros [Hi Hov Hcs Hcpu Hmem Hrx Htx Hd Hp] Honly Hcount.
  destruct (processes_only_fields s1 s2 Honly)
    as (E1 & E2 & E3 & E4 & E5 & E6 & E7 & _ & _ & _ & E8 & E9).
  constructor;
    cbn [advance_history_index history_index overall cores cpu_history mem_history
         net_history_rx net_history_tx disks num_disks process_count];
    rewrite ?E1, ?E2, ?E3, ?E4, ?E5, ?E6, ?E7, ?E8, ?E9; try assumption.
  apply (advance_range (history_index s1)). exact Hi.
Qed.

(** A poll from a well-shaped state never leaves the process table, keeps
    the shape, and changes the counters as [poll_counters] does, the shared
    cursor being advanced afterwards. *)
Lemma update_stats_ok (qsort : sorter) (snap : Snapshot) (g : Globals) :
  stats_inv (g_stats g) →
  ∃ g' s2,
    update_stats qsort snap g = Some g'
    ∧ processes_only (poll_counters snap (g_stats g)) s2
    ∧ 0 ≤ process_count s2 ≤ MAX_PROCESSES
    ∧ g_stats g' = advance_history_index s2
    ∧ stats_inv (g_stats g').
Proof.
  intros Hinv.
  destruct (poll_counters_inv snap (g_stats g) Hinv) as (H1 & E1 & P1).
  unfold update_stats.
  match goal with |- context [parse_processes ?q ?c ?d ?g0] =>
    destruct (parse_processes_ok q c d g0) as (g1 & Eg & Fg & Cg & _)
  end.
  { cbn [g_stats]. rewrite P1. apply Hinv. }
  rewrite Eg. cbn [mbind option_bind g_stats] in *.
  eexists. exists (g_stats g1).
  split; [reflexivity|]. cbn [g_stats].
  split; [exact Fg|]. split; [exact Cg|]. split; [reflexivity|].
  eapply stats_inv_after; eassumption.
Qed.

Lemma reachable_inv (qsort : sorter) (g : Globals) :
  reachable qsort g → stats_inv (g_stats g).
Proof.
  induction 1 as [mode|g snap elapsed mode g' Hr IH Hstep].
  - apply stats_inv_zero.
  - destruct (update_stats_ok qsort snap
                (mkGlobals (g_stats g) mode elapsed (g_clk_tck g)) IH)
      as (g2 & s2 & E & _ & _ & _ & Hinv).
    rewrite E in Hstep. injection Hstep as <-. exact Hinv.
Qed.

(** When the table fills up during the scan, whatever follows in the
    directory changes nothing. *)
Lemma scan_loop_app_full (clk : Z) (prev_procs : list ProcessInfo.t)
    (entries extra : list dirent) (g g1 : Globals) :
  scan_loop clk prev_procs entries g = Some g1 →
  process_count (g_stats g1) = MAX_PROCESSES →
  scan_loop clk prev_procs (entries ++ extra) g = Some g1.
Proof.
  revert g. induction entries as [|e rest IH]; intros g Hscan Hfull.
  - simpl in Hscan. injection Hscan as <-. apply scan_loop_full. exact Hfull.
  - simpl in *.
    destruct (process_count (g_stats g) <? MAX_PROCESSES); [|exact Hscan].
    destruct (scan_entry clk prev_procs e g) as [g2|]; [|discriminate Hscan].
    cbn [mbind option_bind] in *. apply IH; assumption.
Qed.

(** C9. After every poll the number of tracked processes is at most
    [MAX_PROCESSES]: from any state that the program reaches, a poll
    returns without an access outside the process table and leaves a count
    between 0 and 512; once the count is 512 the scan admits no further
    entry, the rest of the directory being dropped. *)
Theorem process_table_bounded (qsort : sorter) (g : Globals) :
  reachable qsort g →
  0 ≤ process_count (g_stats g) ≤ MAX_PROCESSES
  ∧ (∀ snap sort_mode elapsed,
       ∃ g', update_stats qsort snap
               (mkGlobals (g_stats g) sort_mode elapsed (g_clk_tck g)) = Some g'
             ∧ 0 ≤ process_count (g_stats g') ≤ MAX_PROCESSES)
  ∧ (∀ clk prev_procs entries extra g0 g1,
       scan_loop clk prev_procs entries g0 = Some g1 →
       process_count (g_stats g1) = MAX_PROCESSES →
       scan_loop clk prev_procs (entries ++ extra) g0 = Some g1).
Proof.
  intros Hr. pose proof (reachable_inv qsort g Hr) as Hinv.
  split; [apply Hinv|]. split.
  - intros snap mode elapsed.
    destruct (update_stats_ok qsort snap
                (mkGlobals (g_stats g) mode elapsed (g_clk_tck g)) Hinv)
      as (g' & s2 & E & _ & _ & _ & Hinv').
    exists g'. split; [exact E|apply Hinv'].
  - intros clk prev_procs entries extra g0 g1. apply scan_loop_app_full.
Qed.

(** Witness of C9: the first poll of the program, on a directory of 600
    processes. *)
Lemma process_table_bounded_witness :
  ∃ g', update_stats insertion_qsort
          (mkSnapshot None None None None
             (Some ((λ i, EntryStat (mkStat i "p" "S" 0 0 0 "u" "p")) <$> seqZ 1 600))
             100)
          (mkGlobals (g_stats initial_globals) SORT_CPU_LAZY 1 (g_clk_tck initial_globals))
        = Some g'
        ∧ 0 ≤ process_count (g_stats g') ≤ MAX_PROCESSES.
Proof.
  destruct (process_table_bounded insertion_qsort initial_globals) as (_ & Hpoll & _).
  - apply (reachable_start insertion_qsort SORT_CPU_LAZY).
  - apply Hpoll.
Defined.

(** A directory of 600 processes leaves 512 entries in the table. *)
Example scan_of_600_processes :
  (λ g, process_count (g_stats g)) <$>
    poll insertion_qsort 1
      (mkSnapshot None None None None
         (Some ((λ i, EntryStat (mkStat i "p" "S" 0 0 0 "u" "p")) <$> seqZ 1 600)) 100)
      initial_globals
  = Some 512.
Proof. vm_compute. reflexivity. Qed.



(** ** The per-core grid ([draw_cpu_section]) *)

Section Grid.
(** A grid of [cores_per_row] columns of [item_width] characters, each
    core taking [lines] rows. *)
Variables (x0 y0 cores_per_row item_width lines : Z).
Hypothesis cpr_pos : 0 < cores_per_row.
Hypothesis width_pos : 0 < item_width.
Hypothesis lines_pos : 0 < lines.

Lemma grid_position (i : Z) :
  0 ≤ i →
  i = cores_per_row * (i `quot` cores_per_row) + i `rem` cores_per_row
  ∧ 0 ≤ i `rem` cores_per_row < cores_per_row
  ∧ 0 ≤ i `quot` cores_per_row.
Proof.
  intros Hi. split; [apply Z.quot_rem'|]. split.
  - apply Z.rem_bound_pos; lia.
  - apply Z.quot_pos; lia.
Qed.

Lemma grid_no_overlap (i j : Z) :
  0 ≤ i → 0 ≤ j → i ≠ j →
  ¬ cells_overlap (grid_cell x0 y0 cores_per_row item_width lines i)
      (grid_cell x0 y0 cores_per_row item_width lines j).
Proof.
  intros Hi Hj Hne.
  destruct (grid_position i Hi) as (Ei & Ri & Qi).
  destruct (grid_position j Hj) as (Ej & Rj & Qj).
  unfold cells_overlap, grid_cell. cbn [c_x c_y c_w c_h].
  set (qi := i `quot` cores_per_row) in *. set (ri := i `rem` cores_per_row) in *.
  set (qj := j `quot` cores_per_row) in *. set (rj := j `rem` cores_per_row) in *.
  intros (X1 & X2 & Y1 & Y2).
  assert (Hq : qi = qj) by nia.
  assert (Hr : ri = rj) by nia.
  apply Hne. rewrite Ei, Ej, Hq, Hr. reflexivity.
Qed.

Lemma grid_in_pane (x y w h i : Z) :
  0 ≤ i →
  x ≤ x0 → x0 + cores_per_row * item_width ≤ x + w →
  y ≤ y0 → y0 + (i `quot` cores_per_row) * lines + lines ≤ y + h →
  cell_in_pane x y w h (grid_cell x0 y0 cores_per_row item_width lines i).
Proof.
  intros Hi Hx Hw Hy Hh.
  destruct (grid_position i Hi) as (Ei & Ri & Qi).
  unfold cell_in_pane, grid_cell. cbn [c_x c_y c_w c_h].
  repeat split; nia.
Qed.

(** The row of a core among [n] cores is below the number of rows that
    [n] cores need. *)
Lemma grid_row_bound (n i : Z) :
  0 ≤ i < n →
  i `quot` cores_per_row < (n + cores_per_row - 1) `quot` cores_per_row.
Proof.
  intros Hi.
  rewrite !Z.quot_div_nonneg by lia.
  replace (n + cores_per_row - 1) with (n - 1 + 1 * cores_per_row) by lia.
  rewrite Z.div_add by lia.
  assert (i `div` cores_per_row ≤ (n - 1) `div` cores_per_row)
    by (apply Z.div_le_mono; lia).
  lia.
Qed.
End Grid.

Section DrawLoops.
Variables (x y h core_start_y cores_per_row item_width : Z).

(** Without a [break], the loops draw one cell of the grid for each core
    number. *)
Lemma two_line_cells_all (ids : list Z) :
  Forall (λ i, core_start_y + (i `quot` cores_per_row) * 2 + 1 < y + h - 1) ids →
  two_line_cells x y h core_start_y cores_per_row item_width ids
  = grid_cell x core_start_y cores_per_row item_width 2 <$> ids.
Proof.
  induction 1 as [|i ids Hi _ IH]; [reflexivity|].
  cbn [two_line_cells fmap list_fmap].
  replace (core_start_y + i `quot` cores_per_row * 2 + 1 >=? y + h - 1) with false
    by (symmetry; rewrite Z.geb_leb; apply Z.leb_gt; lia).
  f_equal. exact IH.
Qed.

Lemma one_line_cells_all (ids : list Z) :
  Forall (λ i, core_start_y + i `quot` cores_per_row < y + h - 1) ids →
  one_line_cells x y h core_start_y cores_per_row item_width ids
  = grid_cell x core_start_y cores_per_row item_width 1 <$> ids.
Proof.
  induction 1 as [|i ids Hi _ IH]; [reflexivity|].
  cbn [one_line_cells fmap list_fmap].
  replace (core_start_y + i `quot` cores_per_row >=? y + h - 1) with false
    by (symmetry; rewrite Z.geb_leb; apply Z.leb_gt; lia).
  unfold grid_cell at 1. rewrite Z.mul_1_r. f_equal. exact IH.
Qed.
End DrawLoops.

Section Distribution.
Variables (num_cores available_core_rows max_per_row : Z).

Lemma best_distribution_fits (test : nat) (b r : Z) :
  Z.of_nat test ≤ max_per_row →
  fits num_cores available_core_rows max_per_row b r →
  fits num_cores available_core_rows max_per_row
    (best_distribution num_cores available_core_rows test b r).1
    (best_distribution num_cores available_core_rows test b r).2.
Proof.
  revert b r. induction test as [|test IH]; intros b r Ht Hfit; [exact Hfit|].
  cbn [best_distribution].
  set (t := Z.of_nat (S test)) in *.
  set (rows := (num_cores + t - 1) `quot` t).
  destruct (Z.gtb_spec (rows * 2) available_core_rows) as [Hgt|Hle]; [exact Hfit|].
  assert (Hnew : fits num_cores available_core_rows max_per_row t rows).
  { unfold fits. subst t. split; [lia|]. split; [reflexivity|lia]. }
  destruct ((num_cores - (rows - 1) * t =? t)
            || negb (r =? rows) && (rows <=? available_core_rows `quot` 2)).
  - destruct (num_cores - (rows - 1) * t =? t); [exact Hnew|].
    apply IH; [lia|exact Hnew].
  - apply IH; [lia|exact Hfit].
Qed.
End Distribution.

Section GridCells.
Variables (x0 y0 cores_per_row item_width lines k : Z).
Variables (x y w h : Z).
Hypothesis cpr_pos : 0 < cores_per_row.
Hypothesis width_pos : 0 < item_width.
Hypothesis lines_pos : 0 < lines.
Hypothesis left_edge : x ≤ x0.
Hypothesis right_edge : x0 + cores_per_row * item_width ≤ x + w.
Hypothesis top_edge : y ≤ y0.
Hypothesis bottom_edge :
  ∀ i, 0 ≤ i < k → y0 + (i `quot` cores_per_row) * lines + lines ≤ y + h.

Lemma grid_cells_lookup (i : nat) (c : cell) :
  (grid_cell x0 y0 cores_per_row item_width lines <$> seqZ 0 k) !! i = Some c → c = grid_cell x0 y0 cores_per_row item_width lines (Z.of_nat i)
  ∧ Z.of_nat i < k.
Proof.
  rewrite list_lookup_fmap. intros Hc.
  destruct (seqZ 0 k !! i) as [j|] eqn:E; [|discriminate Hc].
  apply lookup_seqZ in E. destruct E as [-> Hlt].
  injection Hc as <-. rewrite Z.add_0_l. split; [reflexivity|exact Hlt].
Qed.

(** The cells of the first [k] cores of a grid that fits in the pane: one
    cell for each core, of [lines] rows, no two of them overlapping, all
    of them inside the pane. *)
Lemma grid_cells_properties :
  c_core <$> (grid_cell x0 y0 cores_per_row item_width lines <$> seqZ 0 k) = seqZ 0 k
  ∧ Forall (λ c, c_h c = lines) (grid_cell x0 y0 cores_per_row item_width lines <$> seqZ 0 k)
  ∧ (∀ (i j : nat) (a b : cell), i ≠ j →
       (grid_cell x0 y0 cores_per_row item_width lines <$> seqZ 0 k) !! i = Some a →
       (grid_cell x0 y0 cores_per_row item_width lines <$> seqZ 0 k) !! j = Some b →
       ¬ cells_overlap a b)
  ∧ Forall (cell_in_pane x y w h) (grid_cell x0 y0 cores_per_row item_width lines <$> seqZ 0 k).
Proof.
  split; [|split; [|split]].
  - rewrite <- list_fmap_compose. apply list_fmap_id.
  - apply Forall_fmap, Forall_forall. intros i _. reflexivity.
  - intros i j a b Hne Ha Hb.
    apply grid_cells_lookup in Ha. destruct Ha as [-> _].
    apply grid_cells_lookup in Hb. destruct Hb as [-> _].
    apply grid_no_overlap; lia.
  - apply Forall_fmap, Forall_forall. intros i Hi.
    apply elem_of_seqZ in Hi.
    apply grid_in_pane; try assumption; try lia.
    apply bottom_edge. lia.
Qed.
End GridCells.

Section CoreGrid.
Variables (n x y w h : Z).
Hypothesis cores_range : 0 ≤ n ≤ MAX_CPU_CORES.
Hypothesis wide_enough : two_line_item_width n ≤ w - 2.

Lemma item_widths :
  14 ≤ two_line_item_width n ≤ 16
  ∧ single_line_item_width n = two_line_item_width n - 6.
Proof.
  unfold two_line_item_width, single_line_item_width, core_label_width.
  destruct (n >=? 100), (n >=? 10); lia.
Qed.

Lemma max_cores_per_row_fits :
  1 ≤ max_cores_per_row w n
  ∧ max_cores_per_row w n * two_line_item_width n ≤ w - 2.
Proof.
  destruct item_widths as [Htw _]. unfold max_cores_per_row.
  rewrite Z.quot_div_nonneg by lia.
  assert (1 ≤ (w - 2) `div` two_line_item_width n)
    by (apply Z.div_le_lower_bound; lia).
  replace ((w - 2) `div` two_line_item_width n <? 1) with false
    by (symmetry; apply Z.ltb_ge; lia).
  split; [lia|]. rewrite Z.mul_comm. apply Z.mul_div_le. lia.
Qed.

Lemma single_line_cores_per_row_fits :
  1 ≤ single_line_cores_per_row w n
  ∧ single_line_cores_per_row w n * single_line_item_width n ≤ w - 2.
Proof.
  destruct item_widths as [Htw Hsw]. unfold single_line_cores_per_row.
  rewrite Z.quot_div_nonneg by lia.
  assert (1 ≤ (w - 2) `div` single_line_item_width n)
    by (apply Z.div_le_lower_bound; lia).
  replace ((w - 2) `div` single_line_item_width n <? 1) with false
    by (symmetry; apply Z.ltb_ge; lia).
  split; [lia|]. rewrite Z.mul_comm. apply Z.mul_div_le. lia.
Qed.

(** In a pane of four rows or more the grid has at least one row. *)
Lemma available_core_rows_pos :
  4 ≤ h → 0 < available_core_rows_of y h
          ∧ core_start_y_of y h + available_core_rows_of y h = y + h - 1.
Proof.
  intros Hh. unfold available_core_rows_of, core_start_y_of, graph_h_of.
  destruct (Z.gtb_spec h 8); lia.
Qed.

(** What [draw_cpu_section] draws is the first [displayed_cores] cells of
    a grid that fits between the left edge of the pane and its last
    row. *)
Lemma draw_cpu_section_grid :
  ∃ cores_per_row item_width,
    0 < cores_per_row ∧ 0 < item_width
    ∧ cores_per_row * item_width ≤ w - 2
    ∧ (∀ i, 0 ≤ i < displayed_cores n w y h →
         core_start_y_of y h
         + (i `quot` cores_per_row)
           * (if use_two_line w n (available_core_rows_of y h) then 2 else 1)
         + (if use_two_line w n (available_core_rows_of y h) then 2 else 1)
         ≤ y + h - 1)
    ∧ draw_cpu_section n x y w h
    = grid_cell x (core_start_y_of y h) cores_per_row item_width
        (if use_two_line w n (available_core_rows_of y h) then 2 else 1)
      <$> seqZ 0 (displayed_cores n w y h).
Proof.
  destruct item_widths as [Htw Hsw].
  destruct max_cores_per_row_fits as [HM1 HM2].
  destruct single_line_cores_per_row_fits as [HS1 HS2].
  unfold draw_cpu_section, displayed_cores.
  destruct (Z.ltb_spec h 4) as [Hsmall|Hh].
  { exists 1, 1. replace (if h <? 3 then [] else []) with (@nil cell)
      by (destruct (h <? 3); reflexivity).
    repeat split; try lia. }
  replace (h <? 3) with false by (symmetry; apply Z.ltb_ge; lia).
  destruct (available_core_rows_pos Hh) as [Hrows Hend].
  replace (core_start_y_of y h >=? y + h - 1) with false
    by (symmetry; rewrite Z.geb_leb; apply Z.leb_gt; lia).
  destruct (use_two_line w n (available_core_rows_of y h)) eqn:Emode.
  - (* two lines for each core *)
    unfold use_two_line in Emode. apply Z.geb_le in Emode.
    pose proof (best_distribution_fits n (available_core_rows_of y h)
                  (max_cores_per_row w n) (Z.to_nat (max_cores_per_row w n))
                  (max_cores_per_row w n) (min_rows_needed w n)) as Hfit.
    destruct Hfit as (Hb & Hr & Hrows2).
    { lia. }
    { unfold fits. split; [lia|]. split; [reflexivity|lia]. }
    set (b := (best_distribution _ _ _ _ _).1) in *.
    set (r := (best_distribution _ _ _ _ _).2) in *.
    assert (Hwidth : two_line_item_width n ≤ (w - 2) `quot` b).
    { rewrite Z.quot_div_nonneg by lia. apply Z.div_le_lower_bound; nia. }
    replace ((w - 2) `quot` b <? two_line_item_width n) with false
      by (symmetry; apply Z.ltb_ge; exact Hwidth).
    replace (Z.min n MAX_CPU_CORES) with n by lia.
    exists b, ((w - 2) `quot` b).
    split; [lia|]. split; [lia|]. split.
    { rewrite Z.quot_div_nonneg by lia. apply Z.mul_div_le. lia. }
    assert (Hrow : ∀ i, 0 ≤ i < n →
              core_start_y_of y h + i `quot` b * 2 + 2 ≤ y + h - 1).
    { intros i Hi.
      pose proof (grid_row_bound b ltac:(lia) n i Hi) as Hlt. lia. }
    split; [exact Hrow|].
    apply two_line_cells_all, Forall_forall. intros i Hi.
    apply elem_of_seqZ in Hi. specialize (Hrow i ltac:(lia)). lia.
  - (* one line for each core *)
    set (S := single_line_cores_per_row w n) in *.
    set (rows := available_core_rows_of y h) in *.
    assert (Emax : (if S * rows >? n then n else S * rows) = Z.min n (S * rows)).
    { destruct (Z.gtb_spec (S * rows) n); lia. }
    rewrite Emax.
    assert (Hmax : 0 ≤ Z.min n (S * rows) ≤ MAX_CPU_CORES) by nia.
    replace (Z.min (Z.min n (S * rows)) MAX_CPU_CORES) with (Z.min n (S * rows)) by lia.
    exists S, (single_line_item_width n).
    split; [lia|]. split; [lia|]. split; [exact HS2|].
    assert (Hrow : ∀ i, 0 ≤ i < Z.min n (S * rows) →
              core_start_y_of y h + i `quot` S * 1 + 1 ≤ y + h - 1).
    { intros i Hi.
      assert (i `quot` S < rows).
      { rewrite Z.quot_div_nonneg by lia. apply Z.div_lt_upper_bound; lia. }
      lia. }
    split; [exact Hrow|].
    apply one_line_cells_all, Forall_forall. intros i Hi.
    apply elem_of_seqZ in Hi. specialize (Hrow i ltac:(lia)). lia.
Qed.

End CoreGrid.



(** * Further properties of the engines *)

(** ** The comparator of the process table ([compare_processes]) *)

Lemma pid_order_antisym (pa pb : ProcessInfo.t) : pid_order pa pb = - pid_order pb pa.
Proof.
  unfold pid_order. rewrite !Z.gtb_ltb.
  destruct (Z.ltb_spec (ProcessInfo.pid pb) (ProcessInfo.pid pa)),
           (Z.ltb_spec (ProcessInfo.pid pa) (ProcessInfo.pid pb)); lia.
Qed.

Lemma pid_order_le (pa pb : ProcessInfo.t) :
  pid_order pa pb ≤ 0 ↔ ProcessInfo.pid pa ≤ ProcessInfo.pid pb.
Proof.
  unfold pid_order. rewrite !Z.gtb_ltb.
  destruct (Z.ltb_spec (ProcessInfo.pid pb) (ProcessInfo.pid pa)),
           (Z.ltb_spec (ProcessInfo.pid pa) (ProcessInfo.pid pb)); lia.
Qed.

Lemma pid_order_zero (pa pb : ProcessInfo.t) :
  pid_order pa pb = 0 ↔ ProcessInfo.pid pa = ProcessInfo.pid pb.
Proof.
  unfold pid_order. rewrite !Z.gtb_ltb.
  destruct (Z.ltb_spec (ProcessInfo.pid pb) (ProcessInfo.pid pa)),
           (Z.ltb_spec (ProcessInfo.pid pa) (ProcessInfo.pid pb)); lia.
Qed.

Lemma strcasecmp_antisym (a b : string) : strcasecmp a b = - strcasecmp b a.
Proof.
  revert b. induction a as [|c1 a IH]; intros [|c2 b]; cbn [strcasecmp]; try lia.
  rewrite (Z.eqb_sym (tolower c2)).
  destruct (tolower c1 =? tolower c2); [apply IH|lia].
Qed.

Lemma tolower_nonneg (c : ascii) : 0 ≤ tolower c.
Proof.
  unfold tolower. pose proof (N2Z.is_nonneg (N_of_ascii c)).
  destruct (_ && _); lia.
Qed.

Lemma tolower_pos (c : ascii) : Ascii.eqb c "000" = false → 0 < tolower c.
Proof.
  intros Hc. unfold tolower.
  assert (N_of_ascii c ≠ 0%N).
  { intros E. apply Ascii.eqb_neq in Hc. apply Hc.
    rewrite <- (ascii_N_embedding c), E. reflexivity. }
  destruct (_ && _); lia.
Qed.

Lemma strcasecmp_trans (a b c : string) :
  c_string a = true → c_string b = true →
  strcasecmp a b ≤ 0 → strcasecmp b c ≤ 0 → strcasecmp a c ≤ 0.
Proof.
  revert b c. induction a as [|c1 a IH]; intros b c Ha Hb Hab Hbc.
  - destruct c as [|c3 c]; cbn [strcasecmp]; [lia|].
    pose proof (tolower_nonneg c3). lia.
  - cbn [c_string] in Ha. apply andb_true_iff in Ha. destruct Ha as [Hc1 Ha].
    apply negb_true_iff in Hc1. pose proof (tolower_pos c1 Hc1) as P1.
    destruct b as [|c2 b]; cbn [strcasecmp] in Hab; [lia|].
    cbn [c_string] in Hb. apply andb_true_iff in Hb. destruct Hb as [Hc2 Hb].
    apply negb_true_iff in Hc2. pose proof (tolower_pos c2 Hc2) as P2.
    destruct c as [|c3 c]; cbn [strcasecmp] in Hbc; [lia|].
    cbn [strcasecmp].
    destruct (Z.eqb_spec (tolower c1) (tolower c2)) as [E12|N12];
      destruct (Z.eqb_spec (tolower c2) (tolower c3)) as [E23|N23];
      destruct (Z.eqb_spec (tolower c1) (tolower c3)) as [E13|N13]; try lia.
    eapply IH; eassumption.
Qed.

(** X1. In every sort mode, and for any value of [g_sort_mode], swapping
    the two arguments of [compare_processes] negates the result: the
    comparator never says both "before" and "after" of the same pair. *)
Theorem compare_processes_antisym (mode : Z) (pa pb : ProcessInfo.t) :
  compare_processes mode pa pb = - compare_processes mode pb pa.
Proof.
  unfold compare_processes.
  pose proof (pid_order_antisym pa pb) as Hpid.
  destruct (mode =? SORT_CPU_DIRECT).
  { destruct (Qgtb (ProcessInfo.cpu_percent pb) (ProcessInfo.cpu_percent pa)) eqn:E1,
             (Qgtb (ProcessInfo.cpu_percent pa) (ProcessInfo.cpu_percent pb)) eqn:E2;
      try lia.
    apply Qgtb_true in E1, E2. exfalso. exact (Qlt_irrefl _ (Qlt_trans _ _ _ E1 E2)). }
  destruct (mode =? SORT_CPU_LAZY).
  { destruct (Qgtb (ProcessInfo.cpu_percent_lazy pb) (ProcessInfo.cpu_percent_lazy pa)) eqn:E1,
             (Qgtb (ProcessInfo.cpu_percent_lazy pa) (ProcessInfo.cpu_percent_lazy pb)) eqn:E2;
      try lia.
    apply Qgtb_true in E1, E2. exfalso. exact (Qlt_irrefl _ (Qlt_trans _ _ _ E1 E2)). }
  destruct (mode =? SORT_MEM).
  { rewrite !Z.gtb_ltb.
    destruct (Z.ltb_spec (ProcessInfo.mem_rss pa) (ProcessInfo.mem_rss pb)),
             (Z.ltb_spec (ProcessInfo.mem_rss pb) (ProcessInfo.mem_rss pa)); lia. }
  destruct (mode =? SORT_PID).
  { unfold pid_order in *. rewrite !Z.gtb_ltb in *.
    destruct (Z.ltb_spec (ProcessInfo.pid pb) (ProcessInfo.pid pa)),
             (Z.ltb_spec (ProcessInfo.pid pa) (ProcessInfo.pid pb)); lia. }
  destruct (mode =? SORT_NAME); [apply strcasecmp_antisym|exact Hpid].
Qed.

(** The order that the comparator of a mode gives, as a fact on the keys. *)
Lemma compare_by_key_le (ka kb : Q) (pa pb : ProcessInfo.t) :
  (if Qgtb kb ka then 1 else if Qgtb ka kb then -1 else pid_order pa pb) ≤ 0
  ↔ (kb < ka)%Q ∨ ((ka == kb)%Q ∧ ProcessInfo.pid pa ≤ ProcessInfo.pid pb).
Proof.
  destruct (Qgtb kb ka) eqn:E1.
  { apply Qgtb_true in E1. split; [lia|].
    intros [H|[H _]]; exfalso.
    - exact (Qlt_irrefl _ (Qlt_trans _ _ _ E1 H)).
    - rewrite H in E1. exact (Qlt_irrefl _ E1). }
  apply Qgtb_false in E1.
  destruct (Qgtb ka kb) eqn:E2.
  { apply Qgtb_true in E2. split; [intros _; left; exact E2|lia]. }
  apply Qgtb_false in E2. rewrite pid_order_le. split.
  - intros H. right. split; [apply Qle_antisym; assumption|exact H].
  - intros [H|[_ H]]; [|exact H].
    exfalso. exact (Qlt_irrefl _ (Qlt_le_trans _ _ _ H E2)).
Qed.

(** X2. In every sort mode the comparator is transitive on processes whose
    names are C strings: if [pa] is not after [pb] and [pb] is not after
    [pc], then [pa] is not after [pc]. With X1 this makes it a total
    preorder, what [qsort] requires of its comparator. *)
Theorem compare_processes_trans (mode : Z) (pa pb pc : ProcessInfo.t) :
  c_string (ProcessInfo.name pa) = true →
  c_string (ProcessInfo.name pb) = true →
  compare_processes mode pa pb ≤ 0 →
  compare_processes mode pb pc ≤ 0 →
  compare_processes mode pa pc ≤ 0.
Proof.
  intros Ha Hb. unfold compare_processes.
  destruct (mode =? SORT_CPU_DIRECT).
  { rewrite !compare_by_key_le.
    intros [H1|[H1 P1]] [H2|[H2 P2]].
    - left. exact (Qlt_trans _ _ _ H2 H1).
    - left. rewrite <- H2. exact H1.
    - left. rewrite H1. exact H2.
    - right. split; [rewrite H1; exact H2|lia]. }
  destruct (mode =? SORT_CPU_LAZY).
  { rewrite !compare_by_key_le.
    intros [H1|[H1 P1]] [H2|[H2 P2]].
    - left. exact (Qlt_trans _ _ _ H2 H1).
    - left. rewrite <- H2. exact H1.
    - left. rewrite H1. exact H2.
    - right. split; [rewrite H1; exact H2|lia]. }
  destruct (mode =? SORT_MEM).
  { unfold pid_order. rewrite !Z.gtb_ltb.
    destruct (Z.ltb_spec (ProcessInfo.mem_rss pa) (ProcessInfo.mem_rss pb)),
             (Z.ltb_spec (ProcessInfo.mem_rss pb) (ProcessInfo.mem_rss pa)),
             (Z.ltb_spec (ProcessInfo.mem_rss pb) (ProcessInfo.mem_rss pc)),
             (Z.ltb_spec (ProcessInfo.mem_rss pc) (ProcessInfo.mem_rss pb)),
             (Z.ltb_spec (ProcessInfo.mem_rss pa) (ProcessInfo.mem_rss pc)),
             (Z.ltb_spec (ProcessInfo.mem_rss pc) (ProcessInfo.mem_rss pa)),
             (Z.ltb_spec (ProcessInfo.pid pb) (ProcessInfo.pid pa)),
             (Z.ltb_spec (ProcessInfo.pid pa) (ProcessInfo.pid pb)),
             (Z.ltb_spec (ProcessInfo.pid pc) (ProcessInfo.pid pb)),
             (Z.ltb_spec (ProcessInfo.pid pb) (ProcessInfo.pid pc)),
             (Z.ltb_spec (ProcessInfo.pid pc) (ProcessInfo.pid pa)),
             (Z.ltb_spec (ProcessInfo.pid pa) (ProcessInfo.pid pc)); lia. }
  destruct (mode =? SORT_PID).
  { unfold pid_order. rewrite !Z.gtb_ltb.
    destruct (Z.ltb_spec (ProcessInfo.pid pb) (ProcessInfo.pid pa)),
             (Z.ltb_spec (ProcessInfo.pid pa) (ProcessInfo.pid pb)),
             (Z.ltb_spec (ProcessInfo.pid pc) (ProcessInfo.pid pb)),
             (Z.ltb_spec (ProcessInfo.pid pb) (ProcessInfo.pid pc)),
             (Z.ltb_spec (ProcessInfo.pid pc) (ProcessInfo.pid pa)),
             (Z.ltb_spec (ProcessInfo.pid pa) (ProcessInfo.pid pc)); lia. }
  destruct (mode =? SORT_NAME).
  { apply strcasecmp_trans; assumption. }
  rewrite !pid_order_le. lia.
Qed.

(** Witness of X2: three processes in the name mode. *)
Lemma compare_processes_trans_witness :
  compare_processes SORT_NAME
    (ProcessInfo.mk 3 "awk" "" "" "S" 0 0 0 0 0 0)
    (ProcessInfo.mk 1 "Zsh" "" "" "S" 0 0 0 0 0 0) ≤ 0.
Proof.
  apply (compare_processes_trans SORT_NAME
           (ProcessInfo.mk 3 "awk" "" "" "S" 0 0 0 0 0 0)
           (ProcessInfo.mk 2 "Bash" "" "" "S" 0 0 0 0 0 0)
           (ProcessInfo.mk 1 "Zsh" "" "" "S" 0 0 0 0 0 0));
    vm_compute; congruence.
Defined.

(** X3. In the four modes other than the name mode, two processes compare
    as equal only when they have the same pid: processes with distinct pids
    are always strictly ordered. *)
Theorem compare_processes_zero_same_pid (mode : Z) (pa pb : ProcessInfo.t) :
  mode ≠ SORT_NAME →
  compare_processes mode pa pb = 0 →
  ProcessInfo.pid pa = ProcessInfo.pid pb.
Proof.
  intros Hmode. unfold compare_processes. rewrite <- pid_order_zero.
  destruct (mode =? SORT_CPU_DIRECT).
  { destruct (Qgtb _ _); [discriminate|]. destruct (Qgtb _ _); [discriminate|]. tauto. }
  destruct (mode =? SORT_CPU_LAZY).
  { destruct (Qgtb _ _); [discriminate|]. destruct (Qgtb _ _); [discriminate|]. tauto. }
  destruct (mode =? SORT_MEM).
  { destruct (_ >? _); [discriminate|]. destruct (_ <? _); [discriminate|]. tauto. }
  destruct (mode =? SORT_PID).
  { unfold pid_order.
    destruct (_ >? _); [discriminate|]. destruct (_ <? _); [discriminate|]. tauto. }
  destruct (Z.eqb_spec mode SORT_NAME); [contradiction|tauto].
Qed.

(** Witness of X3: two processes with the same resident memory and the same
    pid in the memory mode. *)
Lemma compare_processes_zero_same_pid_witness :
  ProcessInfo.pid (ProcessInfo.mk 7 "a" "" "" "S" 0 0 100 0 0 0)
  = ProcessInfo.pid (ProcessInfo.mk 7 "b" "" "" "R" 0 0 100 0 0 0).
Proof.
  apply (compare_processes_zero_same_pid SORT_MEM
           (ProcessInfo.mk 7 "a" "" "" "S" 0 0 100 0 0 0)
           (ProcessInfo.mk 7 "b" "" "" "R" 0 0 100 0 0 0)).
  - discriminate.
  - reflexivity.
Defined.

(** ** Network totals ([parse_net_stats]) *)

Lemma u64_add_l (a b : Z) : u64 (u64 a + b) = u64 (a + b).
Proof. unfold u64. apply Zplus_mod_idemp_l. Qed.

Lemma net_totals_acc_sums (lines : list net_line) (acc : Z * Z) :
  fold_left
    (λ (acc : Z * Z) (l : net_line),
       if String.eqb (iface l) "lo:" then acc
       else (u64 (acc.1 + rx_bytes l), u64 (acc.2 + tx_bytes l)))
    lines (u64 acc.1, u64 acc.2)
  = (u64 (acc.1 + sum_rx lines), u64 (acc.2 + sum_tx lines)).
Proof.
  revert acc. induction lines as [|l lines IH]; intros [a b]; cbn [fold_left sum_rx sum_tx fst snd].
  - rewrite !Z.add_0_r. reflexivity.
  - destruct (String.eqb (iface l) "lo:").
    + pose proof (IH (a, b)) as H. cbn [fst snd] in H. rewrite H.
      rewrite !Z.add_0_l. reflexivity.
    + cbn [fst snd]. rewrite !u64_add_l.
      pose proof (IH (a + rx_bytes l, b + tx_bytes l)) as H. cbn [fst snd] in H.
      rewrite H, !Z.add_assoc. reflexivity.
Qed.

Lemma sum_rx_app (l1 l2 : list net_line) : sum_rx (l1 ++ l2) = sum_rx l1 + sum_rx l2.
Proof. induction l1 as [|l l1 IH]; cbn [app sum_rx]; [lia|rewrite IH; lia]. Qed.

Lemma sum_tx_app (l1 l2 : list net_line) : sum_tx (l1 ++ l2) = sum_tx l1 + sum_tx l2.
Proof. induction l1 as [|l l1 IH]; cbn [app sum_tx]; [lia|rewrite IH; lia]. Qed.

Lemma net_totals_sums_eq (lines : list net_line) :
  net_totals lines = (u64 (sum_rx lines), u64 (sum_tx lines)).
Proof. exact (net_totals_acc_sums lines (0, 0)). Qed.

(** X4. The two totals that [parse_net_stats] accumulates are the sums of
    the received and of the sent bytes over every interface line other than
    "lo:", reduced modulo 2^64; they are the exact sums when these stay
    below 2^64 and no counter is negative. *)
Theorem net_totals_sums (lines : list net_line) :
  net_totals lines = (u64 (sum_rx lines), u64 (sum_tx lines))
  ∧ (0 ≤ sum_rx lines < 2 ^ 64 → (net_totals lines).1 = sum_rx lines)
  ∧ (0 ≤ sum_tx lines < 2 ^ 64 → (net_totals lines).2 = sum_tx lines).
Proof.
  rewrite net_totals_sums_eq. cbn [fst snd].
  split; [reflexivity|]. split; intros H; apply u64_small; exact H.
Qed.

(** X5. The line of the loopback interface never enters the network
    figures: a poll on a file with a "lo:" line leaves the same state as a
    poll on the file without that line, whatever its counters. *)
Theorem parse_net_stats_ignores_loopback (l1 l2 : list net_line) (l : net_line)
    (s : SystemStats) :
  iface l = "lo:"%string →
  parse_net_stats (Some (l1 ++ l :: l2)) s = parse_net_stats (Some (l1 ++ l2)) s.
Proof.
  intros Hlo.
  assert (E : net_totals (l1 ++ l :: l2) = net_totals (l1 ++ l2)).
  { rewrite !net_totals_sums_eq, !sum_rx_app, !sum_tx_app.
    cbn [sum_rx sum_tx]. rewrite Hlo. reflexivity. }
  unfold parse_net_stats. rewrite E. reflexivity.
Qed.

(** Witness of X5: a loopback line between two interfaces. *)
Lemma parse_net_stats_ignores_loopback_witness :
  parse_net_stats
    (Some ([mkNet "eth0:" 1000 500] ++ mkNet "lo:" 777 777 :: [mkNet "wlan0:" 30 20]))
    zero_stats
  = parse_net_stats (Some ([mkNet "eth0:" 1000 500] ++ [mkNet "wlan0:" 30 20])) zero_stats.
Proof.
  apply (parse_net_stats_ignores_loopback
           [mkNet "eth0:" 1000 500] [mkNet "wlan0:" 30 20] (mkNet "lo:" 777 777)).
  reflexivity.
Defined.

(** ** Memory figures ([parse_meminfo]) *)

Lemma int_of_float_percent (q : Q) :
  (0 <= q)%Q → (q <= 100)%Q → 0 ≤ int_of_float q ≤ 100.
Proof.
  destruct q as [n d]. unfold Qle, int_of_float. cbn [Qnum Qden].
  intros H0 H100. rewrite Z.mul_1_r in *. cbn in H0.
  assert (0 ≤ n) by lia.
  split.
  - apply Z.quot_pos; lia.
  - apply Z.quot_le_upper_bound; lia.
Qed.

Lemma ratio_percent (a b : Z) :
  0 ≤ a ≤ b → 0 < b →
  (0 <= inject_Z a * 100 / inject_Z b)%Q ∧ (inject_Z a * 100 / inject_Z b <= 100)%Q.
Proof.
  intros Ha Hb. pose proof (inject_Z_pos b Hb) as Pb.
  split.
  - apply Qle_shift_div_l; [exact Pb|]. rewrite Qmult_0_l.
    apply Qmult_le_0_compat; [apply inject_Z_nonneg; lia|discriminate].
  - apply Qle_shift_div_r; [exact Pb|].
    rewrite (Qmult_comm 100). apply Qmult_le_compat_r; [|discriminate].
    rewrite <- Zle_Qle. lia.
Qed.



Lemma meminfo_step_available (lines : list meminfo_line) (m : meminfo_vals) :
  no_mem_available lines = true →
  m_available (fold_left meminfo_step lines m) = m_available m.
Proof.
  revert m. induction lines as [|l lines IH]; intros m H; [reflexivity|].
  cbn [fold_left]. destruct l; cbn [no_mem_available] in H; try discriminate H;
    rewrite (IH _ H); reflexivity.
Qed.



(** ** Number of cores ([parse_cpu_stats]) *)

Lemma cores_listed_range (lines : list stat_line) :
  0 ≤ cores_listed lines ≤ MAX_CPU_CORES.
Proof.
  induction lines as [|l lines IH]; cbn [cores_listed]; [unfold MAX_CPU_CORES; lia|].
  destruct l as [t|n t|]; try exact IH.
  destruct (Z.ltb_spec (Z.of_nat n) MAX_CPU_CORES); lia.
Qed.

Lemma cpu_lines_num_cores (lines : list stat_line) (st : Z * list CoreStat * CoreStat) :
  0 ≤ st.1.1 →
  (fold_left cpu_line_step lines st).1.1 = Z.max st.1.1 (cores_listed lines).
Proof.
  revert st. induction lines as [|l lines IH]; intros [[nc cs] ov];
    cbn [fold_left cores_listed fst snd]; intros Hnc.
  - lia.
  - pose proof (cores_listed_range lines) as R.
    destruct l as [t|n t|]; cbn [cpu_line_step];
      try (rewrite IH by (cbn [fst snd]; lia); cbn [fst snd]; lia).
    destruct (Z.ltb_spec (Z.of_nat n) MAX_CPU_CORES);
      [|rewrite IH by (cbn [fst snd]; lia); cbn [fst snd]; lia].
    destruct (Z.leb_spec nc (Z.of_nat n));
      rewrite IH by (cbn [fst snd]; lia); cbn [fst snd]; lia.
Qed.

Lemma parse_cpu_stats_num_cores (file : option (list stat_line)) (s : SystemStats) :
  0 ≤ num_cores s →
  num_cores (parse_cpu_stats file s)
  = match file with
    | Some lines => Z.max (num_cores s) (cores_listed lines)
    | None => num_cores s
    end.
Proof.
  intros Hnc. destruct file as [lines|]; [|reflexivity].
  unfold parse_cpu_stats. cbn [num_cores].
  rewrite cpu_lines_num_cores; [reflexivity|exact Hnc].
Qed.

(** X8. After [parse_cpu_stats] has read /proc/stat in a state whose
    [num_cores] is not negative, [num_cores] is the larger of its previous
    value and of the highest core number below [MAX_CPU_CORES] in the file,
    plus one: the count never goes down, a core that went offline stays
    counted, and a core numbered 256 or more is not counted. *)
Theorem num_cores_max (lines : list stat_line) (s : SystemStats) :
  0 ≤ num_cores s →
  num_cores (parse_cpu_stats (Some lines) s) = Z.max (num_cores s) (cores_listed lines)
  ∧ num_cores s ≤ num_cores (parse_cpu_stats (Some lines) s)
  ∧ (num_cores s ≤ MAX_CPU_CORES → num_cores (parse_cpu_stats (Some lines) s) ≤ MAX_CPU_CORES).
Proof.
  intros Hnc. rewrite (parse_cpu_stats_num_cores (Some lines) s Hnc).
  pose proof (cores_listed_range lines). lia.
Qed.

(** Witness of X8: a machine that had eight cores, of which the file lists
    the cores 0 and 1 (and a core 256 that is out of the table). *)
Lemma num_cores_max_witness :
  num_cores
    (parse_cpu_stats
       (Some [LineOverall (mkTicks 9 0 0 0 0 0 0 0);
              LineCore 0 (mkTicks 5 0 0 0 0 0 0 0);
              LineCore 1 (mkTicks 4 0 0 0 0 0 0 0);
              LineCore 256 (mkTicks 4 0 0 0 0 0 0 0)])
       (mkStats 8 (cores zero_stats) zero_core 0 0 0 0 0 0 0 0 0 0 0 [] [] [] 0
          0 0 0 0 [] [] [] 0))
  = 8.
Proof.
  destruct (num_cores_max
              [LineOverall (mkTicks 9 0 0 0 0 0 0 0);
               LineCore 0 (mkTicks 5 0 0 0 0 0 0 0);
               LineCore 1 (mkTicks 4 0 0 0 0 0 0 0);
               LineCore 256 (mkTicks 4 0 0 0 0 0 0 0)]
              (mkStats 8 (cores zero_stats) zero_core 0 0 0 0 0 0 0 0 0 0 0 [] [] [] 0
                 0 0 0 0 [] [] [] 0)) as (E & _ & _).
  - cbn [num_cores]. lia.
  - rewrite E. reflexivity.
Defined.

Lemma poll_counters_num_cores (snap : Snapshot) (s : SystemStats) :
  num_cores (poll_counters snap s) = num_cores (parse_cpu_stats (proc_stat snap) s).
Proof.
  destruct snap as [f1 f2 f3 f4 f5 clk]. cbn [proc_stat].
  unfold poll_counters. cbn [proc_stat proc_meminfo proc_net_dev proc_diskstats].
  destruct f4, f3, f2; reflexivity.
Qed.

Lemma update_stats_num_cores (qsort : sorter) (snap : Snapshot) (g g' : Globals) :
  stats_inv (g_stats g) →
  update_stats qsort snap g = Some g' →
  num_cores (g_stats g') = num_cores (parse_cpu_stats (proc_stat snap) (g_stats g)).
Proof.
  intros Hinv Hstep.
  destruct (update_stats_ok qsort snap g Hinv) as (g2 & s2 & E & Honly & _ & Es & _).
  rewrite E in Hstep. injection Hstep as <-.
  rewrite Es, <- poll_counters_num_cores.
  rewrite Honly. reflexivity.
Qed.

(** X9. In every state that the program reaches by polling, [num_cores] is
    between 0 and [MAX_CPU_CORES] (256), whatever /proc/stat contained at
    each poll: the loops over the cores never leave the [cores] table. *)
Theorem num_cores_bounded (qsort : sorter) (g : Globals) :
  reachable qsort g → 0 ≤ num_cores (g_stats g) ≤ MAX_CPU_CORES.
Proof.
  induction 1 as [mode|g snap elapsed mode g' Hr IH Hstep].
  - cbn. unfold MAX_CPU_CORES. lia.
  - pose proof (reachable_inv qsort g Hr) as Hinv.
    rewrite (update_stats_num_cores qsort snap
               (mkGlobals (g_stats g) mode elapsed (g_clk_tck g)) g' Hinv Hstep).
    cbn [g_stats]. rewrite parse_cpu_stats_num_cores by lia.
    destruct (proc_stat snap) as [lines|]; [|exact IH].
    pose proof (cores_listed_range lines). lia.
Qed.

(** Witness of X9: the state after one poll of a machine whose /proc/stat
    lists the cores 0, 3 and 300. *)
Lemma num_cores_bounded_witness :
  ∃ g, poll insertion_qsort 1
         (mkSnapshot (Some [LineCore 0 (mkTicks 1 0 0 0 0 0 0 0);
                            LineCore 3 (mkTicks 1 0 0 0 0 0 0 0);
                            LineCore 300 (mkTicks 1 0 0 0 0 0 0 0)])
            None None None None 100)
         initial_globals = Some g
       ∧ num_cores (g_stats g) = 4
       ∧ 0 ≤ num_cores (g_stats g) ≤ MAX_CPU_CORES.
Proof.
  eexists. split; [vm_compute; reflexivity|]. split; [reflexivity|].
  apply (num_cores_bounded insertion_qsort).
  eapply (reachable_poll insertion_qsort initial_globals
            (mkSnapshot (Some [LineCore 0 (mkTicks 1 0 0 0 0 0 0 0);
                               LineCore 3 (mkTicks 1 0 0 0 0 0 0 0);
                               LineCore 300 (mkTicks 1 0 0 0 0 0 0 0)])
               None None None None 100) 1 SORT_CPU_LAZY).
  - apply (reachable_start insertion_qsort SORT_CPU_LAZY).
  - vm_compute. reflexivity.
Defined.

(** ** Tracked disks ([parse_disk_stats]) *)

Lemma disk_loop_names (old : list DiskInfo.t) (hi : Z) (lines : list diskstats_line)
    (acc : list DiskInfo.t) :
  (length acc ≤ Z.to_nat MAX_DISKS)%nat →
  DiskInfo.name <$> disk_loop old hi lines acc
  = (DiskInfo.name <$> acc)
    ++ take (Z.to_nat MAX_DISKS - length acc) (kept_disk_names lines).
Proof.
  revert acc. induction lines as [|l lines IH]; intros acc Hacc;
    cbn [disk_loop kept_disk_names].
  - rewrite take_nil, app_nil_r. reflexivity.
  - destruct (Z.ltb_spec (Z.of_nat (length acc)) MAX_DISKS) as [Hlt|Hge].
    + assert (Hlt' : (length acc < Z.to_nat MAX_DISKS)%nat) by lia.
      destruct l as [|name rs ws ss]; [apply IH; exact Hacc|].
      destruct (is_virtual_disk name); [apply IH; exact Hacc|].
      rewrite IH by (rewrite length_app; cbn [length]; lia).
      rewrite fmap_app, length_app, <- app_assoc. cbn [length fmap list_fmap app].
      f_equal.
      replace (Z.to_nat MAX_DISKS - length acc)%nat
        with (S (Z.to_nat MAX_DISKS - (length acc + 1)))%nat by lia.
      reflexivity.
    + replace (Z.to_nat MAX_DISKS - length acc)%nat with 0%nat by lia.
      rewrite take_0, app_nil_r. reflexivity.
Qed.

Lemma kept_disk_names_real (lines : list diskstats_line) :
  Forall (λ n, is_virtual_disk n = false) (kept_disk_names lines).
Proof.
  induction lines as [|l lines IH]; cbn [kept_disk_names]; [constructor|].
  destruct l as [|name rs ws ss]; [exact IH|].
  destruct (is_virtual_disk name) eqn:E; [exact IH|].
  constructor; assumption.
Qed.

(** X10. After [parse_disk_stats] has read /proc/diskstats, the tracked
    devices are, in the order of the file, the first [MAX_DISKS] (32)
    parsed lines whose name does not start with "loop", "ram" or "dm-";
    [num_disks] is their number, so it is at most 32, and no loop, ram or
    device-mapper device is ever tracked. *)
Theorem tracked_disks_names (lines : list diskstats_line) (s : SystemStats) :
  let s' := parse_disk_stats (Some lines) s in
  DiskInfo.name <$> tracked_disks s' = take (Z.to_nat MAX_DISKS) (kept_disk_names lines)
  ∧ num_disks s' = Z.of_nat (length (tracked_disks s'))
  ∧ 0 ≤ num_disks s' ≤ MAX_DISKS
  ∧ Forall (λ d, is_virtual_disk (DiskInfo.name d) = false) (tracked_disks s').
Proof.
  cbn zeta. unfold tracked_disks, parse_disk_stats. cbn [num_disks disks].
  set (nd := disk_loop _ _ lines []).
  rewrite Nat2Z.id, take_app_length.
  assert (E : DiskInfo.name <$> nd = take (Z.to_nat MAX_DISKS) (kept_disk_names lines)).
  { unfold nd. rewrite disk_loop_names by (cbn [length]; lia).
    cbn [fmap list_fmap app length]. rewrite Nat.sub_0_r. reflexivity. }
  split; [exact E|]. split; [reflexivity|]. split.
  - assert (L : length nd = length (take (Z.to_nat MAX_DISKS) (kept_disk_names lines))).
    { rewrite <- E, length_fmap. reflexivity. }
    rewrite length_take in L. unfold MAX_DISKS in *. lia.
  - apply (proj1 (Forall_fmap DiskInfo.name (λ n, is_virtual_disk n = false) nd)).
    rewrite E. apply Forall_take. apply kept_disk_names_real.
Qed.

(** ** Cells read by the graphs ([draw_graph], [draw_sparkline_horizontal]) *)

(** The cells read by the column loop lie inside the series exactly when
    the width is at most cursor + [HISTORY_SIZE] or differs from the cursor
    by a multiple of [HISTORY_SIZE]. *)
Lemma graph_index_inside (w idx : Z) :
  0 ≤ idx < HISTORY_SIZE → 0 < w →
  (∀ col, 0 ≤ col < Z.min w HISTORY_SIZE →
          0 ≤ graph_index HISTORY_SIZE w idx col < HISTORY_SIZE)
  ↔ (w ≤ idx + HISTORY_SIZE ∨ (w - idx) mod HISTORY_SIZE = 0).
Proof.
  unfold graph_index, HISTORY_SIZE. intros Hidx Hw. split.
  - intros H. specialize (H 0 ltac:(lia)).
    destruct (Z.le_gt_cases w (idx + 120)) as [Hle|Hgt]; [left; exact Hle|right].
    revert H. Z.to_euclidean_division_equations. lia.
  - intros H col Hcol.
    Z.to_euclidean_division_equations. lia.
Qed.

(** X11. With the cursor of a series in range, every cell that the column
    loop of [draw_graph] (and of [draw_sparkline_horizontal]) reads lies
    inside the series of [HISTORY_SIZE] cells exactly when the width of the
    graph is at most cursor + [HISTORY_SIZE] or differs from the cursor by
    a multiple of [HISTORY_SIZE]; for any other width the first column is
    read before the start of the series. *)
Theorem draw_graph_reads_inside (w idx : Z) :
  0 ≤ idx < HISTORY_SIZE → 0 < w →
  ((∀ col, 0 ≤ col < Z.min w HISTORY_SIZE →
           0 ≤ graph_index HISTORY_SIZE w idx col < HISTORY_SIZE)
   ↔ (w ≤ idx + HISTORY_SIZE ∨ (w - idx) mod HISTORY_SIZE = 0))
  ∧ (¬ (w ≤ idx + HISTORY_SIZE ∨ (w - idx) mod HISTORY_SIZE = 0) →
     graph_index HISTORY_SIZE w idx 0 < 0).
Proof.
  intros Hidx Hw. split; [apply graph_index_inside; assumption|].
  unfold graph_index, HISTORY_SIZE in *. intros Hnot.
  Z.to_euclidean_division_equations. lia.
Qed.

(** Witness of X11: a graph of 100 columns with the cursor at 7. *)
Lemma draw_graph_reads_inside_witness :
  0 ≤ graph_index HISTORY_SIZE 100 7 0 < HISTORY_SIZE.
Proof.
  apply (proj2 (proj1 (draw_graph_reads_inside 100 7 ltac:(vm_compute; split; congruence)
                         ltac:(lia)))).
  - left. vm_compute. congruence.
  - vm_compute. split; congruence.
Defined.

(** ** Contents of the process table ([parse_processes]) *)

Lemma clk_tck_of_pos (sys clk : Z) : 0 < clk_tck_of sys clk.
Proof.
  unfold clk_tck_of.
  destruct (Z.leb_spec clk 0); [destruct (Z.leb_spec sys 0)|destruct (Z.leb_spec clk 0)]; lia.
Qed.

Lemma clk_tck_of_idem (sys clk : Z) :
  clk_tck_of sys (clk_tck_of sys clk) = clk_tck_of sys clk.
Proof.
  pose proof (clk_tck_of_pos sys clk) as P.
  unfold clk_tck_of at 1.
  destruct (Z.leb_spec (clk_tck_of sys clk) 0); [lia|].
  destruct (Z.leb_spec (clk_tck_of sys clk) 0); [lia|reflexivity].
Qed.

Lemma count_running_range (recs : list stat_record) :
  0 ≤ count_running recs ≤ Z.of_nat (length recs).
Proof.
  induction recs as [|r recs IH]; cbn [count_running length]; [lia|].
  destruct (Ascii.eqb (st_state r) "R"); lia.
Qed.

Section ScanTable.
Variables (sys : Z) (prev_procs : list ProcessInfo.t) (g0 : Globals).

Lemma process_cpu_scanning (g : Globals) (r : stat_record) :
  scanning sys g0 g →
  let res := process_cpu sys prev_procs (num_cores (g_stats g)) (g_elapsed_seconds g)
               (g_clk_tck g) (st_utime r) (st_stime r) (fill_slot (total_mem (g_stats g)) r) in
  res.1 = scanned_slot sys prev_procs g0 r
  ∧ (res.2 = g_clk_tck g0 ∨ res.2 = clk_tck_of sys (g_clk_tck g0))
  ∧ ProcessInfo.state res.1 = st_state r.
Proof.
  intros (Enc & Etm & Eel & Eclk & _). cbn zeta. unfold scanned_slot.
  rewrite Enc, Etm, Eel. unfold process_cpu.
  destruct (List.find _ prev_procs) as [prev|]; cbn [fst snd ProcessInfo.state fill_slot].
  - assert (E : clk_tck_of sys (g_clk_tck g) = clk_tck_of sys (g_clk_tck g0)).
    { destruct Eclk as [-> | ->]; [reflexivity|apply clk_tck_of_idem]. }
    rewrite E. split; [reflexivity|]. split; [right; reflexivity|reflexivity].
  - split; [reflexivity|]. split; [exact Eclk|reflexivity].
Qed.

Lemma scan_loop_table (entries : list dirent) (g : Globals) :
  scanning sys g0 g →
  0 ≤ process_count (g_stats g) ≤ MAX_PROCESSES →
  let c := Z.to_nat (process_count (g_stats g)) in
  let recs := take (Z.to_nat MAX_PROCESSES - c) (stat_records entries) in
  ∃ g', scan_loop sys prev_procs entries g = Some g'
        ∧ scanning sys g0 g'
        ∧ process_count (g_stats g') = process_count (g_stats g) + Z.of_nat (length recs)
        ∧ running_count (g_stats g') = running_count (g_stats g) + count_running recs
        ∧ take (c + length recs) (processes (g_stats g'))
          = take c (processes (g_stats g)) ++ (scanned_slot sys prev_procs g0 <$> recs).
Proof.
  revert g. induction entries as [|e rest IH]; intros g Hs Hc; cbn zeta.
  - cbn [scan_loop stat_records]. rewrite take_nil. cbn [length fmap list_fmap count_running].
    exists g. rewrite !Z.add_0_r, Nat.add_0_r, app_nil_r. auto.
  - cbn [scan_loop].
    destruct (Z.ltb_spec (process_count (g_stats g)) MAX_PROCESSES) as [Hlt|Hge].
    2:{ replace (Z.to_nat MAX_PROCESSES - Z.to_nat (process_count (g_stats g)))%nat
          with 0%nat by lia.
        rewrite take_0. cbn [length fmap list_fmap count_running].
        exists g. rewrite !Z.add_0_r, Nat.add_0_r, app_nil_r. auto. }
    pose proof Hs as (Enc & Etm & Eel & Eclk & Elen).
    assert (Hidx : (Z.to_nat (process_count (g_stats g)) < length (processes (g_stats g)))%nat)
      by lia.
    destruct e as [| | |pid|r]; cbn [scan_entry stat_records].
    + cbn [mbind option_bind]. apply IH; assumption.
    + cbn [mbind option_bind]. apply IH; assumption.
    + rewrite store_in_bounds by lia. cbn [mbind option_bind].
      match goal with |- context [scan_loop _ _ rest ?g1] =>
        destruct (IH g1) as (g' & E & Hs' & Ec & Er & Et) end.
      { unfold scanning. cbn [g_stats with_processes num_cores total_mem processes
                              g_elapsed_seconds g_clk_tck].
        rewrite length_insert. auto. }
      { cbn [g_stats with_processes process_count]. exact Hc. }
      cbn [g_stats with_processes process_count running_count processes] in Ec, Er, Et.
      exists g'. split; [exact E|]. split; [exact Hs'|]. split; [exact Ec|].
      split; [exact Er|]. rewrite Et, take_insert_ge by lia. reflexivity.
    + rewrite store_in_bounds by lia. cbn [mbind option_bind].
      match goal with |- context [scan_loop _ _ rest ?g1] =>
        destruct (IH g1) as (g' & E & Hs' & Ec & Er & Et) end.
      { unfold scanning. cbn [g_stats with_processes num_cores total_mem processes
                              g_elapsed_seconds g_clk_tck].
        rewrite length_insert. auto. }
      { cbn [g_stats with_processes process_count]. exact Hc. }
      cbn [g_stats with_processes process_count running_count processes] in Ec, Er, Et.
      exists g'. split; [exact E|]. split; [exact Hs'|]. split; [exact Ec|].
      split; [exact Er|]. rewrite Et, take_insert_ge by lia. reflexivity.
    + destruct (process_cpu_scanning g r Hs) as (Eslot & Eclk' & Estate).
      destruct (process_cpu sys prev_procs (num_cores (g_stats g)) (g_elapsed_seconds g)
                  (g_clk_tck g) (st_utime r) (st_stime r)
                  (fill_slot (total_mem (g_stats g)) r)) as [proc clk'].
      cbn [fst snd] in Eslot, Eclk', Estate.
      rewrite store_in_bounds by lia. cbn [mbind option_bind].
      match goal with |- context [scan_loop _ _ rest ?g1] =>
        destruct (IH g1) as (g' & E & Hs' & Ec & Er & Et) end.
      { unfold scanning. cbn [g_stats with_processes num_cores total_mem processes
                              g_elapsed_seconds g_clk_tck].
        rewrite length_insert. auto. }
      { cbn [g_stats with_processes process_count]. lia. }
      cbn [g_stats with_processes process_count running_count processes] in Ec, Er, Et.
      replace (Z.to_nat MAX_PROCESSES - Z.to_nat (process_count (g_stats g)))%nat
        with (S (Z.to_nat MAX_PROCESSES - Z.to_nat (process_count (g_stats g) + 1)))%nat
        by lia.
      cbn [take length fmap list_fmap count_running].
      exists g'. split; [exact E|]. split; [exact Hs'|].
      split; [rewrite Ec; lia|].
      split; [rewrite Er, Estate; destruct (Ascii.eqb (st_state r) "R"); lia|].
      replace (Z.to_nat (process_count (g_stats g))
               + S (length (take (Z.to_nat MAX_PROCESSES
                                  - Z.to_nat (process_count (g_stats g) + 1))
                              (stat_records rest))))%nat
        with (Z.to_nat (process_count (g_stats g) + 1)
              + length (take (Z.to_nat MAX_PROCESSES
                              - Z.to_nat (process_count (g_stats g) + 1))
                          (stat_records rest)))%nat by lia.
      rewrite Et.
      replace (Z.to_nat (process_count (g_stats g) + 1))
        with (S (Z.to_nat (process_count (g_stats g)))) by lia.
      rewrite (take_S_r _ _ proc) by (apply list_lookup_insert_eq; exact Hidx).
      rewrite take_insert_ge by lia.
      rewrite <- app_assoc, Eslot. reflexivity.
Qed.
End ScanTable.

Lemma insert_sorted_perm (cmp : ProcessInfo.t → ProcessInfo.t → Z)
    (p : ProcessInfo.t) (l : list ProcessInfo.t) :
  insert_sorted cmp p l ≡ₚ p :: l.
Proof.
  induction l as [|q l IH]; cbn [insert_sorted]; [reflexivity|].
  destruct (cmp p q <=? 0); [reflexivity|].
  rewrite IH. apply Permutation_swap.
Qed.

Lemma insertion_qsort_perm (cmp : ProcessInfo.t → ProcessInfo.t → Z)
    (l : list ProcessInfo.t) :
  insertion_qsort cmp l ≡ₚ l.
Proof.
  unfold insertion_qsort. induction l as [|p l IH]; cbn [foldr]; [reflexivity|].
  rewrite insert_sorted_perm, IH. reflexivity.
Qed.

(** X12. When [parse_processes] can read the process directory, with a
    table of [MAX_PROCESSES] slots and a [qsort] that permutes its input, it
    returns, and: [process_count] is the number of readable processes of the
    directory, capped at 512; [running_count] is the number of those in
    state 'R', so it never exceeds [process_count]; and the counted part of
    the table holds, up to the order chosen by [qsort], the slots of the
    first 512 readable processes in directory order. Entries that are not
    numeric or cannot be read, and stat lines without parentheses, leave no
    trace in the counted part. *)
Theorem parse_processes_table (qsort : sorter) (clk : Z) (entries : list dirent)
    (g : Globals) :
  (∀ cmp l, qsort cmp l ≡ₚ l) →
  length (processes (g_stats g)) = Z.to_nat MAX_PROCESSES →
  0 ≤ process_count (g_stats g) ≤ MAX_PROCESSES →
  let recs := take (Z.to_nat MAX_PROCESSES) (stat_records entries) in
  let prev_procs := take (Z.to_nat (process_count (g_stats g))) (processes (g_stats g)) in
  ∃ g', parse_processes qsort clk (Some entries) g = Some g'
        ∧ process_count (g_stats g') = Z.of_nat (length recs)
        ∧ running_count (g_stats g') = count_running recs
        ∧ running_count (g_stats g') ≤ process_count (g_stats g')
        ∧ take (length recs) (processes (g_stats g'))
          ≡ₚ scanned_slot clk prev_procs g <$> recs
        ∧ length (processes (g_stats g')) = Z.to_nat MAX_PROCESSES.
Proof.
  intros Hperm Hlen Hc. cbn zeta. unfold parse_processes.
  replace (0 <=? process_count (g_stats g)) with true by (symmetry; apply Z.leb_le; lia).
  replace (process_count (g_stats g) <=? MAX_PROCESSES) with true
    by (symmetry; apply Z.leb_le; lia).
  cbn [andb].
  set (prev := take (Z.to_nat (process_count (g_stats g))) (processes (g_stats g))).
  set (g1 := mkGlobals (with_processes (g_stats g) 0 0 (processes (g_stats g)))
               (g_sort_mode g) (g_elapsed_seconds g) (g_clk_tck g)).
  destruct (scan_loop_table clk prev g entries g1) as (g' & E & Hs' & Ec & Er & Et).
  { unfold scanning, g1.
    cbn [g_stats with_processes num_cores total_mem processes g_elapsed_seconds g_clk_tck].
    split; [reflexivity|]. split; [reflexivity|]. split; [reflexivity|].
    split; [left; reflexivity|exact Hlen]. }
  { unfold g1. cbn [g_stats with_processes process_count]. unfold MAX_PROCESSES. lia. }
  unfold g1 in Ec, Er, Et.
  cbn [g_stats with_processes process_count running_count processes] in Ec, Er, Et.
  change (Z.to_nat 0) with 0%nat in Ec, Er, Et.
  rewrite Nat.sub_0_r in Ec, Er, Et. rewrite take_0 in Et. cbn [app] in Et.
  rewrite Nat.add_0_l in Et. rewrite Z.add_0_l in Ec, Er.
  set (recs := take (Z.to_nat MAX_PROCESSES) (stat_records entries)) in *.
  rewrite E. cbn [mbind option_bind].
  eexists. split; [reflexivity|].
  cbn [g_stats with_processes process_count running_count processes].
  destruct Hs' as (_ & _ & _ & _ & Hlen').
  assert (Hn : Z.to_nat (process_count (g_stats g')) = length recs) by lia.
  rewrite Hn.
  set (sorted := qsort _ (take (length recs) (processes (g_stats g')))).
  assert (Hsl : length sorted = length recs).
  { unfold sorted. rewrite (Permutation_length (Hperm _ _)), Et, length_fmap. reflexivity. }
  split; [exact Ec|]. split; [exact Er|].
  split; [rewrite Er, Ec; apply count_running_range|].
  split.
  - rewrite take_app_length' by (symmetry; exact Hsl).
    unfold sorted. rewrite Hperm, Et. reflexivity.
  - rewrite length_app, Hsl, length_drop.
    assert (length recs ≤ Z.to_nat MAX_PROCESSES)%nat.
    { unfold recs. rewrite length_take. lia. }
    lia.
Qed.

(** Witness of X12: a directory with a non-numeric entry, two processes,
    an unreadable entry and a stat line without closing parenthesis, at the
    first poll. *)
Lemma parse_processes_table_witness :
  ∃ g', parse_processes insertion_qsort 100
          (Some [EntryNotNumeric;
                 EntryStat (mkStat 7 "sh" "S" 10 2 800 "root" "sh");
                 EntryUnreadable;
                 EntryStat (mkStat 3 "init" "R" 5 5 400 "root" "init");
                 EntryNoCloseParen 9])
          initial_globals = Some g'
        ∧ process_count (g_stats g') = 2
        ∧ running_count (g_stats g') = 1.
Proof.
  destruct (parse_processes_table insertion_qsort 100
              [EntryNotNumeric;
               EntryStat (mkStat 7 "sh" "S" 10 2 800 "root" "sh");
               EntryUnreadable;
               EntryStat (mkStat 3 "init" "R" 5 5 400 "root" "init");
               EntryNoCloseParen 9]
              initial_globals insertion_qsort_perm)
    as (g' & E & Ec & Er & _).
  - reflexivity.
  - vm_compute. split; congruence.
  - exists g'. split; [exact E|]. split; [exact Ec|exact Er].
Defined.

Lemma find_pid_None (pid : Z) (prev_procs : list ProcessInfo.t) :
  pid ∉ (ProcessInfo.pid <$> prev_procs) →
  List.find (λ q, ProcessInfo.pid q =? pid) prev_procs = None.
Proof.
  induction prev_procs as [|q l IH]; cbn [List.find fmap list_fmap]; [reflexivity|].
  intros Hnot. rewrite not_elem_of_cons in Hnot. destruct Hnot as [Hne Hnot].
  destruct (Z.eqb_spec (ProcessInfo.pid q) pid); [congruence|]. apply IH. exact Hnot.
Qed.

(** X13. A process whose pid is not in the previous table is entered with
    an instant CPU share of 0 and a smoothed share of 0, whatever its tick
    counters, and its ticks are recorded for the next poll; in particular
    every process shows 0 at the first poll. *)
Theorem new_process_zero_cpu (clk : Z) (prev_procs : list ProcessInfo.t) (g : Globals)
    (r : stat_record) :
  st_pid r ∉ (ProcessInfo.pid <$> prev_procs) →
  let slot := scanned_slot clk prev_procs g r in
  ProcessInfo.pid slot = st_pid r
  ∧ ProcessInfo.cpu_percent slot = 0%Q
  ∧ ProcessInfo.cpu_percent_lazy slot = 0%Q
  ∧ ProcessInfo.prev_utime slot = st_utime r
  ∧ ProcessInfo.prev_stime slot = st_stime r.
Proof.
  intros Hnew. cbn zeta. unfold scanned_slot, process_cpu.
  change (ProcessInfo.pid (fill_slot (total_mem (g_stats g)) r)) with (st_pid r).
  rewrite (find_pid_None _ _ Hnew). cbn. auto.
Qed.

(** Witness of X13: pid 7 against a previous table that holds pid 3. *)
Lemma new_process_zero_cpu_witness :
  ProcessInfo.cpu_percent
    (scanned_slot 100 [ProcessInfo.mk 3 "init" "init" "root" "S" 5 5 400 0 0 0]
       initial_globals (mkStat 7 "sh" "S" 1000 200 800 "root" "sh")) = 0%Q.
Proof.
  apply (new_process_zero_cpu 100 [ProcessInfo.mk 3 "init" "init" "root" "S" 5 5 400 0 0 0]
           initial_globals (mkStat 7 "sh" "S" 1000 200 800 "root" "sh")).
  cbn [fmap list_fmap ProcessInfo.pid st_pid].
  intros H. apply list_elem_of_singleton in H. discriminate H.
Defined.

(** ** Placement of the panes ([draw_screen]) *)

(** The regions of a layout, with the two splits named. *)
Lemma draw_screen_layout (p : Panes) (w h : Z) :
  valid_panes p →
  (calculate_minimum_size p).1 ≤ w → (calculate_minimum_size p).2 ≤ h →
  let ch := (split_heights p (h - 1 - 1)).1 in
  let bh := (split_heights p (h - 1 - 1)).2 in
  let lw := (split_widths p w).1 in
  let pw := (split_widths p w).2 in
  draw_screen p w h
  = Layout
      ((if truthy (g_show_cpu p) then [mkRegion PaneCpu 1 1 (w - 2) ch] else [])
       ++ left_regions p (1 + ch) bh lw
       ++ (if truthy (g_show_proc p)
           then [mkRegion PaneProc
                   (if g_show_mem p + g_show_disks p + g_show_net p >? 0
                    then lw + 2 else 1)
                   (1 + ch) pw bh]
           else [])).
Proof.
  intros Hv Hw Hh.
  pose proof (split_heights_spec p h Hv Hh) as (Hsum & Hcpu & Hleft & Hbot).
  pose proof (split_widths_spec p w Hv Hw) as (Hlw & Hpw & Hrow & Hlw2 & Hpw2).
  cbn zeta. unfold draw_screen.
  destruct (calculate_minimum_size p) as [mw mh]. cbn [fst snd] in Hw, Hh.
  replace (w <? mw) with false by (symmetry; apply Z.ltb_ge; exact Hw).
  replace (h <? mh) with false by (symmetry; apply Z.ltb_ge; exact Hh).
  cbn [orb].
  destruct (split_heights p (h - 1 - 1)) as [ch bh].
  destruct (split_widths p w) as [lw pw].
  cbn [fst snd] in *.
  assert (Hby : (if truthy (g_show_cpu p) && (ch >? 0) then 1 + ch else 1) = 1 + ch).
  { destruct (truthy (g_show_cpu p)); cbn [andb]; [|lia].
    destruct (Z.gtb_spec ch 0); [reflexivity|lia]. }
  rewrite Hby. f_equal. f_equal; [|f_equal].
  - destruct (truthy (g_show_cpu p)); cbn [andb]; [|reflexivity].
    replace (ch >? 0) with true by (symmetry; apply Z.gtb_lt; lia). reflexivity.
  - destruct (truthy (g_show_proc p)); cbn [andb]; [|reflexivity].
    replace (pw >? 0) with true by (symmetry; apply Z.gtb_lt; lia). reflexivity.
Qed.

(** The stacked left panes do not overlap each other. *)
Lemma left_regions_disjoint (p : Panes) (bottom_y bottom_height left_width : Z) :
  valid_panes p →
  0 < left_width → 0 < bottom_height →
  4 * (g_show_mem p + g_show_disks p + g_show_net p) ≤ bottom_height →
  ∀ a b, a ∈ left_regions p bottom_y bottom_height left_width →
         b ∈ left_regions p bottom_y bottom_height left_width →
         a ≠ b → ¬ regions_overlap a b.
Proof.
  destruct p as [c m d n pr].
  unfold valid_panes, flag.
  cbn [g_show_cpu g_show_mem g_show_disks g_show_net g_show_proc].
  intros Hv Hlw Hbh Hfit. unfold left_regions.
  cbn [g_show_cpu g_show_mem g_show_disks g_show_net g_show_proc].
  flags_cases Hv; revert Hfit; count_left_panes; intros Hfit;
    cbn [truthy Z.eqb negb orb andb Z.gtb Z.compare app];
    split_comparisons; cbn [app];
    try (exfalso; Z.to_euclidean_division_equations; lia);
    intros a b Ha Hb Hne;
    repeat match goal with
      | H : _ ∈ [] |- _ => apply elem_of_nil in H; destruct H
      | H : _ ∈ _ :: _ |- _ => apply elem_of_cons in H; destruct H as [->|H]
      end;
    try congruence;
    unfold regions_overlap; cbn [r_x r_y r_w r_h]; lia.
Qed.

(** X14. On a terminal at or above the minimum size, with flags that are 0
    or 1, no two panes that [draw_screen] draws share a cell of the
    terminal. *)
Theorem draw_screen_disjoint (p : Panes) (w h : Z) (regions : list region) :
  valid_panes p →
  (calculate_minimum_size p).1 ≤ w → (calculate_minimum_size p).2 ≤ h →
  draw_screen p w h = Layout regions →
  ∀ a b, a ∈ regions → b ∈ regions → a ≠ b → ¬ regions_overlap a b.
Proof.
  intros Hv Hw Hh Hdraw.
  pose proof (split_heights_spec p h Hv Hh) as (Hsum & Hcpu & Hleft & Hbot).
  pose proof (split_widths_spec p w Hv Hw) as (Hlw & Hpw & Hrow & Hlw2 & Hpw2).
  rewrite (draw_screen_layout p w h Hv Hw Hh) in Hdraw. cbn zeta in Hdraw.
  injection Hdraw as <-.
  set (ch := (split_heights p (h - 1 - 1)).1) in *.
  set (bh := (split_heights p (h - 1 - 1)).2) in *.
  set (lw := (split_widths p w).1) in *.
  set (pw := (split_widths p w).2) in *.
  assert (Hin_left : ∀ r, r ∈ left_regions p (1 + ch) bh lw →
            0 < g_show_mem p + g_show_disks p + g_show_net p
            ∧ r_x r = 1 ∧ r_w r = lw ∧ 1 + ch ≤ r_y r ∧ 0 < r_h r).
  { intros r Hr.
    destruct (Z.ltb_spec 0 (g_show_mem p + g_show_disks p + g_show_net p)) as [Hpos|Hnone].
    - destruct (left_regions_spec p (1 + ch) bh lw Hv) as [_ F]; [lia..|].
      rewrite Forall_forall in F. specialize (F r Hr). intuition lia.
    - exfalso. revert Hr. clear -Hv Hnone.
      destruct p as [c m d n pr]. unfold valid_panes, flag in Hv.
      cbn [g_show_cpu g_show_mem g_show_disks g_show_net g_show_proc] in *.
      destruct Hv as (_ & [-> | ->] & [-> | ->] & [-> | ->] & _);
        try (exfalso; lia).
      intros Hr. apply elem_of_nil in Hr. exact Hr. }
  assert (Hdis_left : ∀ a b, a ∈ left_regions p (1 + ch) bh lw →
            b ∈ left_regions p (1 + ch) bh lw → a ≠ b → ¬ regions_overlap a b).
  { intros a b Ha Hb. destruct (Hin_left a Ha) as (Hpos & _).
    apply (left_regions_disjoint p (1 + ch) bh lw Hv); [lia..|exact Ha|exact Hb]. }
  assert (Hcpu0 : 0 ≤ ch) by (destruct (truthy (g_show_cpu p)); lia).
  intros a b Ha Hb Hne.
  rewrite !elem_of_app in Ha, Hb.
  destruct Ha as [Ha|[Ha|Ha]], Hb as [Hb|[Hb|Hb]];
    try (apply Hdis_left; assumption);
    repeat match goal with
      | H : _ ∈ (if ?c then _ else _) |- _ => destruct c eqn:?
      | H : _ ∈ [] |- _ => apply elem_of_nil in H; destruct H
      | H : _ ∈ [_] |- _ => apply list_elem_of_singleton in H; subst
      | H : _ ∈ left_regions _ _ _ _ |- _ => apply Hin_left in H
      end;
    try congruence;
    unfold regions_overlap; cbn [r_x r_y r_w r_h];
    repeat match goal with
      | |- context [?x >? 0] => destruct (Z.gtb_spec x 0)
      end;
    try lia.
Qed.

(** Witness of X14: the five panes on a terminal of 100 columns by 30
    rows; the memory pane and the process pane. *)
Lemma draw_screen_disjoint_witness :
  draw_screen (mkPanes 1 1 1 1 1) 100 30
  = Layout [mkRegion PaneCpu 1 1 98 7; mkRegion PaneMem 1 8 33 7;
            mkRegion PaneDisk 1 15 33 7; mkRegion PaneNet 1 22 33 7;
            mkRegion PaneProc 35 8 64 21]
  ∧ ¬ regions_overlap (mkRegion PaneMem 1 8 33 7) (mkRegion PaneProc 35 8 64 21).
Proof.
  split; [reflexivity|].
  apply (draw_screen_disjoint (mkPanes 1 1 1 1 1) 100 30
           [mkRegion PaneCpu 1 1 98 7; mkRegion PaneMem 1 8 33 7;
            mkRegion PaneDisk 1 15 33 7; mkRegion PaneNet 1 22 33 7;
            mkRegion PaneProc 35 8 64 21]).
  - unfold valid_panes, flag. cbn. intuition lia.
  - vm_compute. congruence.
  - vm_compute. congruence.
  - vm_compute. reflexivity.
  - apply (list_elem_of_lookup_2 _ 1%nat). reflexivity.
  - apply (list_elem_of_lookup_2 _ 4%nat). reflexivity.
  - discriminate.
Defined.

(** At or above the minimum height the check of the bottom section changes
    nothing. *)
Lemma split_heights_above (p : Panes) (h : Z) :
  valid_panes p → (calculate_minimum_size p).2 ≤ h →
  split_heights p (h - 1 - 1)
  = (cpu_height_of p (h - 1 - 1), h - 1 - 1 - cpu_height_of p (h - 1 - 1)).
Proof.
  destruct p as [c m d n pr]. unfold valid_panes, flag.
  cbn [g_show_cpu g_show_mem g_show_disks g_show_net g_show_proc].
  intros Hv Hh. flags_cases Hv; compute_minimum Hh;
    unfold split_heights, cpu_height_of;
    cbn [g_show_cpu g_show_mem g_show_disks g_show_net g_show_proc truthy Z.eqb
         negb orb andb Z.add Pos.add Pos.succ];
    split_comparisons;
    cbn [fst snd]; try reflexivity;
    try (exfalso; Z.to_euclidean_division_equations; lia).
Qed.

Lemma cpu_height_of_mono (p : Panes) (a a' : Z) :
  0 ≤ a ≤ a' →
  cpu_height_of p a ≤ cpu_height_of p a'
  ∧ a - cpu_height_of p a ≤ a' - cpu_height_of p a'.
Proof.
  intros Ha. unfold cpu_height_of.
  destruct (truthy (g_show_cpu p)); [|lia].
  destruct (truthy (g_show_mem p) || truthy (g_show_disks p) || truthy (g_show_net p));
    rewrite !Z.gtb_ltb;
    repeat match goal with
      | |- context [?x <? ?y] => destruct (Z.ltb_spec x y)
      end;
    Z.to_euclidean_division_equations; lia.
Qed.



(** ** The process list ([draw_process_list]) *)

(** From 50 columns on, every field of a row of the process list lies
    inside the pane. *)
Lemma row_fields_fit (w : Z) :
  50 ≤ w → Forall (λ f, 0 ≤ f.1 ∧ 0 < f.2 ∧ f.1 + f.2 ≤ w) (row_fields w).
Proof.
  intros Hw. unfold row_fields, process_columns.
  unfold PROC_PID_WIDTH, PROC_MEM_WIDTH, PROC_CPU_WIDTH, PROC_COLUMN_SPACING,
    PROC_PROG_MIN_WIDTH, PROC_USER_MIN_WIDTH, PROC_CMD_MIN_WIDTH, PROC_NARROW_OFFSET.
  change (8 + 8 + 6 + 4) with 26. change (8 + 6) with 14. change (8 + 8 + 6) with 22.
  destruct (Z.ltb_spec (w - 26) 14); [lia|].
  destruct (Z.ltb_spec (w - 26) 22); [lia|].
  cbn [show_user show_cmd prog_width cmd_width user_width app].
  repeat match goal with
    | |- context [?x <? ?y] => destruct (Z.ltb_spec x y)
    end;
    repeat constructor; cbn [fst snd]; Z.to_euclidean_division_equations; lia.
Qed.

(** The process pane of a layout is at least 51 columns wide. *)
Lemma split_widths_proc (p : Panes) (w : Z) :
  80 ≤ w → truthy (g_show_proc p) = true →
  0 ≤ g_show_mem p + g_show_disks p + g_show_net p →
  51 ≤ (split_widths p w).2.
Proof.
  intros Hw Hp Hn. unfold split_widths. rewrite Hp. cbn [andb negb].
  rewrite ?Z.gtb_ltb.
  destruct (Z.eqb_spec (g_show_mem p + g_show_disks p + g_show_net p) 0);
    destruct (Z.ltb_spec 0 (g_show_mem p + g_show_disks p + g_show_net p));
    cbn [fst snd]; try lia.
  split_comparisons; cbn [fst snd]; Z.to_euclidean_division_equations; lia.
Qed.

(** X16. In every layout that [draw_screen] draws at or above the minimum
    size with flags that are 0 or 1, the header row and the process rows of
    the process list fit the pane: every field, at the width it is padded
    to, starts inside the process pane and ends at or before its last
    column. *)
Theorem process_row_in_pane (p : Panes) (w h : Z) (regions : list region) (r : region) :
  valid_panes p →
  (calculate_minimum_size p).1 ≤ w → (calculate_minimum_size p).2 ≤ h →
  draw_screen p w h = Layout regions →
  r ∈ regions → r_pane r = PaneProc →
  Forall (λ f, 0 ≤ f.1 ∧ 0 < f.2 ∧ f.1 + f.2 ≤ r_w r) (row_fields (r_w r)).
Proof.
  intros Hv Hw Hh Hdraw Hr Hpane.
  pose proof (calculate_minimum_size_floor p) as [F1 _].
  rewrite (draw_screen_layout p w h Hv Hw Hh) in Hdraw. cbn zeta in Hdraw.
  injection Hdraw as <-.
  assert (Hn : 0 ≤ g_show_mem p + g_show_disks p + g_show_net p).
  { destruct Hv as (_ & [E1|E1] & [E2|E2] & [E3|E3] & _); rewrite E1, E2, E3; lia. }
  rewrite !elem_of_app in Hr. destruct Hr as [Hr|[Hr|Hr]].
  - destruct (truthy (g_show_cpu p)); [|apply elem_of_nil in Hr; destruct Hr].
    apply list_elem_of_singleton in Hr. subst r. discriminate Hpane.
  - exfalso.
    destruct (Z.ltb_spec 0 (g_show_mem p + g_show_disks p + g_show_net p)) as [Hpos|Hnone].
    + pose proof (split_heights_spec p h Hv Hh) as (_ & _ & Hleft & Hbot).
      pose proof (split_widths_spec p w Hv Hw) as (Hlw & _).
      destruct (left_regions_spec p (1 + (split_heights p (h - 1 - 1)).1)
                  (split_heights p (h - 1 - 1)).2 (split_widths p w).1 Hv)
        as [E _]; [lia..|].
      apply (list_elem_of_fmap_2 r_pane) in Hr. rewrite E, Hpane in Hr.
      rewrite !elem_of_app in Hr.
      destruct Hr as [Hr|[Hr|Hr]];
        match type of Hr with _ ∈ (if ?c then _ else _) => destruct c end;
        try (apply elem_of_nil in Hr; destruct Hr);
        apply list_elem_of_singleton in Hr; discriminate Hr.
    + revert Hr. clear -Hv Hnone.
      destruct p as [c m d n pr]. unfold valid_panes, flag in Hv.
      cbn [g_show_cpu g_show_mem g_show_disks g_show_net g_show_proc] in *.
      destruct Hv as (_ & [-> | ->] & [-> | ->] & [-> | ->] & _);
        try (exfalso; lia).
      intros Hr. apply elem_of_nil in Hr. exact Hr.
  - destruct (truthy (g_show_proc p)) eqn:Hp; [|apply elem_of_nil in Hr; destruct Hr].
    apply list_elem_of_singleton in Hr. subst r. cbn [r_w].
    apply row_fields_fit.
    pose proof (split_widths_proc p w ltac:(lia) Hp Hn). lia.
Qed.

(** Witness of X16: the five panes on a terminal of 80 columns by 19 rows,
    where the process pane is 51 columns wide. *)
Lemma process_row_in_pane_witness :
  Forall (λ f, 0 ≤ f.1 ∧ 0 < f.2 ∧ f.1 + f.2 ≤ 51) (row_fields 51).
Proof.
  apply (process_row_in_pane (mkPanes 1 1 1 1 1) 80 19
           [mkRegion PaneCpu 1 1 78 5; mkRegion PaneMem 1 6 26 4;
            mkRegion PaneDisk 1 10 26 4; mkRegion PaneNet 1 14 26 4;
            mkRegion PaneProc 28 6 51 12]
           (mkRegion PaneProc 28 6 51 12)).
  - unfold valid_panes, flag. cbn. intuition lia.
  - vm_compute. congruence.
  - vm_compute. congruence.
  - vm_compute. reflexivity.
  - apply (list_elem_of_lookup_2 _ 4%nat). reflexivity.
  - reflexivity.
Defined.

(** The rows of the loop in closed form, when the pane has room for
    [list_height] rows. *)
Lemma process_rows_from_spec (fuel : nat) (i list_start list_height max_line
    offset process_count : Z) :
  0 ≤ i → list_height ≤ i + Z.of_nat fuel →
  list_start + list_height ≤ max_line →
  process_rows_from fuel i list_start list_height max_line offset process_count
  = (λ k, (list_start + k, offset + k))
      <$> seqZ i (Z.min list_height (process_count - offset) - i).
Proof.
  revert i. induction fuel as [|fuel IH]; intros i Hi Hfuel Hroom;
    cbn [process_rows_from].
  - rewrite seqZ_nil by lia. reflexivity.
  - destruct (Z.ltb_spec i list_height) as [H1|H1];
      destruct (Z.ltb_spec (offset + i) process_count) as [H2|H2]; cbn [andb];
      try (rewrite seqZ_nil by lia; reflexivity).
    rewrite Z.geb_leb.
    destruct (Z.leb_spec max_line (list_start + i)); [lia|].
    rewrite IH by lia.
    rewrite (seqZ_cons i) by lia. cbn [fmap list_fmap]. f_equal.
    f_equal. f_equal; lia.
Qed.

(** X17. When [draw_process_list] draws a pane of five rows or more with a
    selection inside the table and a scroll offset that is not negative,
    the new scroll offset is not negative, the selected process is on one
    of the rows drawn, every row drawn is a row of the pane between the
    header and the status line, and every process drawn is an entry of the
    counted part of the table. *)
Theorem process_rows_selected_visible (y h selected offset process_count : Z) :
  5 ≤ h → 0 ≤ offset → 0 ≤ selected < process_count →
  let rows := (process_rows y h selected offset process_count).1 in
  let offset' := (process_rows y h selected offset process_count).2 in
  0 ≤ offset' ≤ selected
  ∧ (y + 2 + (selected - offset'), selected) ∈ rows
  ∧ Forall (λ ri, y + 2 ≤ ri.1 < y + h - 1 ∧ 0 ≤ ri.2 < process_count) rows.
Proof.
  intros Hh Hoff Hsel. cbn zeta. unfold process_rows.
  destruct (Z.ltb_spec h 5); [lia|]. cbn [fst snd].
  rewrite process_rows_from_spec by lia.
  set (off' := scroll_offset selected offset (h - 3)).
  assert (Hoff' : 0 ≤ off' ≤ selected ∧ selected < off' + (h - 3)).
  { unfold off', scroll_offset. rewrite Z.geb_leb.
    destruct (Z.ltb_spec selected offset); [lia|].
    destruct (Z.leb_spec (offset + (h - 3)) selected); lia. }
  split; [lia|]. split.
  - apply list_elem_of_fmap. exists (selected - off'). split; [f_equal; lia|].
    apply elem_of_seqZ. lia.
  - apply Forall_fmap, Forall_forall. intros k Hk. apply elem_of_seqZ in Hk.
    cbn [fst snd compose]. lia.
Qed.

(** Witness of X17: a pane of 12 rows at row 6, process 20 of 50 selected
    with the list at its top. *)
Lemma process_rows_selected_visible_witness :
  (16, 20) ∈ (process_rows 6 12 20 0 50).1.
Proof.
  destruct (process_rows_selected_visible 6 12 20 0 50) as (_ & H & _); [lia..|].
  exact H.
Defined.

(** ** Bars ([draw_mini_bar]) *)

Lemma frac_idx_range (q : Q) :
  -6 ≤ int_of_float ((q - inject_Z (int_of_float q)) * 7) ≤ 6.
Proof.
  destruct q as [n d]. unfold int_of_float.
  cbn [Qnum Qden Qminus Qplus Qopp Qmult inject_Z].
  rewrite !Pos.mul_1_r, !Z.mul_1_r.
  pose proof (Pos2Z.is_pos d) as Hd.
  replace (n + - (n `quot` Z.pos d) * Z.pos d) with (n `rem` Z.pos d)
    by (pose proof (Z.quot_rem' n (Z.pos d)); lia).
  pose proof (Z.rem_bound_abs n (Z.pos d) ltac:(lia)) as Hr.
  generalize dependent (n `rem` Z.pos d). intros r Hr.
  generalize dependent (Z.pos d). intros b Hb Hr.
  assert (Z.abs r < b) by lia. clear Hr.
  Z.to_euclidean_division_equations. nia.
Qed.

(** X18. Whatever the percentage and the width, [draw_mini_bar] draws
    exactly [w] cells and never reads outside its table of eight glyphs:
    the index of a partial block is between 0 and 6. *)
Theorem draw_mini_bar_glyphs (w : Z) (percent : Q) :
  length (draw_mini_bar w percent) = Z.to_nat w
  ∧ Forall (λ c, match c with BarBlock k => 0 ≤ k ≤ 6 | _ => True end)
      (draw_mini_bar w percent).
Proof.
  unfold draw_mini_bar. split.
  - rewrite length_fmap, length_seqZ. reflexivity.
  - apply Forall_fmap, Forall_forall. intros i _. cbn [compose].
    destruct (i <? _); [exact I|].
    destruct (i =? _); cbn [andb]; [|exact I].
    rewrite Z.geb_leb.
    match goal with |- context [0 <=? ?k] => destruct (Z.leb_spec 0 k) as [Hk|Hk] end;
      [|exact I].
    pose proof (frac_idx_range (percent / 100 * inject_Z w)). lia.
Qed.

(** For a percentage from 0 to 100 the bar is [filled] full cells, where
    [filled] is the integer part of [percent * w / 100], then one partial
    block unless the bar is full, then spaces. *)
Lemma draw_mini_bar_cells (w : Z) (percent : Q) :
  0 ≤ w → (0 <= percent)%Q → (percent <= 100)%Q →
  let filled := int_of_float (percent / 100 * inject_Z w) in
  0 ≤ filled ≤ w
  ∧ ∀ i c, draw_mini_bar w percent !! i = Some c →
      (Z.of_nat i < filled → c = BarFull)
      ∧ (Z.of_nat i = filled → ∃ k, c = BarBlock k ∧ 0 ≤ k ≤ 6)
      ∧ (filled < Z.of_nat i → c = BarBlank).
Proof.
  intros Hw H0 H100. cbn zeta.
  set (q := (percent / 100 * inject_Z w)%Q).
  assert (Hq0 : (0 <= q)%Q).
  { unfold q. apply Qmult_le_0_compat; [|apply inject_Z_nonneg; exact Hw].
    apply Qle_shift_div_l; [reflexivity|]. rewrite Qmult_0_l. exact H0. }
  assert (Hqw : (q <= inject_Z w)%Q).
  { unfold q. rewrite <- (Qmult_1_l (inject_Z w)) at 2.
    apply Qmult_le_compat_r; [|apply inject_Z_nonneg; exact Hw].
    apply Qle_shift_div_r; [reflexivity|]. rewrite Qmult_1_l. exact H100. }
  assert (Hfilled : 0 ≤ int_of_float q ≤ w).
  { revert Hq0 Hqw. generalize q. intros [n d]. unfold Qle, int_of_float.
    cbn [Qnum Qden inject_Z]. rewrite !Z.mul_1_r. cbn [Z.mul].
    intros Hn Hnw. pose proof (Pos2Z.is_pos d).
    split; [apply Z.quot_pos; lia|].
    apply Z.quot_le_upper_bound; lia. }
  assert (Hfrac : 0 ≤ int_of_float ((q - inject_Z (int_of_float q)) * 7) ≤ 6).
  { split; [|apply frac_idx_range].
    revert Hq0. generalize q. intros [n d]. unfold Qle, int_of_float.
    cbn [Qnum Qden Qminus Qplus Qopp Qmult inject_Z].
    rewrite !Pos.mul_1_r, !Z.mul_1_r. cbn [Z.mul]. intros Hn.
    pose proof (Pos2Z.is_pos d) as Hd.
    replace (n + - (n `quot` Z.pos d) * Z.pos d) with (n `rem` Z.pos d)
      by (pose proof (Z.quot_rem' n (Z.pos d)); lia).
    pose proof (Z.rem_nonneg n (Z.pos d) ltac:(lia) Hn).
    apply Z.quot_pos; lia. }
  split; [exact Hfilled|].
  intros i c Hc. unfold draw_mini_bar in Hc. fold q in Hc.
  rewrite list_lookup_fmap in Hc.
  destruct (seqZ 0 w !! i) as [j|] eqn:Ej; [|discriminate Hc].
  apply lookup_seqZ in Ej. destruct Ej as [-> _].
  cbn [fmap option_fmap option_map] in Hc. injection Hc as <-.
  rewrite Z.add_0_l, Z.geb_leb.
  destruct (Z.ltb_spec (Z.of_nat i) (int_of_float q));
    destruct (Z.eqb_spec (Z.of_nat i) (int_of_float q));
    destruct (Z.leb_spec 0 (int_of_float ((q - inject_Z (int_of_float q)) * 7)));
    cbn [andb]; repeat split; intros; try lia; try reflexivity.
  eexists. split; [reflexivity|lia].
Qed.



(** ** Sizes in binary units ([format_bytes]) *)

Lemma format_bytes_loop_spec (fuel : nat) (val : Q) (unit : Z) :
  (0 <= val)%Q → 0 ≤ unit → 4 ≤ unit + Z.of_nat fuel →
  let r := format_bytes_loop fuel val unit in
  (r.1 * inject_Z (1024 ^ (r.2 - unit)) == val)%Q
  ∧ unit ≤ r.2 ≤ Z.max unit 4
  ∧ (0 <= r.1)%Q
  ∧ (r.2 < 4 → (r.1 < 1024)%Q)
  ∧ (unit < r.2 → (1 <= r.1)%Q).
Proof.
  revert val unit. induction fuel as [|fuel IH]; intros val unit Hval Hunit Hfuel;
    cbn [format_bytes_loop]; cbn zeta.
  - cbn [fst snd]. rewrite Z.sub_diag. change (inject_Z (1024 ^ 0)) with 1%Q.
    rewrite Qmult_1_r. split; [reflexivity|]. split; [lia|]. split; [exact Hval|].
    split; intros; lia.
  - destruct (Qle_bool 1024 val) eqn:E; cbn [andb].
    + apply Qle_bool_iff in E.
      destruct (Z.ltb_spec unit 4) as [Hu|Hu].
      * assert (Hval' : (0 <= val / 1024)%Q).
        { apply Qle_shift_div_l; [reflexivity|]. rewrite Qmult_0_l. exact Hval. }
        destruct (IH (val / 1024)%Q (unit + 1) Hval' ltac:(lia) ltac:(lia))
          as (H1 & H2 & H3 & H4 & H5).
        set (r := format_bytes_loop fuel (val / 1024) (unit + 1)) in *.
        split; [|split; [lia|split; [exact H3|split; [exact H4|]]]].
        -- replace (r.2 - unit) with (1 + (r.2 - (unit + 1))) by lia.
           rewrite Z.pow_add_r by lia. rewrite inject_Z_mult.
           change (inject_Z (1024 ^ 1)) with 1024%Q.
           rewrite (Qmult_comm 1024), Qmult_assoc, H1. field.
        -- intros _. destruct (Z.eq_dec r.2 (unit + 1)) as [Eq|Ne]; [|apply H5; lia].
           rewrite Eq, Z.sub_diag in H1. change (inject_Z (1024 ^ 0)) with 1%Q in H1.
           rewrite Qmult_1_r in H1. rewrite H1.
           apply Qle_shift_div_l; [reflexivity|]. rewrite Qmult_1_l. exact E.
      * cbn [fst snd]. rewrite Z.sub_diag. change (inject_Z (1024 ^ 0)) with 1%Q.
        rewrite Qmult_1_r. split; [reflexivity|]. split; [lia|]. split; [exact Hval|].
        split; intros; lia.
    + cbn [fst snd]. rewrite Z.sub_diag. change (inject_Z (1024 ^ 0)) with 1%Q.
      rewrite Qmult_1_r. split; [reflexivity|]. split; [lia|]. split; [exact Hval|].
      split; [|intros; lia]. intros _.
      apply Qnot_le_lt. intros Hle. apply Qle_bool_iff in Hle. congruence.
Qed.

(** X20. For a byte count that is not negative, [format_bytes] prints a
    value and a unit among B, KiB, MiB, GiB, TiB such that the value times
    1024 to the power of the unit index is the byte count; the value is
    below 1024 unless the unit is TiB, and at least 1 unless the unit is
    B. *)
Theorem format_bytes_value (bytes : Z) :
  0 ≤ bytes →
  let val := (format_bytes bytes).1 in
  let unit := (format_bytes bytes).2 in
  0 ≤ unit ≤ 4
  ∧ (val * inject_Z (1024 ^ unit) == inject_Z bytes)%Q
  ∧ (unit < 4 → (val < 1024)%Q)
  ∧ (0 < unit → (1 <= val)%Q).
Proof.
  intros Hb. cbn zeta. unfold format_bytes.
  destruct (format_bytes_loop_spec 4 (inject_Z bytes) 0
              (inject_Z_nonneg bytes Hb) ltac:(lia) ltac:(lia))
    as (H1 & H2 & _ & H4 & H5).
  rewrite Z.sub_0_r in H1. split; [lia|]. split; [exact H1|]. split; assumption.
Qed.

(** Witness of X20: 5 MiB. *)
Lemma format_bytes_value_witness :
  (format_bytes 5242880).2 = 2 ∧ ((format_bytes 5242880).1 == 5)%Q.
Proof.
  destruct (format_bytes_value 5242880) as (_ & H & _); [lia|].
  split; [reflexivity|].
  change ((format_bytes 5242880).2) with 2 in H.
  change (inject_Z (1024 ^ 2)) with (inject_Z 1048576) in H.
  apply (Qmult_inj_r _ _ (inject_Z 1048576)); [discriminate|].
  rewrite H. reflexivity.
Defined.

(** ** The battery ([parse_battery]) *)

Lemma battery_loop_no_battery (entries : list supply) (b : Battery) :
  Forall (λ e, String.prefix "BAT" (d_name e) = false) entries →
  battery_loop entries b = b.
Proof.
  induction 1 as [|e rest He _ IH]; cbn [battery_loop]; [reflexivity|].
  rewrite He. exact IH.
Qed.

(** X21. When /sys/class/power_supply can be opened, [parse_battery] reads
    the first entry whose name starts with "BAT" and no other: entries
    before it and every entry after it, further batteries included, leave
    no trace. When no entry starts with "BAT" the battery fields keep their
    values: a battery seen once stays displayed, with its last percentage,
    after it is gone. *)
Theorem parse_battery_first (before after : list supply) (e : supply) (b : Battery) :
  Forall (λ e, String.prefix "BAT" (d_name e) = false) before →
  String.prefix "BAT" (d_name e) = true →
  parse_battery (Some (before ++ e :: after)) b = read_battery e b
  ∧ parse_battery (Some before) b = b.
Proof.
  intros Hbefore He. cbn [parse_battery]. split.
  - induction Hbefore as [|e0 rest He0 _ IH]; cbn [app battery_loop].
    + rewrite He. reflexivity.
    + rewrite He0. exact IH.
  - apply battery_loop_no_battery. exact Hbefore.
Qed.

(** Witness of X21: a mains adapter, then two batteries. *)
Lemma parse_battery_first_witness :
  parse_battery
    (Some ([mkSupply "AC" None None]
           ++ mkSupply "BAT0" (Some (Some 77)) (Some "Charging")
              :: [mkSupply "BAT1" (Some (Some 5)) (Some "Full")]))
    (mkBattery 0 0 "")
  = mkBattery 77 1 "Charging".
Proof.
  destruct (parse_battery_first [mkSupply "AC" None None]
              [mkSupply "BAT1" (Some (Some 5)) (Some "Full")]
              (mkSupply "BAT0" (Some (Some 77)) (Some "Charging"))
              (mkBattery 0 0 "")) as [H _].
  - repeat constructor.
  - reflexivity.
  - rewrite H. reflexivity.
Defined.

(** ** The key handler ([main]) *)

Lemma lnot_flag (z : Z) : flag (lnot z).
Proof. unfold flag, lnot. destruct (z =? 0); auto. Qed.

(** X22. Whatever the event, the terminal size and the termbox constants,
    the key handler keeps the pane flags 0 or 1 and the sort mode among the
    five modes; and when the selection is an entry of the process table
    before the event, it is one after it. *)
Theorem handle_event_inv (tb : Termbox) (w h process_count : Z) (ev : tb_event) (u : Ui) :
  ui_inv u →
  let u' := (handle_event tb w h process_count ev u).1 in
  ui_inv u'
  ∧ (0 ≤ g_selected_process u < process_count →
     0 ≤ g_selected_process u' < process_count).
Proof.
  intros [Hv Hs]. cbn zeta. unfold handle_event.
  destruct (calculate_minimum_size (ui_panes u)) as [mw mh].
  destruct Hv as (Hc & Hm & Hd & Hn & Hp).
  unfold SORT_MAX in *. rewrite ?Z.gtb_ltb, ?Z.geb_leb.
  repeat match goal with
    | |- context [if ?c then _ else _] => destruct c eqn:?
    end;
    repeat match goal with
      | H : (_ <? _) = true |- _ => apply Z.ltb_lt in H
      | H : (_ <? _) = false |- _ => apply Z.ltb_ge in H
      | H : (_ <=? _) = true |- _ => apply Z.leb_le in H
      | H : (_ <=? _) = false |- _ => apply Z.leb_gt in H
      end;
    unfold ui_inv, valid_panes, SORT_MAX;
    cbn [fst ui_panes ui_sort_mode g_selected_process
         g_show_cpu g_show_mem g_show_disks g_show_net g_show_proc];
    (split; [split; [auto 10 using lnot_flag
                    |try lia; Z.to_euclidean_division_equations; lia]
            |intros Hsel; lia]).
Qed.

(** Witness of X22: Page Down with process 45 of 50 selected. *)
Lemma handle_event_inv_witness :
  g_selected_process
    (handle_event termbox2 80 24 50 (key_press termbox2 (TB_KEY_PGDN termbox2))
       (mkUi (mkPanes 1 1 1 1 1) SORT_CPU_LAZY 45 1)).1 = 49.
Proof.
  destruct (handle_event_inv termbox2 80 24 50 (key_press termbox2 (TB_KEY_PGDN termbox2))
              (mkUi (mkPanes 1 1 1 1 1) SORT_CPU_LAZY 45 1)) as [_ H].
  - split; [unfold valid_panes, flag; cbn; intuition lia|vm_compute; split; congruence].
  - reflexivity.
Defined.

(** X23. Ctrl-F moves the sort mode one step forward around the five
    modes and Ctrl-B one step backward, each asking for an immediate poll
    and redraw: Ctrl-B after Ctrl-F, and Ctrl-F after Ctrl-B, bring the
    interface back to the state it was in, and five presses of Ctrl-F come
    back to the starting mode. *)
Theorem sort_keys_cycle (tb : Termbox) (w h process_count : Z) (u : Ui) :
  0 ≤ ui_sort_mode u < SORT_MAX →
  TB_KEY_CTRL_F tb ≠ TB_KEY_CTRL_B tb →
  let forward u := handle_event tb w h process_count (key_press tb (TB_KEY_CTRL_F tb)) u in
  let backward u := handle_event tb w h process_count (key_press tb (TB_KEY_CTRL_B tb)) u in
  forward u
  = (mkUi (ui_panes u) ((ui_sort_mode u + 1) mod SORT_MAX) (g_selected_process u)
       (g_running u), mkRedraw 1 0 1)
  ∧ (backward u).2 = mkRedraw 1 0 1
  ∧ (backward (forward u).1).1 = u
  ∧ (forward (backward u).1).1 = u
  ∧ (forward (forward (forward (forward (forward u).1).1).1).1).1 = u.
Proof.
  intros Hs Hne. cbn zeta.
  assert (Hf : ∀ v, handle_event tb w h process_count (key_press tb (TB_KEY_CTRL_F tb)) v
            = (mkUi (ui_panes v) ((ui_sort_mode v + 1) `rem` SORT_MAX)
                 (g_selected_process v) (g_running v), mkRedraw 1 0 1)).
  { intros v. unfold handle_event, key_press.
    destruct (calculate_minimum_size (ui_panes v)) as [mw mh].
    cbn [ev_type ev_ch ev_key ev_mod]. rewrite !Z.eqb_refl.
    reflexivity. }
  assert (Hb : ∀ v, handle_event tb w h process_count (key_press tb (TB_KEY_CTRL_B tb)) v
            = (mkUi (ui_panes v) ((ui_sort_mode v - 1 + SORT_MAX) `rem` SORT_MAX)
                 (g_selected_process v) (g_running v), mkRedraw 1 0 1)).
  { intros v. unfold handle_event, key_press.
    destruct (calculate_minimum_size (ui_panes v)) as [mw mh].
    cbn [ev_type ev_ch ev_key ev_mod]. rewrite !Z.eqb_refl.
    destruct (Z.eqb_spec (TB_KEY_CTRL_B tb) (TB_KEY_CTRL_F tb)); [congruence|].
    reflexivity. }
  rewrite !Hf, !Hb. cbn [fst snd ui_panes ui_sort_mode g_selected_process g_running].
  destruct u as [p m sel run]. cbn [ui_panes ui_sort_mode g_selected_process g_running] in *.
  unfold SORT_MAX in *.
  assert (Hm : m = 0 ∨ m = 1 ∨ m = 2 ∨ m = 3 ∨ m = 4) by lia.
  split; [|split; [reflexivity|]].
  - f_equal. f_equal. rewrite Z.rem_mod_nonneg by lia. reflexivity.
  - destruct Hm as [->|[->|[->|[->| ->]]]]; repeat split; reflexivity.
Qed.

(** Witness of X23: from the memory mode, with the constants of
    termbox2. *)
Lemma sort_keys_cycle_witness :
  (handle_event termbox2 80 24 50 (key_press termbox2 (TB_KEY_CTRL_F termbox2))
     (mkUi (mkPanes 1 1 1 1 1) SORT_MEM 0 1)).1
  = mkUi (mkPanes 1 1 1 1 1) SORT_PID 0 1.
Proof.
  destruct (sort_keys_cycle termbox2 80 24 50 (mkUi (mkPanes 1 1 1 1 1) SORT_MEM 0 1))
    as [H _].
  - vm_compute. split; congruence.
  - discriminate.
  - rewrite H. reflexivity.
Defined.

(** ** The configuration file ([save_settings], [load_settings]) *)

Lemma digit_char_spec (d : Z) :
  0 ≤ d < 10 →
  let c := ascii_of_N (Z.to_N (48 + d)) in
  is_digit c = true ∧ Z.of_N (N_of_ascii c) - 48 = d
  ∧ is_space c = false ∧ Ascii.eqb c "-" = false ∧ Ascii.eqb c "+" = false.
Proof.
  intros Hd.
  assert (H : d = 0 ∨ d = 1 ∨ d = 2 ∨ d = 3 ∨ d = 4 ∨ d = 5 ∨ d = 6 ∨ d = 7 ∨ d = 8 ∨ d = 9)
    by lia.
  repeat (destruct H as [->|H]); try subst d; cbn; auto.
Qed.

Lemma print_digits_app (fuel : nat) (n : Z) (acc rest : string) :
  (print_digits fuel n acc ++ rest)%string = print_digits fuel n (acc ++ rest)%string.
Proof.
  revert n acc. induction fuel as [|fuel IH]; intros n acc; cbn [print_digits];
    [reflexivity|].
  destruct (n <? 10); [reflexivity|]. rewrite IH. reflexivity.
Qed.

Lemma print_digits_head (fuel : nat) (n : Z) (acc : string) :
  0 ≤ n →
  ∃ c rest, print_digits (S fuel) n acc = String c rest ∧ is_digit c = true
            ∧ is_space c = false ∧ Ascii.eqb c "-" = false ∧ Ascii.eqb c "+" = false.
Proof.
  revert n acc. induction fuel as [|fuel IH]; intros n acc Hn.
  - cbn [print_digits].
    destruct (digit_char_spec (n mod 10)) as (H1 & _ & H2 & H3 & H4);
      [apply Z.mod_pos_bound; lia|].
    destruct (n <? 10); eauto 10.
  - change (print_digits (S (S fuel)) n acc)
      with (let acc' := String (ascii_of_N (Z.to_N (48 + n mod 10))) acc in
            if n <? 10 then acc' else print_digits (S fuel) (n / 10) acc').
    cbn zeta. destruct (n <? 10).
    + destruct (digit_char_spec (n mod 10)) as (H1 & _ & H2 & H3 & H4);
        [apply Z.mod_pos_bound; lia|].
      eauto 10.
    + apply IH. apply Z.div_pos; lia.
Qed.

Lemma print_digits_scan (fuel : nat) (n : Z) (acc : string) :
  0 ≤ n < 10 ^ Z.of_nat fuel →
  ∃ k, 0 ≤ k ∧ ∀ a, scan_digits (print_digits fuel n acc) a = scan_digits acc (a * 10 ^ k + n).
Proof.
  revert n acc. induction fuel as [|fuel IH]; intros n acc Hn.
  - exists 0. split; [lia|]. intros a. cbn [print_digits].
    change (10 ^ Z.of_nat 0) with 1 in Hn. f_equal. lia.
  - cbn [print_digits].
    destruct (digit_char_spec (n mod 10)) as (H1 & H2 & _);
      [apply Z.mod_pos_bound; lia|].
    destruct (Z.ltb_spec n 10) as [Hlt|Hge].
    + exists 1. split; [lia|]. intros a. cbn [scan_digits]. rewrite H1, H2.
      rewrite Z.mod_small by lia. f_equal.
    + destruct (IH (n / 10) (String (ascii_of_N (Z.to_N (48 + n mod 10))) acc))
        as (k & Hk & E).
      { split; [apply Z.div_pos; lia|].
        apply Z.div_lt_upper_bound; [lia|].
        rewrite Nat2Z.inj_succ, Z.pow_succ_r in Hn by lia. lia. }
      exists (k + 1). split; [lia|]. intros a. rewrite E. cbn [scan_digits].
      rewrite H1, H2. f_equal. rewrite Z.pow_add_r by lia.
      pose proof (Z.div_mod n 10 ltac:(lia)). lia.
Qed.

Lemma log2_fuel (n : Z) : 0 ≤ n → n < 10 ^ Z.of_nat (S (Z.to_nat (Z.log2 n))).
Proof.
  intros Hn. rewrite Nat2Z.inj_succ, Z2Nat.id by apply Z.log2_nonneg.
  destruct (Z.eq_dec n 0) as [->|Hne]; [reflexivity|].
  pose proof (Z.log2_spec n ltac:(lia)) as [_ H2].
  pose proof (Z.log2_nonneg n).
  assert (2 ^ Z.succ (Z.log2 n) ≤ 10 ^ Z.succ (Z.log2 n))
    by (apply Z.pow_le_mono_l; lia).
  lia.
Qed.

(** [%d] reads back what ["%d\n"] has printed. *)
Lemma scan_int_print_int (z : Z) :
  scan_int (print_int z ++ String newline "") = Some z.
Proof.
  unfold print_int. destruct (Z.ltb_spec z 0) as [Hneg|Hpos].
  - change (String "-" (print_digits (S (Z.to_nat (Z.log2 (- z)))) (- z) "")
            ++ String newline "")%string
      with (String "-" (print_digits (S (Z.to_nat (Z.log2 (- z)))) (- z) ""
                        ++ String newline ""))%string.
    rewrite print_digits_app.
    change ("" ++ String newline "")%string with (String newline "").
    set (fuel := Z.to_nat (Z.log2 (- z))).
    destruct (print_digits_head fuel (- z) (String newline "") ltac:(lia))
      as (c & rest & E & Hd & Hs & _).
    destruct (print_digits_scan (S fuel) (- z) (String newline ""))
      as (k & Hk & Escan); [split; [lia|apply log2_fuel; lia]|].
    unfold scan_int. cbn [skip_space]. change (is_space "-") with false. cbn iota.
    change (Ascii.eqb "-" "-") with true. cbn iota.
    rewrite Escan. rewrite E, Hd. cbn [scan_digits].
    change (is_digit newline) with false. cbn iota. f_equal. lia.
  - rewrite print_digits_app.
    change ("" ++ String newline "")%string with (String newline "").
    set (fuel := Z.to_nat (Z.log2 z)).
    destruct (print_digits_head fuel z (String newline "") Hpos)
      as (c & rest & E & Hd & Hs & Hm & Hp).
    destruct (print_digits_scan (S fuel) z (String newline ""))
      as (k & Hk & Escan); [split; [lia|apply log2_fuel; lia]|].
    unfold scan_int. rewrite E. cbn [skip_space]. rewrite Hs, Hm, Hp, Hd.
    rewrite <- E, Escan. cbn [scan_digits].
    change (is_digit newline) with false. cbn iota. f_equal.
Qed.

(** A line ["key=value"] of the file with a key of the program leads to
    the assignment of the key. *)
Lemma load_line_setting (t : Settings) (key rest : string) (z : Z) :
  key ∈ ["show_cpu"; "show_mem"; "show_disks"; "show_net"; "show_proc";
         "sort_mode"; "refresh_rate"]%string →
  scan_int rest = Some z →
  load_line t (key ++ "=" ++ rest) = apply_setting t key z.
Proof.
  intros Hkey E.
  repeat (apply elem_of_cons in Hkey; destruct Hkey as [->|Hkey]);
    [..|apply elem_of_nil in Hkey; destruct Hkey];
    unfold load_line, scan_setting;
    lazy [String.append scan_key Ascii.eqb Bool.eqb andb orb newline];
    rewrite E; reflexivity.
Qed.

Lemma load_settings_step (line : string) (lines : list string) (s t : Settings) :
  load_line s line = t →
  fold_left load_line (line :: lines) s = fold_left load_line lines t.
Proof. intros <-. reflexivity. Qed.

(** X24. What [save_settings] writes, [load_settings] reads back: for
    every value of the five pane flags, every sort mode among the five
    modes and every refresh rate from 100 to 10000 ms, loading the saved
    file over any settings gives the saved settings. *)
Theorem settings_round_trip (s s0 : Settings) :
  0 ≤ s_sort_mode s < SORT_MAX →
  100 ≤ g_refresh_rate_ms s ≤ 10000 →
  load_settings (Some (save_settings s)) s0 = s.
Proof.
  intros Hm Hr. unfold load_settings, save_settings. cbn zeta.
  destruct s0 as [[c0 m0 d0 n0 p0] sm0 rr0].
  etransitivity; [apply load_settings_step; reflexivity|].
  do 6 (etransitivity;
    [apply load_settings_step; apply load_line_setting;
     [repeat first [apply list_elem_of_here | apply list_elem_of_further]
     |apply scan_int_print_int]
    |unfold apply_setting;
     cbn [String.eqb Ascii.eqb Bool.eqb s_panes s_sort_mode g_refresh_rate_ms
          g_show_cpu g_show_mem g_show_disks g_show_net g_show_proc]]).
  unfold SORT_MAX in *. rewrite Z.geb_leb.
  replace (0 <=? s_sort_mode s) with true by (symmetry; apply Z.leb_le; lia).
  replace (s_sort_mode s <? 5) with true by (symmetry; apply Z.ltb_lt; lia).
  cbn [andb].
  (etransitivity;
    [apply load_settings_step; apply load_line_setting;
     [repeat first [apply list_elem_of_here | apply list_elem_of_further]
     |apply scan_int_print_int]
    |unfold apply_setting;
     cbn [String.eqb Ascii.eqb Bool.eqb s_panes s_sort_mode g_refresh_rate_ms
          g_show_cpu g_show_mem g_show_disks g_show_net g_show_proc]]).
  rewrite Z.geb_leb.
  replace (100 <=? g_refresh_rate_ms s) with true by (symmetry; apply Z.leb_le; lia).
  replace (g_refresh_rate_ms s <=? 10000) with true by (symmetry; apply Z.leb_le; lia).
  cbn [andb fold_left].
  destruct s as [[c m d n p] sm rr]. reflexivity.
Qed.

(** Witness of X24: the memory pane off, sort by pid, a refresh every
    2.5 seconds. *)
Lemma settings_round_trip_witness :
  load_settings (Some (save_settings (mkSettings (mkPanes 1 0 1 1 1) SORT_PID 2500)))
    default_settings
  = mkSettings (mkPanes 1 0 1 1 1) SORT_PID 2500.
Proof.
  apply (settings_round_trip (mkSettings (mkPanes 1 0 1 1 1) SORT_PID 2500)
           default_settings).
  - vm_compute. split; congruence.
  - vm_compute. split; congruence.
Defined.

Lemma load_line_ranges (s : Settings) (line : string) :
  (0 ≤ s_sort_mode s < SORT_MAX → 0 ≤ s_sort_mode (load_line s line) < SORT_MAX)
  ∧ (100 ≤ g_refresh_rate_ms s ≤ 10000 →
     100 ≤ g_refresh_rate_ms (load_line s line) ≤ 10000).
Proof.
  unfold load_line. destruct line as [|c line]; [auto|].
  destruct (_ || _); [auto|].
  destruct (scan_setting _) as [[key value]|]; [|auto].
  unfold apply_setting. rewrite !Z.geb_leb.
  repeat match goal with
    | |- context [if String.eqb ?k ?x then _ else _] => destruct (String.eqb k x)
    end;
    cbn [s_sort_mode g_refresh_rate_ms]; auto.
  - destruct (Z.leb_spec 0 value), (Z.ltb_spec value SORT_MAX);
      cbn [andb s_sort_mode g_refresh_rate_ms]; auto.
  - destruct (Z.leb_spec 100 value), (Z.leb_spec value 10000);
      cbn [andb s_sort_mode g_refresh_rate_ms]; auto.
Qed.

(** X25. Whatever the configuration file contains, [load_settings] leaves
    the sort mode among the five modes and the refresh rate between 100 and
    10000 ms when they were so before, as they are at program start: a
    value out of range is ignored. *)
Theorem load_settings_ranges (file : option (list string)) (s : Settings) :
  0 ≤ s_sort_mode s < SORT_MAX →
  100 ≤ g_refresh_rate_ms s ≤ 10000 →
  0 ≤ s_sort_mode (load_settings file s) < SORT_MAX
  ∧ 100 ≤ g_refresh_rate_ms (load_settings file s) ≤ 10000.
Proof.
  destruct file as [lines|]; cbn [load_settings]; [|auto].
  revert s. induction lines as [|line lines IH]; intros s Hm Hr; cbn [fold_left]; [auto|].
  destruct (load_line_ranges s line) as [H1 H2]. apply IH; auto.
Qed.

(** Witness of X25: a file with a sort mode of 9 and a refresh rate of 50. *)
Lemma load_settings_ranges_witness :
  load_settings (Some ["sort_mode=9"; "refresh_rate=50"; "sort_mode=2"]%string)
    default_settings
  = mkSettings (mkPanes 1 1 1 1 1) SORT_MEM 1000
  ∧ 0 ≤ s_sort_mode
          (load_settings (Some ["sort_mode=9"; "refresh_rate=50"; "sort_mode=2"]%string)
             default_settings) < SORT_MAX.
Proof.
  split; [reflexivity|].
  apply (load_settings_ranges (Some ["sort_mode=9"; "refresh_rate=50"; "sort_mode=2"]%string)
           default_settings).
  - vm_compute. split; congruence.
  - vm_compute. split; congruence.
Defined.

(** ** Reads of the graphs of the panes *)

(** X26. The history graphs of the CPU pane and of the disk pane never
    read outside the series: whatever the width of the pane and the
    position of the cursor in the series, every cell read has an index from
    0 to [HISTORY_SIZE] - 1. *)
Theorem cpu_disk_graph_reads_inside (w idx col : Z) :
  0 ≤ idx < HISTORY_SIZE →
  (0 ≤ col < Z.min (cpu_graph_w w) HISTORY_SIZE →
   0 ≤ graph_index HISTORY_SIZE (cpu_graph_w w) idx col < HISTORY_SIZE)
  ∧ (0 ≤ col < Z.min (disk_graph_w w) HISTORY_SIZE →
     0 ≤ graph_index HISTORY_SIZE (disk_graph_w w) idx col < HISTORY_SIZE).
Proof.
  intros Hidx.
  assert (Hc : cpu_graph_w w ≤ 60).
  { unfold cpu_graph_w. rewrite Z.gtb_ltb. destruct (Z.ltb_spec 60 (w - 2)); lia. }
  assert (Hd : disk_graph_w w ≤ 30).
  { unfold disk_graph_w. rewrite !Z.gtb_ltb.
    match goal with |- context [30 <? ?x] => destruct (Z.ltb_spec 30 x) end; lia. }
  unfold HISTORY_SIZE in *.
  split; intros Hcol.
  - apply (proj2 (graph_index_inside (cpu_graph_w w) idx Hidx ltac:(lia))); [|exact Hcol].
    left. unfold HISTORY_SIZE. lia.
  - apply (proj2 (graph_index_inside (disk_graph_w w) idx Hidx ltac:(lia))); [|exact Hcol].
    left. unfold HISTORY_SIZE. lia.
Qed.

(** Witness of X26: a CPU pane of 198 columns, the cursor at 0. *)
Lemma cpu_disk_graph_reads_inside_witness :
  0 ≤ graph_index HISTORY_SIZE (cpu_graph_w 198) 0 0 < HISTORY_SIZE.
Proof.
  destruct (cpu_disk_graph_reads_inside 198 0 0) as [H _].
  - vm_compute. split; congruence.
  - apply H. vm_compute. split; congruence.
Defined.

(** The width of the left column of a layout. *)
Lemma split_widths_left (p : Panes) (w : Z) :
  80 ≤ w →
  0 ≤ g_show_mem p + g_show_disks p + g_show_net p →
  (split_widths p w).1
  = if g_show_mem p + g_show_disks p + g_show_net p =? 0 then 0
    else if truthy (g_show_proc p) then ((w - 3) * 35) `quot` 100
    else w - 2.
Proof.
  intros Hw Hn. unfold split_widths. rewrite ?Z.gtb_ltb.
  destruct (truthy (g_show_proc p)); cbn [andb negb];
    destruct (Z.eqb_spec (g_show_mem p + g_show_disks p + g_show_net p) 0);
    destruct (Z.ltb_spec 0 (g_show_mem p + g_show_disks p + g_show_net p));
    cbn [fst snd]; try lia.
  split_comparisons; cbn [fst snd]; Z.to_euclidean_division_equations; lia.
Qed.

(** X27. The graphs of the memory pane and of the network pane are as wide
    as the left column less two. With flags that are 0 or 1 and a terminal
    at or above the minimum size, every cell they read lies inside the
    series, whatever the cursor, when the process pane is shown and the
    terminal has at most 354 columns, or the process pane is hidden and the
    terminal has at most 124 columns. The two limits are tight: with one
    column more and the cursor at 0, the first column is read at index
    -1. *)
Theorem left_graph_reads_inside (p : Panes) (w idx col : Z) :
  valid_panes p →
  (calculate_minimum_size p).1 ≤ w →
  (if truthy (g_show_proc p) then w ≤ 354 else w ≤ 124) →
  0 ≤ idx < HISTORY_SIZE →
  let graph_w := left_graph_w (split_widths p w).1 in
  (0 ≤ col < Z.min graph_w HISTORY_SIZE →
   0 ≤ graph_index HISTORY_SIZE graph_w idx col < HISTORY_SIZE)
  ∧ graph_index HISTORY_SIZE
      (left_graph_w (split_widths (mkPanes 1 1 1 1 1) 355).1) 0 0 = -1
  ∧ graph_index HISTORY_SIZE
      (left_graph_w (split_widths (mkPanes 1 1 1 1 0) 125).1) 0 0 = -1.
Proof.
  intros Hv Hw Hlim Hidx. cbn zeta.
  split; [|split; reflexivity].
  intros Hcol.
  pose proof (calculate_minimum_size_floor p) as [F1 _].
  assert (Hn : 0 ≤ g_show_mem p + g_show_disks p + g_show_net p).
  { destruct Hv as (_ & [E1|E1] & [E2|E2] & [E3|E3] & _); rewrite E1, E2, E3; lia. }
  assert (Hlw : (split_widths p w).1 ≤ 122).
  { rewrite split_widths_left by lia.
    destruct (_ =? 0); [lia|].
    destruct (truthy (g_show_proc p)); [|lia].
    Z.to_euclidean_division_equations. lia. }
  unfold left_graph_w, HISTORY_SIZE in *.
  apply (proj2 (graph_index_inside ((split_widths p w).1 - 2) idx Hidx ltac:(lia)));
    [|exact Hcol].
  left. unfold HISTORY_SIZE. lia.
Qed.

(** Witness of X27: the five panes on a terminal of 200 columns, where the
    left column has 68 columns. *)
Lemma left_graph_reads_inside_witness :
  0 ≤ graph_index HISTORY_SIZE (left_graph_w (split_widths (mkPanes 1 1 1 1 1) 200).1) 5 0
    < HISTORY_SIZE.
Proof.
  destruct (left_graph_reads_inside (mkPanes 1 1 1 1 1) 200 5 0) as [H _].
  - unfold valid_panes, flag. cbn. intuition lia.
  - vm_compute. congruence.
  - vm_compute. congruence.
  - vm_compute. split; congruence.
  - apply H. vm_compute. split; congruence.
Defined.

(** ** The minimum size and the pane flags ([calculate_minimum_size]) *)

(** X28. With flags that are 0 or 1 the minimum width is 80 columns
    whatever the panes, the minimum height is between 10 and 19 rows, and
    hiding panes never raises the minimum height. *)
Theorem minimum_size_flags (p q : Panes) :
  valid_panes p → valid_panes q →
  g_show_cpu q ≤ g_show_cpu p → g_show_mem q ≤ g_show_mem p →
  g_show_disks q ≤ g_show_disks p → g_show_net q ≤ g_show_net p →
  g_show_proc q ≤ g_show_proc p →
  (calculate_minimum_size p).1 = 80
  ∧ 10 ≤ (calculate_minimum_size p).2 ≤ 19
  ∧ (calculate_minimum_size q).2 ≤ (calculate_minimum_size p).2.
Proof.
  destruct p as [c m d n pr], q as [c' m' d' n' pr']. unfold valid_panes, flag.
  cbn [g_show_cpu g_show_mem g_show_disks g_show_net g_show_proc].
  intros Hp Hq H1 H2 H3 H4 H5.
  flags_cases Hp; flags_cases Hq; try lia; vm_compute; intuition congruence.
Qed.

(** Witness of X28: hiding the disk and network panes of the full layout. *)
Lemma minimum_size_flags_witness :
  (calculate_minimum_size (mkPanes 1 1 0 0 1)).2
  ≤ (calculate_minimum_size (mkPanes 1 1 1 1 1)).2.
Proof.
  apply (minimum_size_flags (mkPanes 1 1 1 1 1) (mkPanes 1 1 0 0 1));
    try (unfold valid_panes, flag; cbn; intuition lia); cbn; lia.
Defined.

(** ** Instant CPU share of a process ([parse_processes]) *)



(** ** The selection on an empty process table *)

(** X30. When the process table is empty, the End key (and Page Down) sets
    the selection to -1 on a terminal that is large enough with the process
    pane shown; [draw_process_list] then takes -1 as scroll offset and draws
    one row, for the table entry of index -1, which is outside the table. *)
Theorem empty_table_selection (w h y ph offset : Z) (u : Ui) :
  truthy (g_show_proc (ui_panes u)) = true →
  (calculate_minimum_size (ui_panes u)).1 ≤ w →
  (calculate_minimum_size (ui_panes u)).2 ≤ h →
  5 ≤ ph → 0 ≤ offset →
  let end_key := handle_event termbox2 w h 0 (key_press termbox2 (TB_KEY_END termbox2)) u in
  let page_down := handle_event termbox2 w h 0 (key_press termbox2 (TB_KEY_PGDN termbox2)) u in
  g_selected_process end_key.1 = -1
  ∧ (0 ≤ g_selected_process u → g_selected_process page_down.1 = -1)
  ∧ process_rows y ph (-1) offset 0 = ([(y + 2, -1)], -1).
Proof.
  intros Hp Hw Hh Hph Hoff. cbn zeta. unfold handle_event, key_press.
  destruct (calculate_minimum_size (ui_panes u)) as [mw mh]. cbn [fst snd] in Hw, Hh.
  replace (w <? mw) with false by (symmetry; apply Z.ltb_ge; exact Hw).
  replace (h <? mh) with false by (symmetry; apply Z.ltb_ge; exact Hh).
  rewrite Hp. cbn [orb negb andb ev_type ev_ch ev_key ev_mod].
  split; [reflexivity|]. split.
  - intros Hsel.
    change (TB_EVENT_KEY termbox2 =? TB_EVENT_KEY termbox2) with true. cbn iota.
    change (0 =? char_code "1") with false. change (0 =? char_code "2") with false.
    change (0 =? char_code "3") with false. change (0 =? char_code "4") with false.
    change (0 =? char_code "5") with false. cbn iota.
    change (TB_KEY_PGDN termbox2 =? TB_KEY_CTRL_F termbox2) with false.
    change (TB_KEY_PGDN termbox2 =? TB_KEY_CTRL_B termbox2) with false.
    cbn iota.
    change ((0 =? char_code "q") || (0 =? char_code "Q")
            || (TB_KEY_PGDN termbox2 =? TB_KEY_ESC termbox2)
            || (TB_KEY_PGDN termbox2 =? TB_KEY_CTRL_C termbox2)) with false.
    cbn iota.
    change ((TB_KEY_PGDN termbox2 =? TB_KEY_CTRL_N termbox2)
            || (TB_KEY_PGDN termbox2 =? TB_KEY_ARROW_DOWN termbox2)) with false.
    change ((TB_KEY_PGDN termbox2 =? TB_KEY_CTRL_P termbox2)
            || (TB_KEY_PGDN termbox2 =? TB_KEY_ARROW_UP termbox2)) with false.
    change ((TB_KEY_PGDN termbox2 =? TB_KEY_CTRL_V termbox2)
            || (TB_KEY_PGDN termbox2 =? TB_KEY_PGDN termbox2)) with true.
    cbn iota. cbn [fst g_selected_process].
    rewrite Z.geb_leb. destruct (Z.leb_spec 0 (g_selected_process u + 10)); lia.
  - unfold process_rows. destruct (Z.ltb_spec ph 5); [lia|].
    assert (E : scroll_offset (-1) offset (ph - 3) = -1).
    { unfold scroll_offset. destruct (Z.ltb_spec (-1) offset); [reflexivity|lia]. }
    rewrite E. f_equal.
    rewrite process_rows_from_spec by lia.
    replace (Z.min (ph - 3) (0 - -1) - 0) with 1 by lia.
    change (seqZ 0 1) with [0]. cbn [fmap list_fmap].
    rewrite Z.add_0_r. reflexivity.
Qed.

(** Witness of X30: the five panes on a terminal of 80 columns by 24
    rows. *)
Lemma empty_table_selection_witness :
  g_selected_process
    (handle_event termbox2 80 24 0 (key_press termbox2 (TB_KEY_END termbox2))
       (mkUi (mkPanes 1 1 1 1 1) SORT_CPU_LAZY 0 1)).1 = -1.
Proof.
  destruct (empty_table_selection 80 24 6 12 0 (mkUi (mkPanes 1 1 1 1 1) SORT_CPU_LAZY 0 1))
    as [H _].
  - reflexivity.
  - vm_compute. congruence.
  - vm_compute. congruence.
  - lia.
  - lia.
  - exact H.
Defined.
